(** * Market dashboard functions: a shallow embedding of the Netlify handlers

    The development follows the repository file by file:
    - [Num], [Str], [Js]: the part of the JavaScript runtime the handlers
      use (IEEE-754 binary64 numbers, string helpers, values and coercions);
    - [Rt]: the effects of a handler (environment, network, clock and
      timers), as a state-and-exception monad over an explicit world;
    - [VixIndex], [Dxy], [Gold], [FetchAllData]: the source files, one
      module each, with the names of the source;
    - [Chain], [Examples]: the notions the statements are written with, and
      the worlds they are tried on;
    - [YieldSpread], [Buffett]: the two handlers that run their two requests
      concurrently, with [Frames], [Together] and [Yearly] for the notions
      of the statements about the handlers as a whole.
    The statements follow: first those about the chains of sources and their
    numbers, then those about each handler as a whole. *)

From Stdlib Require Import ZArith NArith List Bool Ascii String Lia.
From Stdlib Require Import DecimalString DecimalN DecimalPos.
From Stdlib Require Import Floats.SpecFloat.
Import ListNotations.

Local Open Scope string_scope.
Local Open Scope Z_scope.

(** ** Numbers

    A JavaScript Number is an IEEE-754 binary64 value.  It is modelled by
    [spec_float] at precision 53 and exponent bound 1024, with the operations
    of the standard specification ([SFadd], [SFdiv], ...), which round to
    nearest, ties to even, as ECMAScript prescribes. *)

Module Num.

Definition prec : Z := 53.
Definition emax : Z := 1024.

Definition number := spec_float.

Definition NaN : number := S754_nan.
Definition Infinity : number := S754_infinity false.
Definition zero : number := S754_zero false.

Definition add : number -> number -> number := SFadd prec emax.
Definition sub : number -> number -> number := SFsub prec emax.
Definition mul : number -> number -> number := SFmul prec emax.
Definition div : number -> number -> number := SFdiv prec emax.

(** [x === y] and [x < y] on numbers (IEEE comparison: [NaN] is unordered,
    [-0] equals [+0]). *)
Definition eqb : number -> number -> bool := SFeqb.
Definition ltb : number -> number -> bool := SFltb.
Definition leb : number -> number -> bool := SFleb.

(** [Number.isFinite] and [Number.isNaN] on a value that is a number. *)
Definition isFinite (x : number) : bool :=
  match x with
  | S754_zero _ | S754_finite _ _ _ => true
  | S754_infinity _ | S754_nan => false
  end.

Definition isNaN (x : number) : bool :=
  match x with
  | S754_nan => true
  | _ => false
  end.

Definition is_zero (x : number) : bool :=
  match x with
  | S754_zero _ => true
  | _ => false
  end.

Definition sign (x : number) : bool :=
  match x with
  | S754_zero s | S754_infinity s | S754_finite s _ _ => s
  | S754_nan => false
  end.

(** The number nearest to the integer [z]. *)
Definition of_Z (z : Z) : number := binary_normalize prec emax z 0 false.

(** The number nearest to [(-1)^s * m * 10^e]: a single rounding of the exact
    decimal value.  For a negative [e] the quotient [m / 10^(-e)] is rounded
    once by the division of the specification, whose core works on mantissas
    of any size. *)
Definition of_decimal (s : bool) (m : N) (e : Z) : number :=
  match m with
  | N0 => S754_zero s
  | Npos p =>
      match e with
      | Zneg k =>
          let '(mz, ez, lz) :=
            SFdiv_core_binary prec emax (Zpos p) 0 (Z.pow 10 (Zpos k)) 0 in
          binary_round_aux prec emax s mz ez lz
      | _ => binary_round prec emax s (Pos.mul p (Z.to_pos (Z.pow 10 e))) 0
      end
  end.

(** The exact value of a finite number as a fraction [num / den] of its
    magnitude, [den] a power of two. *)
Definition magnitude (m : positive) (e : Z) : Z * Z :=
  match e with
  | Zneg k => (Zpos m, Z.pow 2 (Zpos k))
  | _ => (Zpos m * Z.pow 2 e, 1)
  end.

(** The same number, representation for representation ([Object.is] on
    canonical representations). *)
Definition same (x y : number) : bool :=
  match x, y with
  | S754_zero s, S754_zero t => Bool.eqb s t
  | S754_infinity s, S754_infinity t => Bool.eqb s t
  | S754_nan, S754_nan => true
  | S754_finite s m e, S754_finite t n f =>
      Bool.eqb s t && Pos.eqb m n && Z.eqb e f
  | _, _ => false
  end.

(** The canonical representations: every result of the operations above is
    one, and the comparison of the specification assumes it of its
    arguments. *)
Definition canonical (x : number) : bool := valid_binary prec emax x.

End Num.

(** ** Strings

    A string is a sequence of 8-bit code units; the payloads of the providers
    are ASCII.  The helpers are the [String.prototype] methods the handlers
    call, and the two directions of the conversion between strings and
    numbers. *)

Module Str.

Import Num.

(** White space and line terminators of ECMAScript among the code units
    below 256: TAB, LF, VT, FF, CR, SP and NBSP. *)
Definition is_space (c : ascii) : bool :=
  let n := N_of_ascii c in
  (((9 <=? n) && (n <=? 13)) || (n =? 32) || (n =? 160))%N.

Fixpoint trimStart (s : string) : string :=
  match s with
  | String c s' => if is_space c then trimStart s' else s
  | EmptyString => EmptyString
  end.

Fixpoint rev_onto (s acc : string) : string :=
  match s with
  | String c s' => rev_onto s' (String c acc)
  | EmptyString => acc
  end.

Definition rev (s : string) : string := rev_onto s "".

Definition trimEnd (s : string) : string := rev (trimStart (rev s)).

(** [s.trim()] *)
Definition trim (s : string) : string := trimEnd (trimStart s).

(** [s.split(sep)] for a separator of one code unit. *)
Fixpoint split (sep : ascii) (s : string) : list string :=
  match s with
  | EmptyString => [ "" ]
  | String c s' =>
      if Ascii.eqb c sep then "" :: split sep s'
      else match split sep s' with
           | h :: t => String c h :: t
           | [] => [ String c "" ]
           end
  end.

(** The truthiness of a string: [Boolean(s)]. *)
Definition nonempty (s : string) : bool :=
  match s with
  | EmptyString => false
  | _ => true
  end.

(** [s.endsWith(t)] *)
Definition endsWith (s t : string) : bool := prefix (rev t) (rev s).

(** Decimal digits of a non-negative integer. *)
Definition of_N (n : N) : string := NilZero.string_of_uint (N.to_uint n).

Definition of_Z (z : Z) : string :=
  match z with
  | Zneg p => "-" ++ of_N (Npos p)
  | _ => of_N (Z.to_N z)
  end.

Fixpoint zeros (n : nat) : string :=
  match n with
  | O => ""
  | S n' => String "0" (zeros n')
  end.

Fixpoint take (n : nat) (s : string) : string :=
  match n, s with
  | S n', String c s' => String c (take n' s')
  | _, _ => ""
  end.

Fixpoint drop (n : nat) (s : string) : string :=
  match n, s with
  | S n', String c s' => drop n' s'
  | _, _ => s
  end.

End Str.

(** ** Conversions between strings and numbers *)

Module NumStr.

Import Num.

Definition digit_val (c : ascii) : option N :=
  let n := N_of_ascii c in
  if ((48 <=? n) && (n <=? 57))%N then Some (n - 48)%N else None.

Definition hex_val (c : ascii) : option N :=
  let n := N_of_ascii c in
  if ((48 <=? n) && (n <=? 57))%N then Some (n - 48)%N
  else if ((97 <=? n) && (n <=? 102))%N then Some (n - 87)%N
  else if ((65 <=? n) && (n <=? 70))%N then Some (n - 55)%N
  else None.

(** The longest run of decimal digits at the head of [s]: the value read
    after [acc], the number of digits, and what follows. *)
Fixpoint digits (s : string) (acc : N) (cnt : nat) : N * nat * string :=
  match s with
  | String c s' =>
      match digit_val c with
      | Some d => digits s' (10 * acc + d)%N (S cnt)
      | None => (acc, cnt, s)
      end
  | EmptyString => (acc, cnt, s)
  end.

Definition signed (s : string) : bool * string :=
  match s with
  | String c r =>
      if Ascii.eqb c "+" then (false, r)
      else if Ascii.eqb c "-" then (true, r)
      else (false, s)
  | EmptyString => (false, s)
  end.

(** ExponentPart, when one is there: [e] or [E], a sign, at least one
    digit.  Without one, nothing is consumed. *)
Definition exponent_part (s : string) : Z * string :=
  match s with
  | String c s1 =>
      if (Ascii.eqb c "e" || Ascii.eqb c "E")%bool then
        let '(neg, s2) := signed s1 in
        let '(v, cnt, rest) := digits s2 0%N O in
        match cnt with
        | O => (0, s)
        | _ => (if neg then - Z.of_N v else Z.of_N v, rest)
        end
      else (0, s)
  | EmptyString => (0, s)
  end.

(** The longest prefix of [s] that is a StrUnsignedDecimalLiteral other
    than [Infinity]: its digits as an integer, its decimal exponent, and the
    rest of [s]. *)
Definition unsigned_decimal (s : string) : option (N * Z * string) :=
  let '(i, ci, s1) := digits s 0%N O in
  let whole :=
    match ci with
    | O => None
    | _ => let '(e, rest) := exponent_part s1 in Some (i, e, rest)
    end in
  match s1 with
  | String c s2 =>
      if Ascii.eqb c "." then
        let '(m, cf, s3) := digits s2 i O in
        match ci, cf with
        | O, O => None
        | _, _ =>
            let '(e, rest) := exponent_part s3 in
            Some (m, e - Z.of_nat cf, rest)
        end
      else whole
  | EmptyString => whole
  end.

(** The longest prefix of [s] that is a StrDecimalLiteral, as a number. *)
Definition decimal_literal (s : string) : option (number * string) :=
  let '(neg, s1) := signed s in
  if prefix "Infinity" s1 then Some (S754_infinity neg, Str.drop 8 s1)
  else
    match unsigned_decimal s1 with
    | Some (m, e, rest) => Some (of_decimal neg m e, rest)
    | None => None
    end.

(** All of [s] as digits of radix [r]. *)
Fixpoint radix_digits (r : N) (s : string) (acc : N) : option N :=
  match s with
  | EmptyString => Some acc
  | String c s' =>
      match hex_val c with
      | Some d => if (d <? r)%N then radix_digits r s' (r * acc + d)%N else None
      | None => None
      end
  end.

(** NonDecimalIntegerLiteral: [0x], [0o] or [0b] and at least one digit. *)
Definition non_decimal (s : string) : option N :=
  match s with
  | String z (String c ((String d s') as ds)) =>
      if negb (Ascii.eqb z "0") then None
      else if (Ascii.eqb c "x" || Ascii.eqb c "X")%bool then radix_digits 16 ds 0%N
      else if (Ascii.eqb c "o" || Ascii.eqb c "O")%bool then radix_digits 8 ds 0%N
      else if (Ascii.eqb c "b" || Ascii.eqb c "B")%bool then radix_digits 2 ds 0%N
      else None
  | _ => None
  end.

(** [Number(s)] for a string [s] (StringToNumber): the empty or blank string
    is [+0], a numeric literal is its value rounded once, all else [NaN]. *)
Definition StringToNumber (s : string) : number :=
  let t := Str.trim s in
  match t with
  | EmptyString => zero
  | _ =>
      match non_decimal t with
      | Some n => Num.of_Z (Z.of_N n)
      | None =>
          match decimal_literal t with
          | Some (x, EmptyString) => x
          | _ => NaN
          end
      end
  end.

(** [parseFloat(s)] for a string [s]. *)
Definition parseFloat (s : string) : number :=
  match decimal_literal (Str.trimStart s) with
  | Some (x, _) => x
  | None => NaN
  end.

(** *** Number to string

    [Number::toString] in radix 10: the digits [s] (there are [k] of them, as
    few as can be) and the exponent [n] for which [s * 10^(n-k)] reads back
    as the number; of two such [s] the one nearer to it, the even one on a
    tie. *)

Definition ndigits (z : Z) : Z := Z.of_nat (String.length (Str.of_Z z)).

(** [n] with [10^(n-1) <= num/den < 10^n], for a positive fraction. *)
Definition decimal_exponent (num den : Z) : Z :=
  if den <=? num then ndigits (num / den)
  else
    let d := ndigits (den / num) in
    if den <=? num * Z.pow 10 (d - 1) then 2 - d else 1 - d.

Fixpoint shortest (fuel : nat) (k : Z) (x : number) (num den n : Z)
  : Z * Z * Z :=
  let sc := k - n in
  let '(vn, vd) :=
    if 0 <=? sc then (num * Z.pow 10 sc, den) else (num, den * Z.pow 10 (- sc)) in
  let lo := vn / vd in
  let hi := lo + 1 in
  let r := vn mod vd in
  let ok_lo := same (of_decimal false (Z.to_N lo) (n - k)) x in
  let ok_hi := same (of_decimal false (Z.to_N hi) (n - k)) x in
  let nearest :=
    if 2 * r <? vd then lo
    else if vd <? 2 * r then hi
    else if Z.even lo then lo else hi in
  let pick :=
    if (ok_lo && ok_hi)%bool then Some nearest
    else if ok_lo then Some lo
    else if ok_hi then Some hi
    else None in
  match pick, fuel with
  | Some s, _ => if s =? Z.pow 10 k then (1, 1, n + 1) else (s, k, n)
  | None, S fuel' => shortest fuel' (k + 1) x num den n
  | None, O => (lo, k, n)
  end.

Definition exponent_suffix (n : Z) : string :=
  let e := n - 1 in
  "e" ++ (if e <? 0 then "-" else "+") ++ Str.of_Z (Z.abs e).

Definition layout (ds : string) (k n : Z) : string :=
  if ((k <=? n) && (n <=? 21))%bool then ds ++ Str.zeros (Z.to_nat (n - k))
  else if ((0 <? n) && (n <=? 21))%bool then
    Str.take (Z.to_nat n) ds ++ "." ++ Str.drop (Z.to_nat n) ds
  else if ((-6 <? n) && (n <=? 0))%bool then
    "0." ++ Str.zeros (Z.to_nat (- n)) ++ ds
  else if k =? 1 then ds ++ exponent_suffix n
  else Str.take 1 ds ++ "." ++ Str.drop 1 ds ++ exponent_suffix n.

Definition toString (x : number) : string :=
  match x with
  | S754_nan => "NaN"
  | S754_zero _ => "0"
  | S754_infinity s => if s then "-Infinity" else "Infinity"
  | S754_finite sg m e =>
      let '(num, den) := magnitude m e in
      let '(s, k, n) :=
        shortest 16 1 (S754_finite false m e) num den (decimal_exponent num den) in
      (if sg then "-" else "") ++ layout (Str.of_Z s) k n
  end.

(** *** [Number.prototype.toFixed] *)

Definition ten21 : number := Num.of_Z (Z.pow 10 21).

(** The digits of [n] with a point before the last [f]. *)
Definition fixed_digits (n : Z) (f : nat) : string :=
  let d := Str.of_Z n in
  let k := String.length d in
  let d' := if (k <=? f)%nat then Str.zeros (f + 1 - k) ++ d else d in
  let k' := String.length d' in
  match f with
  | O => d'
  | _ => Str.take (k' - f) d' ++ "." ++ Str.drop (k' - f) d'
  end.

(** [x.toFixed(f)]: below [10^21] the integer [n] nearest to [x * 10^f], the
    larger of two, printed with [f] decimals; the sign is that of [x]. *)
Definition toFixed (x : number) (f : nat) : string :=
  match x with
  | S754_nan => "NaN"
  | S754_infinity s => if s then "-Infinity" else "Infinity"
  | S754_zero _ => fixed_digits 0 f
  | S754_finite sg m e =>
      if Num.leb ten21 (S754_finite false m e) then toString x
      else
        let '(num, den) := magnitude m e in
        let n := (2 * num * Z.pow 10 (Z.of_nat f) + den) / (2 * den) in
        (if sg then "-" else "") ++ fixed_digits n f
  end.

End NumStr.

(** ** Values

    The values the handlers meet: what [JSON.parse] builds, and [undefined]
    for a property that is not there.  An object is the list of its own
    properties, each key once. *)

Module Js.

Import Num.

Inductive value :=
| VUndef
| VNull
| VBool (b : bool)
| VNum (x : number)
| VStr (s : string)
| VArr (items : list value)
| VObj (fields : list (string * value)).

Fixpoint lookup (k : string) (fields : list (string * value)) : value :=
  match fields with
  | [] => VUndef
  | (k', v) :: rest => if String.eqb k k' then v else lookup k rest
  end.

(** [v == null] *)
Definition nullish (v : value) : bool :=
  match v with
  | VUndef | VNull => true
  | _ => false
  end.

(** [v.k] for a value that is neither [undefined] nor [null], and a name [k]
    that no prototype defines (all the names the handlers read are such):
    an own property of an object, [undefined] elsewhere. *)
Definition prop (v : value) (k : string) : value :=
  match v with
  | VObj fields => lookup k fields
  | _ => VUndef
  end.

(** [v.k], which throws a TypeError on [undefined] and [null]: [None]. *)
Definition get (v : value) (k : string) : option value :=
  if nullish v then None else Some (prop v k).

(** [v?.k] *)
Definition get_opt (v : value) (k : string) : value :=
  if nullish v then VUndef else prop v k.

(** [v[i]] on an array. *)
Definition index (l : list value) (i : nat) : value := nth i l VUndef.

(** [a ?? b] *)
Definition coalesce (a b : value) : value := if nullish a then b else a.

(** ToBoolean *)
Definition truthy (v : value) : bool :=
  match v with
  | VUndef | VNull => false
  | VBool b => b
  | VNum x => negb (is_zero x || isNaN x)
  | VStr s => Str.nonempty s
  | VArr _ | VObj _ => true
  end.

(** [a || b] *)
Definition or_else (a b : value) : value := if truthy a then a else b.

(** [v === s] and [v !== s] for a string [s]. *)
Definition is_string (v : value) (s : string) : bool :=
  match v with
  | VStr t => String.eqb t s
  | _ => false
  end.

(** ToString.  An array is its elements joined by commas, [null] and
    [undefined] among them as the empty string; an object of [JSON.parse] is
    ["[object Object]"]. *)
Fixpoint ToString (v : value) : string :=
  match v with
  | VUndef => "undefined"
  | VNull => "null"
  | VBool b => if b then "true" else "false"
  | VNum x => NumStr.toString x
  | VStr s => s
  | VArr items =>
      (fix join (l : list value) : string :=
         match l with
         | [] => ""
         | x :: r =>
             let sx := match x with
                       | VUndef | VNull => ""
                       | _ => ToString x
                       end in
             match r with
             | [] => sx
             | _ => sx ++ "," ++ join r
             end
         end) items
  | VObj _ => "[object Object]"
  end.

(** ToNumber, the function [Number(v)]: an array or object goes through its
    string. *)
Definition ToNumber (v : value) : number :=
  match v with
  | VUndef => NaN
  | VNull => zero
  | VBool b => if b then Num.of_Z 1 else zero
  | VNum x => x
  | VStr s => NumStr.StringToNumber s
  | VArr _ | VObj _ => NumStr.StringToNumber (ToString v)
  end.

(** [parseFloat(v)] *)
Definition parseFloat (v : value) : number := NumStr.parseFloat (ToString v).

(** [Number(x.toFixed(2))] *)
Definition round2 (x : number) : number :=
  NumStr.StringToNumber (NumStr.toFixed x 2).

(** [Number.isFinite(v)]: false on whatever is not a number. *)
Definition Number_isFinite (v : value) : bool :=
  match v with
  | VNum x => isFinite x
  | _ => false
  end.

(** A nullable number as a value. *)
Definition of_nullable (o : option number) : value :=
  match o with
  | Some x => VNum x
  | None => VNull
  end.

(** [JSON.stringify], as the JSON value its text denotes: a number that is
    not finite is written [null] and [-0] is written [0]; a property whose
    value is [undefined] is left out, and [undefined] in an array is written
    [null]. *)
Fixpoint stringify (v : value) : value :=
  match v with
  | VNum x =>
      if isFinite x then (if is_zero x then VNum zero else VNum x) else VNull
  | VArr items =>
      VArr (map (fun x => match x with
                          | VUndef => VNull
                          | _ => stringify x
                          end) items)
  | VObj fields =>
      VObj ((fix go (fs : list (string * value)) : list (string * value) :=
               match fs with
               | [] => []
               | (k, VUndef) :: r => go r
               | (k, x) :: r => (k, stringify x) :: go r
               end) fields)
  | _ => v
  end.

(** [Date.prototype.toISOString] of a time in milliseconds since the epoch
    (within the range of a Date). *)
Definition pad (n : nat) (z : Z) : string :=
  let d := Str.of_Z z in
  Str.zeros (n - String.length d) ++ d.

Definition civil (days : Z) : Z * Z * Z :=
  let z := days + 719468 in
  let era := z / 146097 in
  let doe := z - era * 146097 in
  let yoe := (doe - doe / 1460 + doe / 36524 - doe / 146096) / 365 in
  let doy := doe - (365 * yoe + yoe / 4 - yoe / 100) in
  let mp := (5 * doy + 2) / 153 in
  let d := doy - (153 * mp + 2) / 5 + 1 in
  let m := if mp <? 10 then mp + 3 else mp - 9 in
  let y := yoe + era * 400 + (if m <=? 2 then 1 else 0) in
  (y, m, d).

Definition toISOString (t : Z) : string :=
  let '(y, m, d) := civil (t / 86400000) in
  let ms := t mod 86400000 in
  let year :=
    if ((0 <=? y) && (y <=? 9999))%bool then pad 4 y
    else (if y <? 0 then "-" else "+") ++ pad 6 (Z.abs y) in
  year ++ "-" ++ pad 2 m ++ "-" ++ pad 2 d ++ "T"
       ++ pad 2 (ms / 3600000) ++ ":" ++ pad 2 (ms / 60000 mod 60) ++ ":"
       ++ pad 2 (ms / 1000 mod 60) ++ "." ++ pad 3 (ms mod 1000) ++ "Z".

(** [encodeURIComponent] on ASCII: the unreserved characters stay, the
    others are escaped. *)
Definition hex_digit (n : N) : ascii :=
  ascii_of_N (if (n <? 10)%N then n + 48 else n + 55)%N.

Definition unreserved (c : ascii) : bool :=
  let n := N_of_ascii c in
  (((48 <=? n) && (n <=? 57)) || ((65 <=? n) && (n <=? 90))
   || ((97 <=? n) && (n <=? 122)))%N
  || existsb (Ascii.eqb c) (list_ascii_of_string "-_.!~*'()").

Fixpoint encodeURIComponent (s : string) : string :=
  match s with
  | EmptyString => EmptyString
  | String c s' =>
      if unreserved c then String c (encodeURIComponent s')
      else
        let n := N_of_ascii c in
        String "%" (String (hex_digit (n / 16)) (String (hex_digit (n mod 16))
          (encodeURIComponent s')))
  end.

End Js.

(** ** Effects

    A handler reads the environment and the clock, calls the network, sleeps,
    and reads and writes the variables of its module.  All of it is explicit
    in a [world]; a computation takes a world and returns a value or a thrown
    error, and the world it leaves. *)

Module Rt.

Import Js.

(** An exception object: its [name] and its [message]. *)
Record error := { name : string; message : string }.

Definition Error (msg : string) : error := {| name := "Error"; message := msg |}.
Definition TypeError (msg : string) : error :=
  {| name := "TypeError"; message := msg |}.
Definition SyntaxError (msg : string) : error :=
  {| name := "SyntaxError"; message := msg |}.

(** [new Error(v || fallback)] *)
Definition message_or (v : value) (fallback : string) : error :=
  Error (if truthy v then ToString v else fallback).

(** [String(e)] *)
Definition error_string (e : error) : string :=
  match message e with
  | EmptyString => name e
  | msg => name e ++ ": " ++ msg
  end.

(** [process.env]: a variable is a string or is not set. *)
Record env := {
  FRED_KEY : option string;
  FMP_KEY : option string;
  TWELVE_KEY : option string
}.

(** The truthiness of a variable of the environment: set and not empty. *)
Definition present (o : option string) : option string :=
  match o with
  | Some ((String _ _) as k) => Some k
  | _ => None
  end.

(** What [fetch] resolves to: the status, the body as text, and the body as
    JSON when it is JSON. *)
Record response := { status : Z; text : string; json : option value }.

Definition ok (r : response) : bool := (200 <=? status r) && (status r <=? 299).

Inductive outcome :=
| Rejected (e : error)
| Responded (r : response).

(** One call of [fetch], as the network answers it, and the time it takes. *)
Record exchange := { elapsed : Z; answer : outcome }.

(** What a handler does that can be seen from outside: a function of the
    source is entered (the count of calls of a source is read off these), a
    request is sent, the handler sleeps, a line is written to the console. *)
Inductive event :=
| EvCall (fn : string)
| EvFetch (url : string)
| EvSleep (ms : Z)
| EvConsole (msg : string).

(** The world of one process: [net] is what the network will answer, call
    after call; [clock] is the time in milliseconds; [log] is what was done so
    far, oldest first; [globals] are the variables of the module. *)
Record world (G : Type) := {
  environ : env;
  net : list exchange;
  clock : Z;
  log : list event;
  globals : G
}.

Arguments environ {G} _.
Arguments net {G} _.
Arguments clock {G} _.
Arguments log {G} _.
Arguments globals {G} _.

Inductive result (A : Type) :=
| Ok (a : A)
| Throw (e : error).

Arguments Ok {A} _.
Arguments Throw {A} _.

Definition M (G A : Type) : Type := world G -> result A * world G.

(** [setTimeout(f, ms)] of Node: a delay that is not from 1 to
    [TIMEOUT_MAX], 2^31 - 1, is set to 1.  The timer is taken to fire when
    its delay is over. *)
Definition TIMEOUT_MAX : Z := 2147483647.

Definition timer (ms : Z) : Z :=
  if (1 <=? ms) && (ms <=? TIMEOUT_MAX) then ms else 1.

Section Monad.
Context {G : Type}.

Definition ret {A} (a : A) : M G A := fun w => (Ok a, w).

Definition throw {A} (e : error) : M G A := fun w => (Throw e, w).

Definition bind {A B} (m : M G A) (k : A -> M G B) : M G B :=
  fun w =>
    match m w with
    | (Ok a, w') => k a w'
    | (Throw e, w') => (Throw e, w')
    end.

(** [try { m } catch (e) { h e }] *)
Definition try_catch {A} (m : M G A) (h : error -> M G A) : M G A :=
  fun w =>
    match m w with
    | (Ok a, w') => (Ok a, w')
    | (Throw e, w') => h e w'
    end.

Definition emit (ev : event) : M G unit :=
  fun w =>
    (Ok tt, {| environ := environ w; net := net w; clock := clock w;
               log := log w ++ [ev]; globals := globals w |}).

(** A read of [process.env]. *)
Definition getenv {A} (var : env -> A) : M G A :=
  fun w => (Ok (var (environ w)), w).

(** [Date.now()] *)
Definition now : M G Z := fun w => (Ok (clock w), w).

Definition get_global : M G G := fun w => (Ok (globals w), w).

Definition set_global (g : G) : M G unit :=
  fun w =>
    (Ok tt, {| environ := environ w; net := net w; clock := clock w;
               log := log w; globals := g |}).

(** [await sleep(ms)], with [sleep = (ms) => new Promise((r) =>
    setTimeout(r, ms))]: the promise is settled when the timer of [ms]
    fires, [timer ms] milliseconds later. *)
Definition sleep (ms : Z) : M G unit :=
  fun w =>
    (Ok tt, {| environ := environ w; net := net w;
               clock := clock w + timer ms;
               log := log w ++ [EvSleep ms]; globals := globals w |}).

(** [await fetch(url)]: the next answer of the network; a network with
    nothing more to say fails the call. *)
Definition fetch (url : string) : M G response :=
  fun w =>
    match net w with
    | [] =>
        (Throw (TypeError "fetch failed"),
         {| environ := environ w; net := []; clock := clock w;
            log := log w ++ [EvFetch url]; globals := globals w |})
    | x :: rest =>
        let w' := {| environ := environ w; net := rest;
                     clock := clock w + elapsed x;
                     log := log w ++ [EvFetch url]; globals := globals w |} in
        match answer x with
        | Rejected e => (Throw e, w')
        | Responded r => (Ok r, w')
        end
    end.

(** [await res.json()] *)
Definition res_json (r : response) : M G value :=
  match json r with
  | Some v => ret v
  | None => throw (SyntaxError "Unexpected token in JSON")
  end.

(** [await res.text()] *)
Definition res_text (r : response) : M G string := ret (text r).

(** [console.error] and [console.warn] *)
Definition console (msg : string) : M G unit := emit (EvConsole msg).

(** The outcome of a part that has no other effect. *)
Definition lift {A} (r : result A) : M G A :=
  match r with
  | Ok a => ret a
  | Throw e => throw e
  end.
End Monad.

Declare Scope rt_scope.
Delimit Scope rt_scope with rt.

Notation "x <- m ;; k" := (bind m (fun x => k))
  (at level 61, m at next level, right associativity) : rt_scope.
Notation "m ;; k" := (bind m (fun _ => k))
  (at level 61, right associativity) : rt_scope.

(** The functions entered so far, in order, and the requests sent. *)
Definition calls (l : list event) : list string :=
  flat_map (fun ev => match ev with EvCall fn => [fn] | _ => [] end) l.

Definition fetches (l : list event) : list string :=
  flat_map (fun ev => match ev with EvFetch url => [url] | _ => [] end) l.

Definition sleeps (l : list event) : list Z :=
  flat_map (fun ev => match ev with EvSleep ms => [ms] | _ => [] end) l.

(** The answer of an HTTP handler: the status, the headers, and the body as
    the JSON value that the text of [JSON.stringify] denotes. *)
Record http := {
  statusCode : Z;
  headers : list (string * string);
  body : value
}.

(** Array methods whose callback may throw. *)
Fixpoint filter_try {A} (p : A -> option bool) (l : list A) : option (list A) :=
  match l with
  | [] => Some []
  | x :: r =>
      match p x with
      | None => None
      | Some b =>
          match filter_try p r with
          | None => None
          | Some r' => Some (if b then x :: r' else r')
          end
      end
  end.

(** [l.find((x, idx) => p x idx)] *)
Fixpoint find_from {A} (p : A -> Z -> bool) (idx : Z) (l : list A) : option A :=
  match l with
  | [] => None
  | x :: r => if p x idx then Some x else find_from p (idx + 1) r
  end.

Definition find {A} (p : A -> Z -> bool) (l : list A) : option A :=
  find_from p 0 l.

(** [l[i]] for an index counted from the start, [undefined] out of range. *)
Definition at_index {A} (l : list A) (i : Z) : option A :=
  if i <? 0 then None else nth_error l (Z.to_nat i).

Definition len {A} (l : list A) : Z := Z.of_nat (List.length l).

End Rt.

(** ** netlify/functions/vixIndex.js *)

Module VixIndex.

Import Num Js Rt.
Local Open Scope rt_scope.

(** A successful result of a source. *)
Record quote := {
  price : number;
  changePercent : option number;
  source : string
}.

(** The module variable [cached]. *)
Record cache := {
  cached_price : option number;
  cached_changePercent : option number;
  cached_source : string;
  cached_timestamp : Z
}.

Definition cached0 : cache :=
  {| cached_price := None; cached_changePercent := None;
     cached_source := ""; cached_timestamp := 0 |}.

Definition Vix (A : Type) : Type := M cache A.

(** [const FMP_KEY = process.env.FMP_KEY || ''], a constant of the module:
    it is evaluated once, when the module is loaded, and not at the calls
    of [fromFMP].  In a world of this module the [FMP_KEY] of the
    environment is the one the module was loaded with; the invocations of
    one process all run with it (see [serve]). *)
Definition FMP_KEY_or_empty (e : env) : string :=
  match present (FMP_KEY e) with
  | Some k => k
  | None => ""
  end.

(** *** The transport: [fetchJsonWithRetry], [fetchTextWithRetry]

    The two functions differ in how the body is read and in their name. *)

Section Retry.
Context {A : Type}.
Variable read : response -> Vix A.
Variable fname : string.

(** The body of the [try]: one request. *)
Definition request (url : string) : Vix A :=
  res <- fetch url ;;
  if negb (ok res)
  then throw (Error ("HTTP " ++ Str.of_Z (status res) ++ " " ++ url))
  else read res.

(** The loop [for (let i = 0; i < attempts; i++)], from index [i] with
    [fuel] iterations to go, and the statement after it. *)
Fixpoint retry (url : string) (attempts delay : Z) (fuel : nat) (i : Z)
         (lastErr : option error) : Vix A :=
  match fuel with
  | O =>
      throw (match lastErr with
             | Some e => e
             | None => Error (fname ++ ": unknown error")
             end)
  | S fuel' =>
      try_catch (request url)
        (fun e =>
           (if i <? attempts - 1 then sleep (delay * (i + 1)) else ret tt) ;;
           retry url attempts delay fuel' (i + 1) (Some e))
  end.
End Retry.

Definition fetchJsonWithRetry (url : string) (attempts delay : Z) : Vix value :=
  retry res_json "fetchJsonWithRetry" url attempts delay (Z.to_nat attempts) 0 None.

Definition fetchTextWithRetry (url : string) (attempts delay : Z) : Vix string :=
  retry res_text "fetchTextWithRetry" url attempts delay (Z.to_nat attempts) 0 None.

(** *** The sources *)

(** [(((a - b) / b) * 100)] *)
Definition percent (a b : number) : number :=
  mul (div (sub a b) b) (Num.of_Z 100).

(** An observation after [.map((o) => ({ date: o.date, val: Number(o.value) }))]. *)
Record observation := { date : value; val : number }.

(** The array [x] of [x.filter(...)]: calling [filter] on anything else is a
    TypeError. *)
Definition as_array (v : value) : option (list value) :=
  match v with
  | VArr l => Some l
  | _ => None
  end.

(** [o.value !== '.'], which throws when [o] is [null]. *)
Definition not_sentinel (o : value) : option bool :=
  match get o "value" with
  | Some v => Some (negb (is_string v "."))
  | None => None
  end.

(** [obs] of [fromFRED], from the parsed body. *)
Definition fred_obs (json : value) : result (list observation) :=
  match as_array (or_else (get_opt json "observations") (VArr [])) with
  | None => Throw (TypeError "(json?.observations || []).filter is not a function")
  | Some arr =>
      match filter_try not_sentinel arr with
      | None => Throw (TypeError "Cannot read properties of null (reading 'value')")
      | Some kept =>
          Ok (filter (fun o => isFinite (val o))
                (map (fun o => {| date := prop o "date";
                                  val := ToNumber (prop o "value") |}) kept))
      end
  end.

(** [change] of [fromFRED]. *)
Definition fred_change (latest : observation) (prev : option observation)
  : option number :=
  match prev with
  | Some p =>
      if negb (Num.eqb (val p) zero)
      then Some (round2 (percent (val latest) (val p)))
      else None
  | None => None
  end.

(** The part of [fromFRED] after the request. *)
Definition fred_quote (json : value) : result quote :=
  match fred_obs json with
  | Throw e => Throw e
  | Ok [] => Throw (Error "FRED VIXCLS: no numeric observations")
  | Ok ((latest :: _) as obs) =>
      let prev := find (fun _ idx => 0 <? idx) obs in
      Ok {| price := round2 (val latest);
            changePercent := fred_change latest prev;
            source := "FRED VIXCLS (daily close)" |}
  end.

Definition fred_url (key : string) : string :=
  "https://api.stlouisfed.org/fred/series/observations?series_id=VIXCLS&api_key="
    ++ key ++ "&file_type=json&sort_order=desc&limit=15".

Definition fromFRED : Vix quote :=
  emit (EvCall "fromFRED") ;;
  key <- getenv FRED_KEY ;;
  match present key with
  | None => throw (Error "FRED_KEY missing")
  | Some key =>
      json <- fetchJsonWithRetry (fred_url key) 3 300 ;;
      lift (fred_quote json)
  end.

Definition fmp_url (key : string) : string :=
  "https://financialmodelingprep.com/api/v3/quote/%5EVIX?apikey=" ++ key.

(** The part of [fromFMP] after the request. *)
Definition fmp_quote (arr : value) : result quote :=
  match arr with
  | VArr ((_ :: _) as items) =>
      let q := or_else (index items 0) (VObj []) in
      let price :=
        ToNumber (coalesce (prop q "price")
                 (coalesce (prop q "previousClose")
                 (coalesce (prop q "dayHigh") (prop q "dayLow")))) in
      let changePercent :=
        ToNumber (coalesce (prop q "changesPercentage")
                 (coalesce (prop q "changePercent") (prop q "change"))) in
      if negb (isFinite price) then Throw (Error "FMP: no usable price")
      else
        Ok {| price := round2 price;
              changePercent :=
                if isFinite changePercent then Some (round2 changePercent)
                else None;
              source := "FMP ^VIX" |}
  | _ => Throw (Error "FMP: empty response")
  end.

Definition fromFMP : Vix quote :=
  emit (EvCall "fromFMP") ;;
  key <- getenv FMP_KEY_or_empty ;;
  if negb (Str.nonempty key) then throw (Error "FMP_KEY missing")
  else
    arr <- fetchJsonWithRetry (fmp_url key) 2 400 ;;
    lift (fmp_quote arr).

(** The rows of a CSV body: [csv.split('\n').filter(Boolean)]. *)
Definition rows (csv : string) : list string :=
  filter Str.nonempty (Str.split "010" csv).

(** [Number(row[4])] *)
Definition close_of (row : list string) : number :=
  match at_index row 4 with
  | Some s => NumStr.StringToNumber s
  | None => NaN
  end.

Definition last_row (lines : list string) (back : Z) : list string :=
  match at_index lines (len lines - back) with
  | Some l => Str.split "," l
  | None => []
  end.

(** The part of [fromCBOE] after the request. *)
Definition cboe_quote (csv : string) : result quote :=
  let lines := rows (Str.trim csv) in
  if len lines <? 2 then Throw (Error "CBOE: no data rows")
  else
    let last := last_row lines 1 in
    if len last <? 5 then Throw (Error "CBOE: malformed row")
    else
      let close := close_of last in
      if negb (isFinite close) then Throw (Error "CBOE: bad close")
      else
        let change :=
          if 3 <=? len lines then
            let prev := last_row lines 2 in
            if 5 <=? len prev then
              let pClose := close_of prev in
              if isFinite pClose && negb (Num.eqb pClose zero)
              then Some (round2 (percent close pClose))
              else None
            else None
          else None in
        Ok {| price := round2 close; changePercent := change;
              source := "CBOE CSV" |}.

Definition fromCBOE : Vix quote :=
  emit (EvCall "fromCBOE") ;;
  csv <- fetchTextWithRetry
           "https://cdn.cboe.com/api/global/us_indices/daily_prices/VIX_History.csv"
           2 400 ;;
  lift (cboe_quote csv).

(** The part of [fromStooq] after the request. *)
Definition stooq_quote (csv : string) : result quote :=
  let trimmed := Str.trim csv in
  if negb (Str.nonempty trimmed) || String.eqb trimmed "NO DATA"
  then Throw (Error "Stooq: NO DATA")
  else
    let lines := rows trimmed in
    if len lines <? 2 then Throw (Error "Stooq: no rows")
    else
      let last := last_row lines 1 in
      if len last <? 5 then Throw (Error "Stooq: malformed row")
      else
        let close := close_of last in
        if negb (isFinite close) then Throw (Error "Stooq: bad close")
        else
          let change :=
            if 3 <=? len lines then
              let pClose := close_of (last_row lines 2) in
              if isFinite pClose && negb (Num.eqb pClose zero)
              then Some (round2 (percent close pClose))
              else None
            else None in
          Ok {| price := round2 close; changePercent := change;
                source := "Stooq CSV" |}.

Definition fromStooq : Vix quote :=
  emit (EvCall "fromStooq") ;;
  csv <- fetchTextWithRetry "https://stooq.com/q/d/l/?s=%5Evix&i=d" 2 400 ;;
  lift (stooq_quote csv).

(** *** The handler *)

Definition json_headers : list (string * string) :=
  [ ("Content-Type", "application/json");
    ("Access-Control-Allow-Origin", "*");
    ("Cache-Control", "no-store, must-revalidate") ].

Definition respond (code : Z) (payload : value) : http :=
  {| statusCode := code; headers := json_headers; body := stringify payload |}.

(** The entries of [tried].  The entry of a success is pushed and never
    read: the block that pushes it returns at once. *)
Definition tried_ok (src : string) : value :=
  VObj [ ("src", VStr src); ("ok", VBool true) ].

Definition tried_failed (src : string) (e : error) : value :=
  VObj [ ("src", VStr src); ("ok", VBool false); ("err", VStr (message e)) ].

(** [{ ...r, timestamp: new Date().toISOString() }] *)
Definition live_payload (r : quote) (t : Z) : value :=
  VObj [ ("price", VNum (price r));
         ("changePercent", of_nullable (changePercent r));
         ("source", VStr (source r));
         ("timestamp", VStr (toISOString t)) ].

(** [{ ...r, timestamp: Date.now() }] *)
Definition remember (r : quote) (t : Z) : cache :=
  {| cached_price := Some (price r);
     cached_changePercent := changePercent r;
     cached_source := source r;
     cached_timestamp := t |}.

Definition cached_payload (c : cache) (tried : list value) (t : Z) : value :=
  VObj [ ("price", of_nullable (cached_price c));
         ("changePercent", of_nullable (cached_changePercent c));
         ("source", VStr (cached_source c ++ " (cached)"));
         ("timestamp", VStr (toISOString t));
         ("_debug", VObj [ ("tried", VArr tried) ]) ].

Definition failure_payload (msg : string) (tried : list value) (t : Z) : value :=
  VObj [ ("error", VStr msg);
         ("_debug", VObj [ ("tried", VArr tried) ]);
         ("timestamp", VStr (toISOString t)) ].

(** One of the four inner [try] blocks: the answer of the handler when the
    source succeeds, [tried] with one more entry when it throws. *)
Definition block (src : string) (adapter : Vix quote) (tried : list value)
  : Vix (http + list value) :=
  try_catch
    (r <- adapter ;;
     t <- now ;;
     set_global (remember r t) ;;
     t' <- now ;;
     ret (inl (respond 200 (live_payload r t'))))
    (fun e => ret (inr (tried ++ [tried_failed src e])%list)).

(** The outer [catch], with [tried] as it is when the error is thrown. *)
Definition crash (tried : list value) (err : error) : Vix http :=
  t <- now ;;
  ret (respond 500
         (failure_payload
            (match message err with
             | EmptyString => "Unhandled error"
             | msg => msg
             end) tried t)).

(** Step 5 and the final [return]. *)
Definition last_resort (tried : list value) : Vix http :=
  t <- now ;;
  c <- get_global ;;
  let ageMs := t - cached_timestamp c in
  match cached_price c with
  | Some _ =>
      if ageMs <? 2 * 60 * 60 * 1000 then
        t' <- now ;;
        ret (respond 200 (cached_payload c tried t'))
      else
        t' <- now ;;
        ret (respond 500
               (failure_payload "All sources failed and no fresh cache" tried t'))
  | None =>
      t' <- now ;;
      ret (respond 500
             (failure_payload "All sources failed and no fresh cache" tried t'))
  end.

(** The handler over four sources; [exports.handler] is it over the four of
    the file. *)
Definition handler_of (a1 a2 a3 a4 : Vix quote) : Vix http :=
  try_catch
    (s1 <- block "FRED" a1 [] ;;
     match s1 with
     | inl answer => ret answer
     | inr tried =>
         try_catch
           (s2 <- block "FMP" a2 tried ;;
            match s2 with
            | inl answer => ret answer
            | inr tried =>
                try_catch
                  (s3 <- block "CBOE" a3 tried ;;
                   match s3 with
                   | inl answer => ret answer
                   | inr tried =>
                       try_catch
                         (s4 <- block "Stooq" a4 tried ;;
                          match s4 with
                          | inl answer => ret answer
                          | inr tried =>
                              try_catch (last_resort tried) (crash tried)
                          end)
                         (crash tried)
                   end)
                  (crash tried)
            end)
           (crash tried)
     end)
    (crash []).

Definition handler : Vix http := handler_of fromFRED fromFMP fromCBOE fromStooq.

(** The process: the module is loaded once, and the handler is invoked
    again and again, each time with what the environment, the network and
    the clock are then; [cached] is what the invocation before left. *)
Record situation := {
  sit_env : env;
  sit_net : list exchange;
  sit_clock : Z
}.

Definition enter (s : situation) (c : cache) : world cache :=
  {| environ := sit_env s; net := sit_net s; clock := sit_clock s;
     log := []; globals := c |}.

Definition invoke (s : situation) (c : cache) : result http * world cache :=
  handler (enter s c).

(** What an invocation finds in a process that loaded the module with the
    environment [loaded]: the constant [FMP_KEY] is what it was then,
    whatever [process.env] holds now; [FRED_KEY] is read from
    [process.env] at each call of [fromFRED]. *)
Definition at_load (loaded : env) (s : situation) : situation :=
  {| sit_env := {| FRED_KEY := FRED_KEY (sit_env s);
                   FMP_KEY := FMP_KEY loaded;
                   TWELVE_KEY := TWELVE_KEY (sit_env s) |};
     sit_net := sit_net s;
     sit_clock := sit_clock s |}.

Fixpoint serve (loaded : env) (ss : list situation) (c : cache)
  : list (result http) * cache :=
  match ss with
  | [] => ([], c)
  | s :: rest =>
      let '(r, w) := invoke (at_load loaded s) c in
      let '(rs, c') := serve loaded rest (globals w) in
      (r :: rs, c')
  end.

End VixIndex.

(** ** netlify/functions/dxy.js *)

Module Dxy.

Import Num Js Rt.
Local Open Scope rt_scope.

Definition url (key : string) : string :=
  "https://api.stlouisfed.org/fred/series/observations?"
    ++ "series_id=DTWEXBGS&api_key=" ++ key
    ++ "&file_type=json&sort_order=desc&limit=25".

Definition json_headers : list (string * string) :=
  [ ("Content-Type", "application/json");
    ("Access-Control-Allow-Origin", "*") ].

Definition respond (code : Z) (payload : value) : http :=
  {| statusCode := code; headers := json_headers; body := stringify payload |}.

(** [o.value !== '.'], which throws when [o] is [null]. *)
Definition not_sentinel (o : value) : option bool :=
  match get o "value" with
  | Some v => Some (negb (is_string v "."))
  | None => None
  end.

(** [obs], from the parsed body. *)
Definition observations (json : value) : result (list value) :=
  match get json "observations" with
  | None => Throw (TypeError "Cannot read properties of null (reading 'observations')")
  | Some o =>
      match or_else o (VArr []) with
      | VArr arr =>
          match filter_try not_sentinel arr with
          | Some obs => Ok obs
          | None => Throw (TypeError "Cannot read properties of null (reading 'value')")
          end
      | _ => Throw (TypeError "(json.observations || []).filter is not a function")
      end
  end.

(** [((latest - prior) / prior) * 100] *)
Definition change (latest prior : number) : number :=
  mul (div (sub latest prior) prior) (Num.of_Z 100).

(** The object given to [JSON.stringify] on success. *)
Definition payload (latest prior : number) (t : Z) : value :=
  VObj [ ("price", VNum (round2 latest));
         ("changePercent", VNum (round2 (change latest prior)));
         ("source", VStr "FRED DTWEXBGS");
         ("timestamp", VStr (toISOString t)) ].

(** The [try] block after the body is parsed. *)
Definition answer_of (json : value) (t : Z) : result http :=
  match observations json with
  | Throw e => Throw e
  | Ok obs =>
      match obs with
      | o0 :: o1 :: _ =>
          let latest := parseFloat (prop o0 "value") in
          let prior := parseFloat (prop o1 "value") in
          if negb (isFinite latest) || negb (isFinite prior)
          then Throw (Error "DXY NaN")
          else Ok (respond 200 (payload latest prior t))
      | _ => Throw (Error "Not enough DXY observations")
      end
  end.

(** The [try] block. *)
Definition attempt : M unit http :=
  key <- getenv FRED_KEY ;;
  match present key with
  | None => throw (Error "FRED_KEY missing")
  | Some key =>
      res <- fetch (url key) ;;
      if negb (ok res)
      then throw (Error ("FRED HTTP " ++ Str.of_Z (status res)))
      else
        json <- res_json res ;;
        t <- now ;;
        lift (answer_of json t)
  end.

(** The object given to [JSON.stringify] in the [catch] block. *)
Definition failure_payload (err : error) (t : Z) : value :=
  VObj [ ("error", VStr (message err));
         ("timestamp", VStr (toISOString t)) ].

Definition handler : M unit http :=
  try_catch attempt
    (fun err =>
       console ("dxy.js error: " ++ error_string err) ;;
       t <- now ;;
       ret (respond 500 (failure_payload err t))).

Definition enter (e : env) (n : list exchange) (t : Z) : world unit :=
  {| environ := e; net := n; clock := t; log := []; globals := tt |}.

End Dxy.

(** ** netlify/functions/gold.js *)

Module Gold.

Import Num Js Rt.
Local Open Scope rt_scope.

Record quote := {
  price : number;
  pct : option number;
  source : string
}.

(** [Number.isFinite(pct) ? pct : null] *)
Definition finite_or_null (x : number) : option number :=
  if isFinite x then Some x else None.

Definition td_url (key : string) : string :=
  "https://api.twelvedata.com/quote?symbol=" ++ encodeURIComponent "XAU/USD"
    ++ "&apikey=" ++ key.

(** The part of [tdGold] after the body is parsed. *)
Definition td_quote (json : value) : result quote :=
  match get json "status" with
  | None => Throw (TypeError "Cannot read properties of null (reading 'status')")
  | Some st =>
      if is_string st "error"
      then Throw (message_or (prop json "message") "TwelveData error")
      else
        let price := ToNumber (prop json "close") in
        let pct := ToNumber (prop json "percent_change") in
        if negb (isFinite price) then Throw (Error "TwelveData: bad price")
        else Ok {| price := price; pct := finite_or_null pct;
                   source := "TwelveData XAU/USD" |}
  end.

Definition tdGold : M unit quote :=
  emit (EvCall "tdGold") ;;
  key <- getenv TWELVE_KEY ;;
  match present key with
  | None => throw (Error "TWELVE_KEY missing")
  | Some key =>
      res <- fetch (td_url key) ;;
      if negb (ok res)
      then throw (Error ("TwelveData HTTP " ++ Str.of_Z (status res)))
      else
        json <- res_json res ;;
        lift (td_quote json)
  end.

Definition fmp_url (key : string) : string :=
  "https://financialmodelingprep.com/api/v3/quote/" ++ encodeURIComponent "GC=F"
    ++ "?apikey=" ++ key.

(** The part of [fmpGold] after the body is parsed. *)
Definition fmp_quote (json : value) : result quote :=
  match json with
  | VArr items =>
      let q := index items 0 in
      if negb (truthy q) then Throw (Error "FMP: bad payload")
      else
        let price := ToNumber (prop q "price") in
        let pct := ToNumber (prop q "changesPercentage") in
        if negb (isFinite price) then Throw (Error "FMP: bad price")
        else Ok {| price := price; pct := finite_or_null pct;
                   source := "FMP GC=F" |}
  | _ => Throw (Error "FMP: bad payload")
  end.

Definition fmpGold : M unit quote :=
  emit (EvCall "fmpGold") ;;
  key <- getenv FMP_KEY ;;
  match present key with
  | None => throw (Error "FMP_KEY missing")
  | Some key =>
      res <- fetch (fmp_url key) ;;
      if negb (ok res)
      then throw (Error ("FMP HTTP " ++ Str.of_Z (status res)))
      else
        json <- res_json res ;;
        lift (fmp_quote json)
  end.

Definition fred_url (seriesId key : string) : string :=
  "https://api.stlouisfed.org/fred/series/observations?series_id=" ++ seriesId
    ++ "&api_key=" ++ key ++ "&file_type=json".

(** An observation after [.map(o => ({ date: o.date, value: Number(o.value) }))]. *)
Record observation := { date : value; value_of : number }.

(** The callback of [obs.filter]. *)
Definition usable (o : value) : bool :=
  truthy o
  && negb (is_string (prop o "value") ".")
  && negb (nullish (prop o "value"))
  && negb (isNaN (ToNumber (prop o "value"))).

(** [clean], from the parsed body. *)
Definition clean_of (json : value) : result (list observation) :=
  match get json "observations" with
  | None => Throw (TypeError "Cannot read properties of null (reading 'observations')")
  | Some o =>
      let obs := match o with VArr l => l | _ => [] end in
      Ok (map (fun o => {| date := prop o "date";
                           value_of := ToNumber (prop o "value") |})
              (filter usable obs))
  end.

(** [pct] of [fredLatestPair], from [price] and [clean[clean.length - 2]]. *)
Definition pair_pct (price : number) (prior : option observation)
  : option number :=
  match prior with
  | Some p =>
      if isFinite (value_of p) && negb (Num.eqb (value_of p) zero)
      then Some (round2 (mul (div (sub price (value_of p)) (value_of p))
                             (Num.of_Z 100)))
      else None
  | None => None
  end.

(** The part of [fredLatestPair] after the body is parsed. *)
Definition pair_quote (seriesId : string) (json : value) : result quote :=
  match clean_of json with
  | Throw e => Throw e
  | Ok clean =>
      match at_index clean (len clean - 1) with
      | None => Throw (Error ("FRED " ++ seriesId ++ ": no observations"))
      | Some latest =>
          let prior := at_index clean (len clean - 2) in
          Ok {| price := value_of latest;
                pct := pair_pct (value_of latest) prior;
                source := "FRED " ++ seriesId |}
      end
  end.

Definition fredLatestPair (seriesId : string) : M unit quote :=
  emit (EvCall ("fredLatestPair(" ++ seriesId ++ ")")) ;;
  key <- getenv FRED_KEY ;;
  match present key with
  | None => throw (Error "FRED_KEY missing")
  | Some key =>
      res <- fetch (fred_url seriesId key) ;;
      if negb (ok res) then
        body <- res_text res ;;
        throw (Error ("FRED HTTP " ++ Str.of_Z (status res) ++ " (" ++ seriesId
                        ++ ")" ++ (if Str.nonempty body then " - " ++ body else "")))
      else
        json <- res_json res ;;
        lift (pair_quote seriesId json)
  end.

Definition json_headers : list (string * string) :=
  [ ("Content-Type", "application/json");
    ("Access-Control-Allow-Origin", "*") ].

Definition respond (code : Z) (payload : value) : http :=
  {| statusCode := code; headers := json_headers; body := stringify payload |}.

Definition success_payload (q : quote) (t : Z) : value :=
  VObj [ ("price", VNum (price q));
         ("pct", of_nullable (pct q));
         ("source", VStr (source q));
         ("timestamp", VStr (toISOString t)) ].

Definition failure_payload (tried : list string) (t : Z) : value :=
  VObj [ ("error", VStr "All gold sources failed");
         ("_debug", VObj [ ("tried", VArr (map VStr tried)) ]);
         ("timestamp", VStr (toISOString t)) ].

(** [e.message || String(e)] *)
Definition describe (e : error) : string :=
  match message e with
  | EmptyString => error_string e
  | msg => msg
  end.

(** The loop [for (const fn of attempts)] and the [return] after it. *)
Fixpoint try_each (fns : list (M unit quote)) (tried : list string)
  : M unit http :=
  match fns with
  | [] =>
      t <- now ;;
      ret (respond 200 (failure_payload tried t))
  | fn :: rest =>
      s <- try_catch
             (q <- fn ;;
              t <- now ;;
              ret (inl (respond 200 (success_payload q t))))
             (fun e => ret (inr (tried ++ [describe e])%list)) ;;
      match s with
      | inl answer => ret answer
      | inr tried' => try_each rest tried'
      end
  end.

Definition attempts : list (M unit quote) :=
  [ tdGold; fmpGold;
    fredLatestPair "GOLDPMGBD228NLBM";
    fredLatestPair "GOLDAMGBD228NLBM" ].

Definition handler : M unit http := try_each attempts [].

Definition enter (e : env) (n : list exchange) (t : Z) : world unit :=
  {| environ := e; net := n; clock := t; log := []; globals := tt |}.

End Gold.

(** ** netlify/functions/fetchAllData.js *)

Module FetchAllData.

Import Num Js Rt.
Local Open Scope rt_scope.

(** [`${v}`] for a variable of the environment. *)
Definition interpolate (o : option string) : string :=
  match o with
  | Some k => k
  | None => "undefined"
  end.

(** What [fetchTwelve] and [fetchFMP] return. *)
Record quote := { price : number; pct : number }.

(** What [fredLatestPair] returns. *)
Record pair := { pair_price : number; pair_pct : option number }.

Definition twelve_url (symbol : string) (key : option string) : string :=
  "https://api.twelvedata.com/quote?symbol=" ++ encodeURIComponent symbol
    ++ "&apikey=" ++ interpolate key.

(** The part of [fetchTwelve] after the body is parsed. *)
Definition twelve_quote (json : value) : result quote :=
  match get json "status" with
  | None => Throw (TypeError "Cannot read properties of null (reading 'status')")
  | Some st =>
      if is_string st "error"
      then Throw (message_or (prop json "message") "TwelveData error")
      else Ok {| price := ToNumber (prop json "close");
                 pct := ToNumber (prop json "percent_change") |}
  end.

Definition fetchTwelve (symbol : string) : M unit quote :=
  emit (EvCall "fetchTwelve") ;;
  key <- getenv TWELVE_KEY ;;
  res <- fetch (twelve_url symbol key) ;;
  if negb (ok res) then throw (Error ("HTTP " ++ Str.of_Z (status res)))
  else
    json <- res_json res ;;
    lift (twelve_quote json).

Definition fmp_url (symbol key : string) : string :=
  "https://financialmodelingprep.com/api/v3/quote/" ++ encodeURIComponent symbol
    ++ "?apikey=" ++ key.

(** The part of [fetchFMP] after the body is parsed. *)
Definition fmp_quote (json : value) : result quote :=
  match json with
  | VArr items =>
      let q := index items 0 in
      if negb (truthy q) then Throw (Error "Bad FMP data")
      else Ok {| price := ToNumber (prop q "price");
                 pct := ToNumber (prop q "changesPercentage") |}
  | _ => Throw (Error "Bad FMP data")
  end.

Definition fetchFMP (symbol : string) : M unit quote :=
  emit (EvCall "fetchFMP") ;;
  key <- getenv FMP_KEY ;;
  match present key with
  | None => throw (Error "FMP_KEY missing")
  | Some key =>
      res <- fetch (fmp_url symbol key) ;;
      if negb (ok res) then throw (Error ("HTTP " ++ Str.of_Z (status res)))
      else
        json <- res_json res ;;
        lift (fmp_quote json)
  end.

(** [{ error: e.message || String(e) }] *)
Definition error_object (e : error) : value :=
  VObj [ ("error", VStr (match message e with
                         | EmptyString => error_string e
                         | msg => msg
                         end)) ].

Definition quote_object (q : quote) : value :=
  VObj [ ("price", VNum (price q)); ("pct", VNum (pct q)) ].

Definition tdWithFmpFallback (symbol : string) : M unit value :=
  try_catch
    (q <- fetchTwelve symbol ;; ret (quote_object q))
    (fun _e =>
       try_catch
         (key <- getenv FMP_KEY ;;
          match present key with
          | Some _ => q <- fetchFMP symbol ;; ret (quote_object q)
          | None => throw _e
          end)
         (fun e2 => ret (error_object e2))).

Definition fred_url (series_id key : string) : string :=
  "https://api.stlouisfed.org/fred/series/observations?series_id=" ++ series_id
    ++ "&api_key=" ++ key ++ "&file_type=json".

Record observation := { date : value; value_of : number }.

(** The callback of [arr.filter]. *)
Definition usable (o : value) : bool :=
  truthy o
  && negb (is_string (prop o "value") ".")
  && negb (nullish (prop o "value"))
  && negb (isNaN (ToNumber (prop o "value"))).

(** [clean], from the parsed body. *)
Definition clean_of (json : value) : result (list observation) :=
  match get json "observations" with
  | None => Throw (TypeError "Cannot read properties of null (reading 'observations')")
  | Some o =>
      let arr := match o with VArr l => l | _ => [] end in
      Ok (map (fun o => {| date := prop o "date";
                           value_of := ToNumber (prop o "value") |})
              (filter usable arr))
  end.

(** [pct] of [fredLatestPair]: [prior && prior.value] is the guard. *)
Definition pct_of (price : number) (prior : option observation) : option number :=
  match prior with
  | Some p =>
      if truthy (VNum (value_of p))
      then Some (round2 (mul (div (sub price (value_of p)) (value_of p))
                             (Num.of_Z 100)))
      else None
  | None => None
  end.

(** The part of [fredLatestPair] after the body is parsed. *)
Definition pair_of (series_id : string) (json : value) : result pair :=
  match clean_of json with
  | Throw e => Throw e
  | Ok clean =>
      let n := len clean in
      match at_index clean (n - 1) with
      | None => Throw (Error ("No observations (" ++ series_id ++ ")"))
      | Some latest =>
          let prior := at_index clean (n - 2) in
          Ok {| pair_price := value_of latest;
                pair_pct := pct_of (value_of latest) prior |}
      end
  end.

Definition fredLatestPair (series_id : string) : M unit pair :=
  emit (EvCall ("fredLatestPair(" ++ series_id ++ ")")) ;;
  key <- getenv FRED_KEY ;;
  match present key with
  | None => throw (Error "FRED_KEY missing")
  | Some key =>
      res <- fetch (fred_url series_id key) ;;
      if negb (ok res) then
        body <- res_text res ;;
        throw (Error ("FRED HTTP " ++ Str.of_Z (status res) ++ " (" ++ series_id
                        ++ ")" ++ (if Str.nonempty body then " - " ++ body else "")))
      else
        json <- res_json res ;;
        lift (pair_of series_id json)
  end.

Definition pair_object (p : pair) : value :=
  VObj [ ("price", VNum (pair_price p)); ("pct", of_nullable (pair_pct p)) ].

(** [v[k]] with no check before it and outside any [try]: on [undefined]
    and on [null] it throws the TypeError of the runtime. *)
Definition member (v : value) (k : string) : result value :=
  match get v k with
  | Some x => Ok x
  | None =>
      Throw (TypeError ("Cannot read properties of " ++ ToString v
                          ++ " (reading '" ++ k ++ "')"))
  end.

(** One of the calls of a sibling function over HTTP. *)
Definition internal (url : string) : M unit value :=
  try_catch
    (r <- fetch url ;;
     if negb (ok r) then throw (Error ("HTTP " ++ Str.of_Z (status r)))
     else res_json r)
    (fun err => ret (VObj [ ("error", VStr (message err)) ])).

(** One of the two series read from FRED. *)
Definition direct (series_id : string) : M unit value :=
  try_catch
    (p <- fredLatestPair series_id ;; ret (pair_object p))
    (fun err => ret (VObj [ ("error", VStr (message err)) ])).

(** The handler, given the request [event], any value: the first lines read
    [event.headers['x-forwarded-proto']] and [event.headers.host], so an
    [event] that has no [headers] makes the handler throw before it sends
    anything. *)
Definition handler (event : value) : M unit http :=
  bust <- now ;;
  hs <- lift (member event "headers") ;;
  proto <- lift (member hs "x-forwarded-proto") ;;
  let protocol := or_else proto (VStr "https") in
  host <- lift (member hs "host") ;;
  let base := ToString protocol ++ "://" ++ ToString host in
  spy <- tdWithFmpFallback "SPY" ;;
  tsla <- tdWithFmpFallback "TSLA" ;;
  lit <- tdWithFmpFallback "LIT" ;;
  yieldCurve <- internal (base ++ "/.netlify/functions/yieldSpread?bust="
                               ++ Str.of_Z bust) ;;
  buffett <- internal (base ++ "/.netlify/functions/buffett?bust="
                            ++ Str.of_Z bust) ;;
  gold <- direct "GOLDPMGBD228NLBM" ;;
  dxy <- direct "DTWEXBGS" ;;
  ret {| statusCode := 200;
         headers := [ ("Content-Type", "application/json");
                      ("Access-Control-Allow-Origin", "*") ];
         body := stringify
                   (VObj [ ("spy", spy); ("tsla", tsla); ("lit", lit);
                           ("yieldCurve", yieldCurve); ("buffett", buffett);
                           ("gold", gold); ("dxy", dxy) ]) |}.

Definition enter (e : env) (n : list exchange) (t : Z) : world unit :=
  {| environ := e; net := n; clock := t; log := []; globals := tt |}.

End FetchAllData.

(** ** Notions the statements use *)

Module Chain.

Import Rt.

Section Runs.
Context {G A : Type}.

(** The sources of [fns] are run in order from [w]: the first [i] throw
    [errs], the next one returns [a] and leaves [w']. *)
Inductive first_success
  : list (M G A) -> world G -> nat -> A -> list error -> world G -> Prop :=
| fs_here fn rest w a w' :
    fn w = (Ok a, w') ->
    first_success (fn :: rest) w 0 a [] w'
| fs_later fn rest w e w1 i a errs w' :
    fn w = (Throw e, w1) ->
    first_success rest w1 i a errs w' ->
    first_success (fn :: rest) w (S i) a (e :: errs) w'.

(** All the sources of [fns], run in order from [w], throw: [errs] are
    their errors and [w'] is the world the last one leaves. *)
Inductive all_fail : list (M G A) -> world G -> list error -> world G -> Prop :=
| af_nil w : all_fail [] w [] w
| af_cons fn rest w e w1 errs w' :
    fn w = (Throw e, w1) ->
    all_fail rest w1 errs w' ->
    all_fail (fn :: rest) w (e :: errs) w'.
End Runs.

(** The world with another value of the module variables. *)
Definition with_globals {G} (w : world G) (g : G) : world G :=
  {| environ := environ w; net := net w; clock := clock w; log := log w;
     globals := g |}.

(** What one request comes to, from the answer of the network: the
    error of a rejected call, an error for a status outside 200..299, what
    reading the body gives otherwise. *)
Definition judge {A} (read : response -> result A) (url : string)
           (x : option exchange) : result A :=
  match x with
  | None => Throw (TypeError "fetch failed")
  | Some x =>
      match answer x with
      | Rejected e => Throw e
      | Responded r =>
          if ok r then read r
          else Throw (Error ("HTTP " ++ Str.of_Z (status r) ++ " " ++ url))
      end
  end.

Definition json_body (r : response) : result Js.value :=
  match json r with
  | Some v => Ok v
  | None => Throw (SyntaxError "Unexpected token in JSON")
  end.

Definition text_body (r : response) : result string := Ok (text r).

Definition thrown {A} (r : result A) : Prop :=
  match r with
  | Throw _ => True
  | Ok _ => False
  end.

(** The events of [k] requests of [url] with linear backoff, the first of
    them being attempt number [i]: after attempt [i] that is not the last, a
    sleep of [delay * i]. *)
Fixpoint backoff (url : string) (delay : Z) (i : Z) (k : nat) : list event :=
  match k with
  | O => []
  | S O => [EvFetch url]
  | S k' => EvFetch url :: EvSleep (delay * i) :: backoff url delay (i + 1) k'
  end.

(** The world after one call of [fetch]. *)
Definition fetched {G} (url : string) (w : world G) : world G :=
  {| environ := environ w; net := tl (net w);
     clock := clock w + match net w with x :: _ => elapsed x | [] => 0 end;
     log := log w ++ [EvFetch url]; globals := globals w |}.

Section Frames.
Context {G A : Type}.

(** [m] enters no function and leaves the module variables and the
    environment as they are. *)
Definition quiet (m : M G A) : Prop :=
  forall w r w', m w = (r, w') ->
    globals w' = globals w /\ environ w' = environ w
    /\ calls (log w') = calls (log w).

(** [m] enters the function [fn], and no other. *)
Definition announces (fn : string) (m : M G A) : Prop :=
  forall w r w', m w = (r, w') ->
    globals w' = globals w /\ environ w' = environ w
    /\ calls (log w') = (calls (log w) ++ [fn])%list.
End Frames.

(** The sources of the two chains and the names they are entered by. *)
Definition vix_sources : list (VixIndex.Vix VixIndex.quote) :=
  [ VixIndex.fromFRED; VixIndex.fromFMP; VixIndex.fromCBOE; VixIndex.fromStooq ].

Definition vix_names : list string :=
  [ "fromFRED"; "fromFMP"; "fromCBOE"; "fromStooq" ].

Definition vix_labels : list string := [ "FRED"; "FMP"; "CBOE"; "Stooq" ].

Definition vix_source_labels : list string :=
  [ "FRED VIXCLS (daily close)"; "FMP ^VIX"; "CBOE CSV"; "Stooq CSV" ].

Definition gold_names : list string :=
  [ "tdGold"; "fmpGold"; "fredLatestPair(GOLDPMGBD228NLBM)";
    "fredLatestPair(GOLDAMGBD228NLBM)" ].

(** The entries of [tried] after the sources labelled [labels] threw [errs]. *)
Fixpoint failures (labels : list string) (errs : list error) : list Js.value :=
  match labels, errs with
  | l :: ls, e :: es => VixIndex.tried_failed l e :: failures ls es
  | _, _ => []
  end.

(** The freshness window of vixIndex.js. *)
Definition window : Z := 2 * 60 * 60 * 1000.

(** The shape [{ error, _debug: { tried } }] of a body. *)
Definition has_error_and_tried (b : Js.value) : Prop :=
  (exists msg, Js.prop b "error" = Js.VStr msg)
  /\ (exists tried, Js.prop (Js.prop b "_debug") "tried" = Js.VArr tried).

(** The neutral payload [{ price: 0, pct: null, ... }] of a body. *)
Definition neutral_payload (b : Js.value) : Prop :=
  Js.prop b "price" = Js.VNum Num.zero /\ Js.prop b "pct" = Js.VNull.

(** An invocation of the handler of vixIndex.js in which a source
    succeeded. *)
Definition succeeded (s : VixIndex.situation) (c : VixIndex.cache) : Prop :=
  exists i q errs w1, first_success vix_sources (VixIndex.enter s c) i q errs w1.

(** An answer whose [source] ends in [" (cached)"]. *)
Definition is_cached_answer (a : http) : Prop :=
  exists s, Js.prop (body a) "source" = Js.VStr s
            /\ Str.endsWith s " (cached)" = true.

(** The previous close that fromCBOE and fromStooq read. *)
Definition previous_close (csv : string) : Num.number :=
  VixIndex.close_of (VixIndex.last_row (VixIndex.rows (Str.trim csv)) 2).

Definition last_close (csv : string) : Num.number :=
  VixIndex.close_of (VixIndex.last_row (VixIndex.rows (Str.trim csv)) 1).

(** The reading of a CSV body in the words of the specification: the rows
    whose close is not a finite number are filtered out first, and the price
    and the change come from the last two rows that remain (the rows of the
    file are in the order of their dates). *)
Definition filter_first_csv (csv : string) : option (Num.number * option Num.number) :=
  let valid :=
    filter (fun row => Num.isFinite (VixIndex.close_of (Str.split "," row)))
           (VixIndex.rows (Str.trim csv)) in
  match List.rev valid with
  | [] => None
  | latest :: older =>
      let close := VixIndex.close_of (Str.split "," latest) in
      Some (Js.round2 close,
            match older with
            | prev :: _ =>
                let pClose := VixIndex.close_of (Str.split "," prev) in
                if Num.eqb pClose Num.zero then None
                else Some (Js.round2 (VixIndex.percent close pClose))
            | [] => None
            end)
  end.

(** The [value] fields of the observations of a payload, in its order. *)
Definition values_of (arr : list Js.value) : list Js.value :=
  map (fun o => Js.prop o "value") arr.

(** What [fromFRED] keeps of them: not the sentinel, and finite as
    numbers. *)
Definition fred_values (arr : list Js.value) : list Num.number :=
  filter Num.isFinite
    (map Js.ToNumber (filter (fun v => negb (Js.is_string v ".")) (values_of arr))).

(** The quote of [fromFRED] from the numbers that remain: the first is the
    price, the first two give the change. *)
Definition first_two_quote (vals : list Num.number) : result VixIndex.quote :=
  match vals with
  | [] => Throw (Error "FRED VIXCLS: no numeric observations")
  | a :: rest =>
      Ok {| VixIndex.price := Js.round2 a;
            VixIndex.changePercent :=
              match rest with
              | b :: _ =>
                  if negb (Num.eqb b Num.zero)
                  then Some (Js.round2 (VixIndex.percent a b))
                  else None
              | [] => None
              end;
            VixIndex.source := "FRED VIXCLS (daily close)" |}
  end.

(** What [fredLatestPair] of gold.js keeps of the [value] fields. *)
Definition gold_keep (v : Js.value) : bool :=
  negb (Js.is_string v ".") && negb (Js.nullish v) && negb (Num.isNaN (Js.ToNumber v)).

Definition gold_values (arr : list Js.value) : list Num.number :=
  map Js.ToNumber (filter gold_keep (values_of arr)).

(** The quote of [fredLatestPair] from the numbers that remain: the last is
    the price, the last two give the change. *)
Definition last_two_quote (sid : string) (vals : list Num.number) : result Gold.quote :=
  match List.rev vals with
  | [] => Throw (Error ("FRED " ++ sid ++ ": no observations"))
  | a :: older =>
      Ok {| Gold.price := a;
            Gold.pct :=
              match older with
              | b :: _ =>
                  if Num.isFinite b && negb (Num.eqb b Num.zero)
                  then Some (Js.round2 (Num.mul (Num.div (Num.sub a b) b) (Num.of_Z 100)))
                  else None
              | [] => None
              end;
            Gold.source := "FRED " ++ sid |}
  end.

(** A string of decimal digits, and the integer it writes after [acc]. *)
Fixpoint all_digits (s : string) : bool :=
  match s with
  | EmptyString => true
  | String c s' =>
      match NumStr.digit_val c with
      | Some _ => all_digits s'
      | None => false
      end
  end.

Fixpoint horner (s : string) (acc : N) : N :=
  match s with
  | EmptyString => acc
  | String c s' =>
      match NumStr.digit_val c with
      | Some d => horner s' (10 * acc + d)%N
      | None => acc
      end
  end.

(** The integer nearest to a hundred times [m * 2^e], the larger of two. *)
Definition hundredths (m : positive) (e : Z) : Z :=
  let '(num, den) := Num.magnitude m e in
  (2 * num * Z.pow 10 2 + den) / (2 * den).

(** The digits that [toFixed] lays out: at least [f + 1] of them, writing
    [n]. *)
Definition padded (n : Z) (f : nat) : string :=
  let d := Str.of_Z n in
  if (String.length d <=? f)%nat
  then Str.zeros (f + 1 - String.length d) ++ d
  else d.

(** A string with no white space. *)
Fixpoint no_space (s : string) : bool :=
  match s with
  | EmptyString => true
  | String c s' => negb (Str.is_space c) && no_space s'
  end.

(** [cached] when the invocation number [k] of the process starts. *)
Definition cache_before (loaded : env) (ss : list VixIndex.situation) (k : nat)
  : VixIndex.cache :=
  snd (VixIndex.serve loaded (firstn k ss) VixIndex.cached0).

End Chain.

(** ** Worlds the statements are tried on *)

Module Examples.

Import Js Rt.

Definition env_none : env :=
  {| FRED_KEY := None; FMP_KEY := None; TWELVE_KEY := None |}.

Definition env_fmp : env :=
  {| FRED_KEY := None; FMP_KEY := Some "k"; TWELVE_KEY := None |}.

Definition env_fred : env :=
  {| FRED_KEY := Some "k"; FMP_KEY := None; TWELVE_KEY := None |}.

Definition env_twelve : env :=
  {| FRED_KEY := None; FMP_KEY := None; TWELVE_KEY := Some "k" |}.

Definition answer_json (v : value) : exchange :=
  {| elapsed := 40;
     answer := Responded {| status := 200; text := ""; json := Some v |} |}.

Definition answer_text (s : string) : exchange :=
  {| elapsed := 40;
     answer := Responded {| status := 200; text := s; json := None |} |}.

Definition answer_status (code : Z) : exchange :=
  {| elapsed := 40;
     answer := Responded {| status := code; text := ""; json := None |} |}.

Definition reading (d v : string) : value :=
  VObj [ ("date", VStr d); ("value", VStr v) ].

Definition fmp_body : value :=
  VArr [ VObj [ ("price", VNum (Num.of_Z 14)); ("changesPercentage", VStr "1.239") ] ].

Definition world_fmp : world VixIndex.cache :=
  VixIndex.enter {| VixIndex.sit_env := env_fmp;
                    VixIndex.sit_net := [answer_json fmp_body];
                    VixIndex.sit_clock := 1700000000000 |} VixIndex.cached0.

Definition world_cold : world VixIndex.cache :=
  VixIndex.enter {| VixIndex.sit_env := env_none; VixIndex.sit_net := [];
                    VixIndex.sit_clock := 1700000000000 |} VixIndex.cached0.

Import VixIndex.

Definition world_retry : world cache :=
  enter {| sit_env := env_none;
           sit_net := [answer_status 503; answer_json (VNum (Num.of_Z 1))];
           sit_clock := 0 |} cached0.

(** A payload of FRED with the observations [25.00] and [20.00], newest
    first, after a missing one. *)
Definition observations_25_20 : list value :=
  [ reading "2024-01-05" "."; reading "2024-01-04" "25.00";
    reading "2024-01-03" "20.00" ].

Definition fred_25_20 : value := VObj [ ("observations", VArr observations_25_20) ].

(** The same observations, oldest first. *)
Definition fred_20_25 : value :=
  VObj [ ("observations",
          VArr [ reading "2024-01-03" "20.00"; reading "2024-01-04" "25.00";
                 reading "2024-01-05" "." ]) ].

(** A payload of FRED whose previous observation is zero. *)
Definition dxy_zero_body : value :=
  VObj [ ("observations",
          VArr [ reading "2024-01-04" "102.5";
                 reading "2024-01-03" "0" ]) ].

(** Three days of a CSV history, the close of the second one missing. *)
Definition csv_gap : string :=
  "DATE,OPEN,HIGH,LOW,CLOSE" ++ String "010" "" ++
  "01/02/2024,9.10,10.40,9.00,10.00" ++ String "010" "" ++
  "01/03/2024,10.10,10.90,9.80,." ++ String "010" "" ++
  "01/04/2024,11.00,12.30,10.70,12.00" ++ String "010" "".

(** A CSV history whose last row has no close. *)
Definition csv_no_last_close : string :=
  "DATE,OPEN,HIGH,LOW,CLOSE" ++ String "010" "" ++
  "01/02/2024,9.10,10.40,9.00,10.00" ++ String "010" "" ++
  "01/03/2024,10.10,10.90,9.80,." ++ String "010" "".

(** What TwelveData answers when it has no price to give. *)
Definition twelve_no_price : value :=
  VObj [ ("symbol", VStr "SPY"); ("close", VStr "n/a") ].

Definition twelve_null_price : value :=
  VObj [ ("symbol", VStr "XAU/USD"); ("close", VNull) ].

(** TwelveData answers the handler of gold.js. *)
Definition twelve_gold : value :=
  VObj [ ("symbol", VStr "XAU/USD"); ("close", VStr "2650.50");
         ("percent_change", VStr "0.42") ].

Definition world_gold : world unit :=
  Gold.enter env_twelve [answer_json twelve_gold] 1700000000000.

(** The request of a site, as the function receives it. *)
Definition event_netlify : value :=
  VObj [ ("path", VStr "/.netlify/functions/fetchAllData");
         ("httpMethod", VStr "GET");
         ("headers", VObj [ ("host", VStr "site.netlify.app");
                            ("x-forwarded-proto", VStr "https") ]) ].

(** The quote that [fromFMP] makes of [fmp_body], and the one that [tdGold]
    makes of [twelve_gold]. *)
Definition fmp_quote_14 : quote :=
  {| price := Num.of_Z 14;
     changePercent := Some (NumStr.parseFloat "1.24");
     source := "FMP ^VIX" |}.

Definition gold_quote_2650 : Gold.quote :=
  {| Gold.price := NumStr.parseFloat "2650.50";
     Gold.pct := Some (NumStr.parseFloat "0.42");
     Gold.source := "TwelveData XAU/USD" |}.

(** The handler finds a cache written ten minutes ago, and no source
    answers. *)
Definition cache_warm : cache :=
  {| cached_price := Some (Num.of_Z 14); cached_changePercent := None;
     cached_source := "FMP ^VIX"; cached_timestamp := 1700000000000 |}.

Definition world_warm : world cache :=
  enter {| sit_env := env_none; sit_net := []; sit_clock := 1700000600000 |}
        cache_warm.

(** A process that starts cold, loaded with a key for FMP and no other: the
    network is down at the first invocation, FMP answers the second, the
    network is down again at the third, ten minutes later. *)
Definition process_run : list situation :=
  [ {| sit_env := env_fmp; sit_net := []; sit_clock := 1700000000000 |};
    {| sit_env := env_fmp; sit_net := [answer_json fmp_body];
       sit_clock := 1700000100000 |};
    {| sit_env := env_fmp; sit_net := []; sit_clock := 1700000700000 |} ].

End Examples.

(** ** netlify/functions/yieldSpread.js

    The handler awaits its two requests together ([Promise.all]): both are
    sent before either answer is handled.  A request that is sent and not
    yet awaited is a [pending]: the answer of the network and the time at
    which it arrives. *)

Module YieldSpread.

Import Num Js Rt.
Local Open Scope rt_scope.

(** The statement at the top of the module, run when it is loaded. *)
Definition load : M unit unit :=
  key <- getenv FRED_KEY ;;
  match present key with
  | None => console "FRED_KEY not set in environment"
  | Some _ => ret tt
  end.

Definition url (series_id : string) (key : option string) : string :=
  "https://api.stlouisfed.org/fred/series/observations?series_id=" ++ series_id
    ++ "&api_key=" ++ FetchAllData.interpolate key
    ++ "&file_type=json&sort_order=desc&limit=10".

Record pending := { settles : Z; arrives : outcome }.

(** [fetch(url)] without the [await]: the request goes out, the clock does
    not move. *)
Definition send (url : string) : M unit pending :=
  fun w =>
    match net w with
    | [] =>
        (Ok {| settles := clock w; arrives := Rejected (TypeError "fetch failed") |},
         {| environ := environ w; net := []; clock := clock w;
            log := log w ++ [EvFetch url]; globals := globals w |})
    | x :: rest =>
        (Ok {| settles := clock w + elapsed x; arrives := answer x |},
         {| environ := environ w; net := rest; clock := clock w;
            log := log w ++ [EvFetch url]; globals := globals w |})
    end.

(** The [await] of something that settles at [t]. *)
Definition wait_until (t : Z) : M unit unit :=
  fun w =>
    (Ok tt, {| environ := environ w; net := net w; clock := Z.max (clock w) t;
               log := log w; globals := globals w |}).

(** [v <= s] for a string [s]: two strings are compared as strings, an
    array or an object by its string, anything else as a number with the
    number of [s]. *)
Definition le_string (v : value) (s : string) : bool :=
  match v with
  | VStr p => String.leb p s
  | VArr _ | VObj _ => String.leb (ToString v) s
  | _ => Num.leb (ToNumber v) (NumStr.StringToNumber s)
  end.

(** The callback of [find]: [o.value !== '.' && o.date <= todayStr], which
    throws when [o] is [null]. *)
Definition acceptable (todayStr : string) (o : value) : option bool :=
  match get o "value" with
  | Some v => Some (negb (is_string v ".") && le_string (prop o "date") todayStr)
  | None => None
  end.

(** [l.find(p)] for a callback that may throw: [None] when it throws. *)
Fixpoint find_try {A} (p : A -> option bool) (l : list A) : option (option A) :=
  match l with
  | [] => Some None
  | x :: r =>
      match p x with
      | None => None
      | Some true => Some (Some x)
      | Some false => find_try p r
      end
  end.

(** [new Date().toISOString().slice(0, 10)] at the time [t]. *)
Definition today (t : Z) : string := Str.take 10 (toISOString t).

(** The part of [fetchLatestObservation] after the body is parsed, at the
    time [t]. *)
Definition latest_of (series_id : string) (json : value) (t : Z) : result number :=
  match get json "observations" with
  | None => Throw (TypeError "Cannot read properties of null (reading 'observations')")
  | Some (VArr l) =>
      match find_try (acceptable (today t)) l with
      | None => Throw (TypeError "Cannot read properties of null (reading 'value')")
      | Some found =>
          match found with
          | Some obs =>
              if negb (truthy obs)
              then Throw (Error ("No valid recent observation for " ++ series_id))
              else
                let val := parseFloat (prop obs "value") in
                if isNaN val
                then Throw (Error ("Parsed NaN for " ++ series_id ++ " observation"))
                else Ok val
          | None => Throw (Error ("No valid recent observation for " ++ series_id))
          end
      end
  | Some _ => Throw (Error ("No observations array for " ++ series_id))
  end.

(** What the promise of [fetchLatestObservation] settles to, from the answer
    to its request. *)
Definition settle (series_id : string) (p : pending) : result number :=
  match arrives p with
  | Rejected e => Throw e
  | Responded res =>
      if negb (ok res)
      then Throw (Error ("FRED HTTP " ++ Str.of_Z (status res) ++ " for series "
                           ++ series_id))
      else
        match json res with
        | Some j => latest_of series_id j (settles p)
        | None => Throw (SyntaxError "Unexpected token in JSON")
        end
  end.

(** [fetchLatestObservation(series_id)], not awaited: the request is sent;
    the promise settles to the value or the error, at the time the answer
    arrives. *)
Definition fetchLatestObservation (series_id : string) : M unit (result number * Z) :=
  key <- getenv FRED_KEY ;;
  p <- send (url series_id key) ;;
  ret (settle series_id p, settles p).

(** [Promise.all] of two promises: both values when the later one is there,
    the error of the promise that rejects first. *)
Definition all2 {A} (p1 p2 : result A * Z) : result (A * A) * Z :=
  match p1, p2 with
  | (Ok a, t1), (Ok b, t2) => (Ok (a, b), Z.max t1 t2)
  | (Throw e, t1), (Ok _, _) => (Throw e, t1)
  | (Ok _, _), (Throw e, t2) => (Throw e, t2)
  | (Throw e1, t1), (Throw e2, t2) =>
      if t1 <=? t2 then (Throw e1, t1) else (Throw e2, t2)
  end.

Definition json_headers : list (string * string) :=
  [ ("Cache-Control", "no-store, must-revalidate");
    ("Content-Type", "application/json") ].

Definition respond (payload : value) : http :=
  {| statusCode := 200; headers := json_headers; body := stringify payload |}.

Definition success_payload (y10 y2 : number) (t : Z) : value :=
  let spread := sub y10 y2 in
  let inverted := Num.ltb spread zero in
  VObj [ ("spread", VNum (NumStr.parseFloat (NumStr.toFixed spread 2)));
         ("inverted", VBool inverted);
         ("source", VStr "FRED");
         ("timestamp", VStr (toISOString t));
         ("components", VObj [ ("10Y", VNum y10); ("2Y", VNum y2) ]) ].

Definition fallback_payload (t : Z) : value :=
  VObj [ ("spread", VNum zero);
         ("inverted", VBool false);
         ("source", VStr "FRED");
         ("timestamp", VStr (toISOString t)) ].

(** The [try] block. *)
Definition attempt : M unit http :=
  p10 <- fetchLatestObservation "DGS10" ;;
  p2 <- fetchLatestObservation "DGS2" ;;
  wait_until (snd (all2 p10 p2)) ;;
  ys <- lift (fst (all2 p10 p2)) ;;
  t <- now ;;
  ret (respond (success_payload (fst ys) (snd ys) t)).

Definition handler : M unit http :=
  try_catch attempt
    (fun err =>
       console ("yieldSpread error, falling back to 0: " ++ error_string err) ;;
       t <- now ;;
       ret (respond (fallback_payload t))).

Definition enter (e : env) (n : list exchange) (t : Z) : world unit :=
  {| environ := e; net := n; clock := t; log := []; globals := tt |}.

End YieldSpread.

(** ** The requests and the time of a computation *)

Module Frames.

Import Rt.

Definition total (l : list Z) : Z := fold_right Z.add 0 l.

Section Frames.
Context {G A : Type}.

(** [m] sends no request and does not sleep: the network, the clock, and
    the requests and the sleeps of the log are as they were. *)
Definition still (m : M G A) : Prop :=
  forall w r w', m w = (r, w') ->
    net w' = net w /\ clock w' = clock w
    /\ fetches (log w') = fetches (log w)
    /\ sleeps (log w') = sleeps (log w).

(** [m] sends at most [n] requests, each answered by the next exchange of
    the network, sleeps at most [pause] milliseconds in all, and takes the
    time of its requests and of its sleeps, one after the other. *)
Definition within (n : nat) (pause : Z) (m : M G A) : Prop :=
  forall w r w', m w = (r, w') ->
    exists urls naps,
      (List.length urls <= n)%nat
      /\ fetches (log w') = (fetches (log w) ++ urls)%list
      /\ net w' = skipn (List.length urls) (net w)
      /\ sleeps (log w') = (sleeps (log w) ++ naps)%list
      /\ Forall (fun ms => 0 <= ms) naps
      /\ total naps <= pause
      /\ clock w' = clock w
                    + total (map elapsed (firstn (List.length urls) (net w)))
                    + total naps.
End Frames.

End Frames.

(** ** Notions for the two requests of yieldSpread.js *)

Module Together.

Import Js Rt.

(** The request number [i] (from 0) of those sent at once from the world
    [w]: what the network answers it, and when. *)
Definition arrival {G} (w : world G) (i : nat) : YieldSpread.pending :=
  match nth_error (net w) i with
  | Some x =>
      {| YieldSpread.settles := clock w + elapsed x;
         YieldSpread.arrives := answer x |}
  | None =>
      {| YieldSpread.settles := clock w;
         YieldSpread.arrives := Rejected (TypeError "fetch failed") |}
  end.

(** A payload of FRED whose observations are the dates and values [rows],
    in this order. *)
Definition series (rows : list (string * string)) : value :=
  VObj [ ("observations",
          VArr (map (fun r => VObj [ ("date", VStr (fst r));
                                     ("value", VStr (snd r)) ]) rows)) ].

(** The first observation of [rows] that is not the sentinel and is not
    dated after [todayStr]. *)
Definition pick (todayStr : string) (rows : list (string * string))
  : option (string * string) :=
  List.find (fun r => negb (String.eqb (snd r) ".") && String.leb (fst r) todayStr)
            rows.

(** The two promises that the handler awaits together. *)
Definition promises (w : world unit) : result (Num.number * Num.number) * Z :=
  YieldSpread.all2
    (YieldSpread.settle "DGS10" (arrival w 0), YieldSpread.settles (arrival w 0))
    (YieldSpread.settle "DGS2" (arrival w 1), YieldSpread.settles (arrival w 1)).

(** Two payloads of FRED, and a world in which the network answers the two
    requests of the handler with them, the second one later. *)
Definition spread_ten : value :=
  series [ ("2099-01-01", "9.9"); ("2024-01-05", "."); ("2024-01-04", "4.20") ].

Definition spread_two : value := series [ ("2024-01-04", "4.50") ].

Definition spread_answer (ms : Z) (v : value) : exchange :=
  {| elapsed := ms;
     answer := Responded {| status := 200; text := ""; json := Some v |} |}.

Definition world_spread : world unit :=
  YieldSpread.enter
    {| FRED_KEY := Some "k"; FMP_KEY := None; TWELVE_KEY := None |}
    [ spread_answer 30 spread_ten; spread_answer 50 spread_two ]
    1704500000000.

End Together.

(** ** netlify/functions/buffett.js

    The two requests are awaited together, as in yieldSpread.js.  A [Map]
    whose keys are numbers is the list of its entries in the order in which
    the keys were first set. *)

Module Buffett.

Import Num Js Rt.
Local Open Scope rt_scope.

(** *** [URLSearchParams] *)

(** The bytes of a code unit below 256 in UTF-8. *)
Definition utf8 (c : ascii) : list N :=
  let n := N_of_ascii c in
  if (n <? 128)%N then [ n ] else [ (192 + n / 64)%N; (128 + n mod 64)%N ].

(** The bytes that the serializer of [application/x-www-form-urlencoded]
    leaves as they are. *)
Definition form_plain (n : N) : bool :=
  (((48 <=? n) && (n <=? 57)) || ((65 <=? n) && (n <=? 90))
   || ((97 <=? n) && (n <=? 122))
   || (n =? 42) || (n =? 45) || (n =? 46) || (n =? 95))%N.

Definition form_byte (n : N) : string :=
  if form_plain n then String (ascii_of_N n) ""
  else if (n =? 32)%N then "+"
  else String "%" (String (hex_digit (n / 16)) (String (hex_digit (n mod 16)) "")).

Fixpoint form_encode (s : string) : string :=
  match s with
  | EmptyString => ""
  | String c s' => String.concat "" (map form_byte (utf8 c)) ++ form_encode s'
  end.

(** [new URLSearchParams({...}).toString()] *)
Definition search_params (params : list (string * string)) : string :=
  String.concat "&"
    (map (fun p => form_encode (fst p) ++ "=" ++ form_encode (snd p)) params).

Definition market_cap_url (key : string) : string :=
  "https://api.stlouisfed.org/fred/series/observations?"
    ++ search_params [ ("series_id", "NCBEILQ027S"); ("api_key", key);
                       ("file_type", "json");
                       ("observation_start", "1980-01-01");
                       ("frequency", "q") ].

Definition gdp_url (key : string) : string :=
  "https://api.stlouisfed.org/fred/series/observations?"
    ++ search_params [ ("series_id", "GDP"); ("api_key", key);
                       ("file_type", "json");
                       ("observation_start", "1980-01-01") ].

(** *** The year of an observation *)

(** [parseInt(s, 10)] for a string [s]: white space, a sign, and the digits
    that follow; [NaN] without a digit. *)
Definition parseInt10 (s : string) : number :=
  let '(neg, s1) := NumStr.signed (Str.trimStart s) in
  let '(v, cnt, _) := NumStr.digits s1 0%N O in
  match cnt with
  | O => NaN
  | _ => of_decimal neg v 0
  end.

(** [o.date], which throws on [undefined] and [null]. *)
Definition date_of (o : value) : result value :=
  match o with
  | VUndef => Throw (TypeError "Cannot read properties of undefined (reading 'date')")
  | VNull => Throw (TypeError "Cannot read properties of null (reading 'date')")
  | _ => Ok (prop o "date")
  end.

(** [d.slice(0, 4)]: a string and an array have the method. *)
Definition slice4 (d : value) : result value :=
  match d with
  | VStr s => Ok (VStr (Str.take 4 s))
  | VArr l => Ok (VArr (firstn 4 l))
  | VUndef => Throw (TypeError "Cannot read properties of undefined (reading 'slice')")
  | VNull => Throw (TypeError "Cannot read properties of null (reading 'slice')")
  | _ => Throw (TypeError "d.slice is not a function")
  end.

(** [y] of the two loops. *)
Definition year_of (o : value) : result number :=
  match date_of o with
  | Throw e => Throw e
  | Ok d =>
      match slice4 d with
      | Throw e => Throw e
      | Ok part => Ok (parseInt10 (ToString part))
      end
  end.

(** [v] of the two loops: [null] is [None]. *)
Definition value_of (o : value) : option number :=
  if is_string (prop o "value") "." then None
  else Some (ToNumber (prop o "value")).

(** *** [Map] with numbers for keys

    The keys the loops set are not [NaN]; [-0] is kept as [+0]. *)
Section Maps.
Context {V : Type}.

Fixpoint has (y : number) (m : list (number * V)) : bool :=
  match m with
  | [] => false
  | (k, _) :: r => Num.eqb k y || has y r
  end.

Fixpoint get (y : number) (m : list (number * V)) : option V :=
  match m with
  | [] => None
  | (k, x) :: r => if Num.eqb k y then Some x else get y r
  end.

Fixpoint set (y : number) (x : V) (m : list (number * V)) : list (number * V) :=
  match m with
  | [] => [ (if is_zero y then zero else y, x) ]
  | (k, x') :: r => if Num.eqb k y then (k, x) :: r else (k, x') :: set y x r
  end.
End Maps.

(** *** [getFREDMarketCapMap] *)

(** One turn of the first loop. *)
Definition gather (m : list (number * list number)) (o : value)
  : result (list (number * list number)) :=
  match year_of o with
  | Throw e => Throw e
  | Ok y =>
      let v := value_of o in
      if negb (isNaN y) then
        let m1 := if negb (has y m) then set y [] m else m in
        match v with
        | Some x =>
            Ok (set y (match get y m1 with
                       | Some arr => arr ++ [ x ]
                       | None => [ x ]
                       end)%list m1)
        | None => Ok m1
        end
      else Ok m
  end.

(** A loop [for (const o of l)] whose body may throw. *)
Fixpoint loop {S} (body : S -> value -> result S) (s : S) (l : list value)
  : result S :=
  match l with
  | [] => Ok s
  | o :: r =>
      match body s o with
      | Throw e => Throw e
      | Ok s' => loop body s' r
      end
  end.

(** [(arr.reduce((a, b) => a + b, 0) / arr.length) / 1e3] *)
Definition average_in_billions (arr : list number) : number :=
  div (div (fold_left add arr zero) (Num.of_Z (len arr))) (Num.of_Z 1000).

(** The second loop: the years that have a value. *)
Fixpoint averages (m : list (number * list number)) (avg : list (number * number))
  : list (number * number) :=
  match m with
  | [] => avg
  | (y, arr) :: r =>
      averages r (if 0 <? len arr then set y (average_in_billions arr) avg
                  else avg)
  end.

(** The observations of a parsed body, or the error of the function. *)
Definition observations (json : value) (complaint : string) : result (list value) :=
  if negb (truthy json) then Throw (Error complaint)
  else
    match prop json "observations" with
    | VArr l => Ok l
    | _ => Throw (Error complaint)
    end.

(** What a request comes to before the body is looked at. *)
Definition body_of (p : YieldSpread.pending) : result value :=
  match YieldSpread.arrives p with
  | Rejected e => Throw e
  | Responded res =>
      if negb (ok res) then Throw (Error ("FRED HTTP " ++ Str.of_Z (status res)))
      else
        match json res with
        | Some j => Ok j
        | None => Throw (SyntaxError "Unexpected token in JSON")
        end
  end.

Definition market_cap_map (json : value) : result (list (number * number)) :=
  match observations json "Bad FRED payload for market cap" with
  | Throw e => Throw e
  | Ok l =>
      match loop gather [] l with
      | Throw e => Throw e
      | Ok m => Ok (averages m [])
      end
  end.

(** [getFREDMarketCapMap()], not awaited: the request is sent; the promise
    settles when the answer arrives. *)
Definition getFREDMarketCapMap (key : string)
  : M unit (result (list (number * number)) * Z) :=
  p <- YieldSpread.send (market_cap_url key) ;;
  ret (match body_of p with
       | Throw e => Throw e
       | Ok j => market_cap_map j
       end, YieldSpread.settles p).

(** *** [getFREDGDPAnnualMap] *)

Definition record (m : list (number * number)) (o : value)
  : result (list (number * number)) :=
  match year_of o with
  | Throw e => Throw e
  | Ok y =>
      match value_of o with
      | Some x => Ok (if negb (isNaN y) then set y x m else m)
      | None => Ok m
      end
  end.

Definition gdp_map (json : value) : result (list (number * number)) :=
  match observations json "Bad FRED payload for GDP" with
  | Throw e => Throw e
  | Ok l => loop record [] l
  end.

Definition getFREDGDPAnnualMap (key : string)
  : M unit (result (list (number * number)) * Z) :=
  p <- YieldSpread.send (gdp_url key) ;;
  ret (match body_of p with
       | Throw e => Throw e
       | Ok j => gdp_map j
       end, YieldSpread.settles p).

(** *** The handler *)

(** [l.sort((a, b) => b - a)]: [a] goes after [b] when [b - a] is positive.
    The keys of a [Map] are different numbers, so every sort gives this
    order. *)
Definition goes_after (a b : number) : bool := Num.ltb zero (sub b a).

Fixpoint insert (x : number) (l : list number) : list number :=
  match l with
  | [] => [ x ]
  | y :: r => if goes_after x y then y :: insert x r else x :: l
  end.

Definition sort (l : list number) : list number := fold_right insert [] l.

(** [[...mcapMap.keys()].filter(y => gdpMap.has(y)).sort((a, b) => b - a)] *)
Definition overlap (mcapMap gdpMap : list (number * number)) : list number :=
  sort (filter (fun y => has y gdpMap) (map fst mcapMap)).

(** [m.get(y)] as a value. *)
Definition entry (y : number) (m : list (number * number)) : value :=
  match get y m with
  | Some x => VNum x
  | None => VUndef
  end.

Definition json_headers : list (string * string) :=
  [ ("Content-Type", "application/json");
    ("Access-Control-Allow-Origin", "*") ].

Definition respond (code : Z) (payload : value) : http :=
  {| statusCode := code; headers := json_headers; body := stringify payload |}.

Definition ratio_of (mcap gdp : value) : number :=
  mul (div (ToNumber mcap) (ToNumber gdp)) (Num.of_Z 100).

Definition success_payload (year : number) (mcap gdp : value) : value :=
  VObj [ ("source",
          VObj [ ("numerator", VStr "FRED NCBEILQ027S (avg of quarterly values)");
                 ("denominator", VStr "FRED GDP (annual nominal)") ]);
         ("vintage", VStr "latest revised");
         ("year", VNum year);
         ("ratio", VNum (ratio_of mcap gdp));
         ("market_cap_billion_usd", mcap);
         ("gdp_billion_usd", gdp);
         ("note", VStr "All values in billions of USD. Market cap was converted from millions.") ].

(** A number and a value as [console.log] writes them inside an object. *)
Definition inspect_number (x : number) : string :=
  if same x (S754_zero true) then "-0" else NumStr.toString x.

Definition inspect (v : value) : string :=
  match v with
  | VNum x => inspect_number x
  | _ => "undefined"
  end.

(** The lines that [console.log] writes for the object of the handler,
    which is too long for one line. *)
Definition inputs_logged (year : number) (mcap gdp : value) : string :=
  let nl := String "010" "" in
  "{" ++ nl
  ++ "  debug: 'Buffett Indicator Inputs'," ++ nl
  ++ "  year: " ++ inspect_number year ++ "," ++ nl
  ++ "  marketCap_billion_usd: " ++ inspect mcap ++ "," ++ nl
  ++ "  gdp_billion_usd: " ++ inspect gdp ++ "," ++ nl
  ++ "  calculated_ratio_percent: " ++ inspect_number (ratio_of mcap gdp) ++ nl
  ++ "}".

(** The [try] block after the two maps are there. *)
Definition report (mcapMap gdpMap : list (number * number)) : M unit http :=
  match overlap mcapMap gdpMap with
  | [] => throw (Error "No overlapping year found")
  | latestYear :: _ =>
      let mcap := entry latestYear mcapMap in
      let gdp := entry latestYear gdpMap in
      console (inputs_logged latestYear mcap gdp) ;;
      ret (respond 200 (success_payload latestYear mcap gdp))
  end.

(** The [try] block. *)
Definition attempt : M unit http :=
  key <- getenv FRED_KEY ;;
  match present key with
  | None => throw (Error "FRED_KEY is missing in environment.")
  | Some key =>
      p1 <- getFREDMarketCapMap key ;;
      p2 <- getFREDGDPAnnualMap key ;;
      YieldSpread.wait_until (snd (YieldSpread.all2 p1 p2)) ;;
      maps <- lift (fst (YieldSpread.all2 p1 p2)) ;;
      report (fst maps) (snd maps)
  end.

Definition handler : M unit http :=
  try_catch attempt
    (fun err =>
       console ("buffett.js error: " ++ error_string err) ;;
       ret (respond 500 (VObj [ ("error", VStr (message err)) ]))).

Definition enter (e : env) (n : list exchange) (t : Z) : world unit :=
  {| environ := e; net := n; clock := t; log := []; globals := tt |}.

End Buffett.

(** ** Notions for the two series of buffett.js *)

Module Yearly.

Import Js Rt.

(** The observation [o] is of the year [y]. *)
Definition in_year (y : Num.number) (o : value) : bool :=
  match Buffett.year_of o with
  | Ok y' => Num.eqb y' y
  | Throw _ => false
  end.

(** The values of the observations of [l] that are of the year [y] and are
    not the sentinel, in the order of [l]. *)
Definition values_in (y : Num.number) (l : list value) : list Num.number :=
  flat_map (fun o =>
              if in_year y o
              then match Buffett.value_of o with
                   | Some x => [ x ]
                   | None => []
                   end
              else []) l.

(** The keys of a map are different numbers. *)
Fixpoint distinct {V} (m : list (Num.number * V)) : Prop :=
  match m with
  | [] => True
  | (k, _) :: r => Buffett.has k r = false /\ distinct r
  end.

(** The last element of a list. *)
Definition last_of {A} (l : list A) : option A :=
  match List.rev l with
  | [] => None
  | x :: _ => Some x
  end.

(** The number of the year [n], as [parseInt] gives it. *)
Definition year_number (n : N) : Num.number := Num.of_decimal false n 0.

(** An observation dated in a year from 1900 to 2099. *)
Definition modern (o : value) : Prop :=
  exists n, (1900 <= n <= 2099)%N /\ Buffett.year_of o = Ok (year_number n).

Definition modern_key (k : Num.number) : Prop :=
  exists n, (1900 <= n <= 2099)%N /\ k = year_number n.

(** Checks that are run on every year from 1900 to 2099, and on every
    difference of two of them: the number of a year [n] is [n] written with
    the exponent of its binade, and the difference of two years, [d] times
    two to the [k], is rounded to a number above zero. *)
Definition year_checked (n : N) : bool :=
  match year_number n with
  | S754_finite false m e =>
      (e =? (if (n <? 2048)%N then -42 else -41))
      && (Zpos m =? Z.of_N n * 2 ^ (- e))
  | _ => false
  end.

Definition gap_checked (k : Z) (d : N) : bool :=
  Num.ltb Num.zero
    (binary_normalize Num.prec Num.emax (Z.of_N d * 2 ^ k) (- k) false).

Definition span (lo : N) (count : nat) : list N :=
  map (fun i => (lo + N.of_nat i)%N) (seq 0 count).

(** Two payloads of FRED: the market value by quarter, in millions, and
    GDP. *)
Definition quarter (d v : string) : value :=
  VObj [ ("date", VStr d); ("value", VStr v) ].

Definition payload_cap : value :=
  VObj [ ("observations",
          VArr [ quarter "2022-01-01" "40000000"; quarter "2022-04-01" "42000000";
                 quarter "2023-01-01" "50000000"; quarter "2023-04-01" ".";
                 quarter "2024-01-01" "." ]) ].

Definition payload_gdp : value :=
  VObj [ ("observations",
          VArr [ quarter "2022-01-01" "25000"; quarter "2022-04-01" "25500";
                 quarter "2023-01-01" "27000"; quarter "2024-01-01" "28000" ]) ].

(** The maps of the two payloads, and the answer of the handler to them. *)
Definition maps_cap : list (Num.number * Num.number) :=
  match Buffett.market_cap_map payload_cap with
  | Ok m => m
  | Throw _ => []
  end.

Definition maps_gdp : list (Num.number * Num.number) :=
  match Buffett.gdp_map payload_gdp with
  | Ok m => m
  | Throw _ => []
  end.

Definition world_buffett : world unit :=
  Buffett.enter {| FRED_KEY := Some "k"; FMP_KEY := None; TWELVE_KEY := None |}
                [] 1704500000000.

Definition answer_buffett : http :=
  match fst (Buffett.report maps_cap maps_gdp world_buffett) with
  | Ok a => a
  | Throw _ => Buffett.respond 500 VNull
  end.

End Yearly.

(** * Proofs *)

Import Num Js Rt VixIndex Chain Examples.

(** The conversions of the runtime are evaluated on concrete inputs only. *)
Arguments Js.toISOString : simpl never.
Arguments Js.encodeURIComponent : simpl never.
Arguments NumStr.toString : simpl never.
Arguments NumStr.toFixed : simpl never.
Arguments NumStr.StringToNumber : simpl never.
Arguments NumStr.parseFloat : simpl never.
Arguments Num.of_decimal : simpl never.
Arguments Num.of_Z : simpl never.
Arguments Str.of_Z : simpl never.
Arguments Str.trim : simpl never.
Arguments Str.split : simpl never.
Arguments Str.endsWith : simpl never.

(** ** The retry loop *)

Lemma total_cons x l : Frames.total (x :: l) = x + Frames.total l.
Proof. reflexivity. Qed.

(** A delay from 1 to [TIMEOUT_MAX] is the time its timer takes; any other
    delay takes 1 millisecond. *)
Lemma timer_in_range ms : 1 <= ms <= TIMEOUT_MAX -> timer ms = ms.
Proof.
  intros [H1 H2]. unfold timer.
  destruct (Z.leb_spec 1 ms); [|lia].
  destruct (Z.leb_spec ms TIMEOUT_MAX); [reflexivity|lia].
Qed.

Lemma timer_out_of_range ms : ms < 1 \/ TIMEOUT_MAX < ms -> timer ms = 1.
Proof.
  intros H. unfold timer.
  destruct (Z.leb_spec 1 ms); [|reflexivity].
  destruct (Z.leb_spec ms TIMEOUT_MAX); [lia|reflexivity].
Qed.

Section RetryFacts.
Context {A : Type}.
Variable read : response -> Vix A.
Variable readp : response -> result A.
Variable fname : string.
Hypothesis read_pure : forall r w, read r w = (readp r, w).

Lemma request_judge url w :
  request read url w = (judge readp url (hd_error (net w)), fetched url w).
Proof.
  unfold request, bind, fetch, fetched, judge.
  destruct (net w) as [|x rest] eqn:E; simpl.
  - rewrite Z.add_0_r. reflexivity.
  - destruct (answer x) as [e|r]; [reflexivity|].
    destruct (ok r); simpl; [apply read_pure | reflexivity].
Qed.

Lemma retry_run url attempts delay :
  forall fuel i lastErr w r w',
    Z.of_nat fuel = attempts - i -> (1 <= fuel)%nat ->
    retry read fname url attempts delay fuel i lastErr w = (r, w') ->
    exists k,
      (1 <= k <= fuel)%nat
      /\ log w' = (log w ++ backoff url delay (i + 1) k)%list
      /\ r = judge readp url (nth_error (net w) (k - 1))
      /\ (forall j, (j < k - 1)%nat ->
                    thrown (judge readp url (nth_error (net w) j)))
      /\ (thrown r -> k = fuel)
      /\ net w' = skipn k (net w)
      /\ globals w' = globals w
      /\ environ w' = environ w.
Proof.
  induction fuel as [|fuel IH]; intros i lastErr w r w' Hf H1 Hrun; [lia|].
  cbn [retry] in Hrun. unfold try_catch in Hrun. rewrite request_judge in Hrun.
  assert (Hhd : hd_error (net w) = nth_error (net w) 0)
    by (destruct (net w); reflexivity).
  destruct (judge readp url (hd_error (net w))) as [a|e] eqn:J.
  - inversion Hrun; subst r w'; clear Hrun.
    exists 1%nat. cbn [Nat.sub]. rewrite <- Hhd, J. simpl.
    repeat split; try lia; try reflexivity; try (intros []);
      try (destruct (net w); reflexivity).
  - destruct fuel as [|fuel].
    + (* the last attempt *)
      assert (Hi : (i <? attempts - 1) = false) by (apply Z.ltb_ge; lia).
      rewrite Hi in Hrun. cbn in Hrun.
      inversion Hrun; subst r w'; clear Hrun.
      exists 1%nat. cbn [Nat.sub]. rewrite <- Hhd, J. simpl.
      repeat split; try lia; try reflexivity;
        try (destruct (net w); reflexivity).
    + assert (Hi : (i <? attempts - 1) = true) by (apply Z.ltb_lt; lia).
      rewrite Hi in Hrun. unfold bind at 1 in Hrun. cbn [sleep] in Hrun.
      apply IH in Hrun; [|lia|lia].
      destruct Hrun as (k & Hk & Hlog & Hres & Hpre & Hlast & Hnet & Hg & He).
      cbn [log net globals environ fetched] in *.
      exists (S k). rewrite Hlog, Hnet, Hg, He.
      destruct k as [|k]; [lia|].
      repeat split; try lia.
      * cbn [backoff]. rewrite <- !app_assoc. reflexivity.
      * rewrite Hres. simpl. rewrite Nat.sub_0_r.
        destruct (net w); [destruct k|]; reflexivity.
      * intros j Hj. destruct j as [|j].
        -- rewrite <- Hhd, J. exact I.
        -- specialize (Hpre j). destruct (net w) as [|x rest].
           ++ destruct j; simpl; exact I.
           ++ simpl in *. apply Hpre. lia.
      * intros T. rewrite Hlast; [reflexivity|]. exact T.
      * destruct (net w); [destruct k|]; reflexivity.
Qed.

(** The time of the loop: that of its requests and of the timers between
    them. *)
Lemma retry_time url attempts delay :
  forall fuel i lastErr w r w',
    Z.of_nat fuel = attempts - i -> (1 <= fuel)%nat ->
    retry read fname url attempts delay fuel i lastErr w = (r, w') ->
    exists k,
      (1 <= k <= fuel)%nat
      /\ log w' = (log w ++ backoff url delay (i + 1) k)%list
      /\ net w' = skipn k (net w)
      /\ clock w' = clock w + Frames.total (map elapsed (firstn k (net w)))
                    + Frames.total (map timer (sleeps (backoff url delay (i + 1) k))).
Proof.
  induction fuel as [|fuel IH]; intros i lastErr w r w' Hf H1 Hrun; [lia|].
  cbn [retry] in Hrun. unfold try_catch in Hrun.
  rewrite request_judge in Hrun.
  assert (Hclock : clock (fetched url w)
                   = clock w + Frames.total (map elapsed (firstn 1 (net w))))
    by (unfold fetched; cbn; destruct (net w); cbn; lia).
  destruct (judge readp url (hd_error (net w))) as [a|e] eqn:J.
  - inversion Hrun; subst r w'; clear Hrun.
    exists 1%nat. rewrite Hclock. cbn.
    repeat split; try lia; try (destruct (net w); reflexivity).
  - destruct fuel as [|fuel].
    + assert (Hi : (i <? attempts - 1) = false) by (apply Z.ltb_ge; lia).
      rewrite Hi in Hrun. cbn in Hrun.
      inversion Hrun; subst r w'; clear Hrun.
      exists 1%nat. cbn.
      repeat split; try lia; destruct (net w); cbn; try reflexivity; lia.
    + assert (Hi : (i <? attempts - 1) = true) by (apply Z.ltb_lt; lia).
      rewrite Hi in Hrun. unfold bind at 1 in Hrun. cbn [sleep] in Hrun.
      apply IH in Hrun; [|lia|lia].
      destruct Hrun as (k & Hk & Hlog & Hnet & Hclk).
      cbn [log net clock fetched] in *.
      exists (S k). rewrite Hlog, Hnet, Hclk.
      destruct k as [|k]; [lia|].
      repeat split; try lia.
      * cbn [backoff]. rewrite <- !app_assoc. reflexivity.
      * destruct (net w); [destruct k|]; reflexivity.
      * change (backoff url delay (i + 1) (S (S k)))
          with (EvFetch url :: EvSleep (delay * (i + 1))
                  :: backoff url delay (i + 1 + 1) (S k)).
        cbn [sleeps flat_map app map].
        fold (sleeps (backoff url delay (i + 1 + 1) (S k))).
        set (rest_naps := map timer (sleeps (backoff url delay (i + 1 + 1) (S k)))).
        change (Frames.total (timer (delay * (i + 1)) :: rest_naps))
          with (timer (delay * (i + 1)) + Frames.total rest_naps).
        destruct (net w) as [|x rest]; cbn [tl].
        -- cbn [firstn map]. change (Frames.total []) with 0. lia.
        -- cbn [firstn map]. rewrite !total_cons. lia.
Qed.
End RetryFacts.

Lemma res_json_pure (r : response) (w : world cache) :
  res_json r w = (json_body r, w).
Proof. unfold res_json, json_body. destruct (json r); reflexivity. Qed.

Lemma res_text_pure (r : response) (w : world cache) :
  res_text r w = (text_body r, w).
Proof. reflexivity. Qed.

Lemma fetches_backoff url delay : forall k i,
  fetches (backoff url delay i k) = repeat url k
  /\ sleeps (backoff url delay i k)
     = map (fun j => delay * (i + Z.of_nat j)) (seq 0 (k - 1)).
Proof.
  induction k as [|k IH]; intros i; [split; reflexivity|].
  destruct k as [|k]; [split; reflexivity|].
  destruct (IH (i + 1)) as [Hf Hs].
  change (backoff url delay i (S (S k)))
    with (EvFetch url :: EvSleep (delay * i) :: backoff url delay (i + 1) (S k)).
  split.
  - cbn [fetches flat_map app]. fold (fetches (backoff url delay (i + 1) (S k))).
    rewrite Hf. reflexivity.
  - cbn [sleeps flat_map app]. fold (sleeps (backoff url delay (i + 1) (S k))).
    rewrite Hs. cbn [Nat.sub seq map]. rewrite Nat.sub_0_r, Z.add_0_r.
    f_equal. rewrite <- seq_shift, map_map.
    apply map_ext. intros j. f_equal. lia.
Qed.

(** With a delay of one millisecond or more, and a last wait,
    [delay * (k - 1)], that [setTimeout] takes as it is, every wait takes
    its delay. *)
Lemma timer_backoff url delay k :
  1 <= delay -> delay * (Z.of_nat k - 1) <= TIMEOUT_MAX ->
  map timer (sleeps (backoff url delay 1 k)) = sleeps (backoff url delay 1 k).
Proof.
  intros Hd Hmax. destruct (fetches_backoff url delay k 1) as [_ Hs].
  rewrite Hs. rewrite <- (map_id (map _ (seq 0 (k - 1)))) at 2.
  apply map_ext_in. intros x Hx.
  apply in_map_iff in Hx. destruct Hx as (j & <- & Hj).
  apply in_seq in Hj. apply timer_in_range. nia.
Qed.

Lemma backoff_injective url delay (l : list event) : forall k k' i,
  (1 <= k)%nat -> (1 <= k')%nat ->
  (l ++ backoff url delay i k = l ++ backoff url delay i k')%list -> k = k'.
Proof.
  intros k k' i Hk Hk' H. apply app_inv_head in H.
  apply (f_equal fetches) in H.
  rewrite (proj1 (fetches_backoff url delay k i)) in H.
  rewrite (proj1 (fetches_backoff url delay k' i)) in H.
  apply (f_equal (@List.length _)) in H. rewrite !repeat_length in H. exact H.
Qed.

Lemma backoff_ends_with_fetch url delay : forall k i,
  (1 <= k)%nat -> exists pre, backoff url delay i k = (pre ++ [EvFetch url])%list.
Proof.
  induction k as [|k IH]; intros i Hk; [lia|].
  destruct k as [|k]; [exists []; reflexivity|].
  destruct (IH (i + 1) ltac:(lia)) as (pre & Hpre).
  exists (EvFetch url :: EvSleep (delay * i) :: pre).
  change (backoff url delay i (S (S k)))
    with (EvFetch url :: EvSleep (delay * i) :: backoff url delay (i + 1) (S k)).
  rewrite Hpre. reflexivity.
Qed.

(** The waits of a run of [k] requests: [timer (delay * j)] after request
    [j], for [j] from 1 to [k - 1]. *)
Lemma timers_of_backoff url delay k :
  map timer (sleeps (backoff url delay 1 k))
  = map (fun j => timer (delay * (1 + Z.of_nat j))) (seq 0 (k - 1)).
Proof.
  destruct (fetches_backoff url delay k 1) as [_ Hs].
  rewrite Hs, map_map. reflexivity.
Qed.

(** C8 as stated fails: asked for two attempts with a delay of
    2^31 milliseconds, and the first request answered HTTP 503,
    [fetchJsonWithRetry] calls [sleep(2147483648)] before the second
    request, and the second request is sent one millisecond later, not
    2147483648: [setTimeout] sets a delay above 2^31 - 1 to 1. *)
Lemma retry_wait_above_timeout_max_takes_one_millisecond :
  log (snd (fetchJsonWithRetry "u" 2 2147483648 world_retry))
  = [EvFetch "u"; EvSleep (2147483648 * 1); EvFetch "u"]
  /\ fst (fetchJsonWithRetry "u" 2 2147483648 world_retry)
     = Ok (VNum (Num.of_Z 1))
  /\ clock (snd (fetchJsonWithRetry "u" 2 2147483648 world_retry))
     = clock world_retry + Frames.total (map elapsed (net world_retry)) + 1
  /\ clock (snd (fetchJsonWithRetry "u" 2 2147483648 world_retry))
     <> clock world_retry + Frames.total (map elapsed (net world_retry))
        + 2147483648 * 1.
Proof.
  repeat split; try (vm_compute; reflexivity).
  vm_compute. discriminate.
Qed.

(** C8, amended: [fetchJsonWithRetry] and [fetchTextWithRetry], asked for
    at least one attempt, send [k] requests with [1 <= k <= attempts], each
    answered by the next exchange of the network; what they add to the log
    is these requests with a [sleep(delay * j)] between request [j] and
    request [j + 1] and none after the last; the time they take is that of
    the [k] requests and of the [k - 1] waits, the wait after request [j]
    taking [timer (delay * j)] milliseconds, which is [delay * j] when that
    is from 1 to 2^31 - 1 and 1 otherwise; every request before the last
    one failed; the outcome is that of the last request, and when it is a
    failure all [attempts] requests were sent and its error is the one
    thrown.  A request answered with a status outside 200..299 is a
    failure, and what is added to the log ends with a request, not a
    sleep. *)
Theorem retry_sends_at_most_attempts_with_linear_backoff :
  forall (url : string) (attempts delay : Z) (w : world cache),
    1 <= attempts ->
    (forall r w',
        fetchJsonWithRetry url attempts delay w = (r, w') ->
        exists k : nat,
          (1 <= k)%nat /\ Z.of_nat k <= attempts
          /\ log w' = (log w ++ backoff url delay 1 k)%list
          /\ fetches (backoff url delay 1 k) = repeat url k
          /\ sleeps (backoff url delay 1 k)
             = map (fun j => delay * (1 + Z.of_nat j)) (seq 0 (k - 1))
          /\ net w' = skipn k (net w)
          /\ clock w'
             = clock w + Frames.total (map elapsed (firstn k (net w)))
               + Frames.total
                   (map (fun j => timer (delay * (1 + Z.of_nat j)))
                        (seq 0 (k - 1)))
          /\ r = judge json_body url (nth_error (net w) (k - 1))
          /\ (forall j, (j < k - 1)%nat ->
                        thrown (judge json_body url (nth_error (net w) j)))
          /\ (thrown r -> Z.of_nat k = attempts))
    /\ (forall r w',
        fetchTextWithRetry url attempts delay w = (r, w') ->
        exists k : nat,
          (1 <= k)%nat /\ Z.of_nat k <= attempts
          /\ log w' = (log w ++ backoff url delay 1 k)%list
          /\ fetches (backoff url delay 1 k) = repeat url k
          /\ sleeps (backoff url delay 1 k)
             = map (fun j => delay * (1 + Z.of_nat j)) (seq 0 (k - 1))
          /\ net w' = skipn k (net w)
          /\ clock w'
             = clock w + Frames.total (map elapsed (firstn k (net w)))
               + Frames.total
                   (map (fun j => timer (delay * (1 + Z.of_nat j)))
                        (seq 0 (k - 1)))
          /\ r = judge text_body url (nth_error (net w) (k - 1))
          /\ (forall j, (j < k - 1)%nat ->
                        thrown (judge text_body url (nth_error (net w) j)))
          /\ (thrown r -> Z.of_nat k = attempts))
    /\ (forall j : Z,
        (1 <= delay * j <= TIMEOUT_MAX -> timer (delay * j) = delay * j)
        /\ (delay * j < 1 \/ TIMEOUT_MAX < delay * j -> timer (delay * j) = 1))
    /\ (forall ms (v : world cache),
        clock (snd (sleep ms v)) = clock v + timer ms)
    /\ (forall (x : exchange) (resp : response),
        answer x = Responded resp -> ok resp = false ->
        judge json_body url (Some x)
        = Throw (Error ("HTTP " ++ Str.of_Z (status resp) ++ " " ++ url))
        /\ judge text_body url (Some x)
           = Throw (Error ("HTTP " ++ Str.of_Z (status resp) ++ " " ++ url)))
    /\ (forall k : nat,
        (1 <= k)%nat ->
        exists pre, backoff url delay 1 k = (pre ++ [EvFetch url])%list).
Proof.
  intros url attempts delay w Hpos.
  split; [|split; [|split; [|split; [|split;
    [|intros k Hk; apply backoff_ends_with_fetch; exact Hk]]]]].
  - intros r w' Hrun. unfold fetchJsonWithRetry in Hrun.
    destruct (retry_run res_json json_body "fetchJsonWithRetry" res_json_pure
                url attempts delay (Z.to_nat attempts) 0 None w r w')
      as (k & Hk & Hlog & Hres & Hpre & Hlast & Hnet & _); [lia | lia | exact Hrun |].
    destruct (retry_time res_json json_body "fetchJsonWithRetry" res_json_pure
                url attempts delay (Z.to_nat attempts) 0 None w r w')
      as (k' & Hk' & Hlog' & _ & Hclk); [lia | lia | exact Hrun |].
    assert (k' = k) by (eapply backoff_injective; [| |rewrite <- Hlog', Hlog; reflexivity]; lia).
    subst k'. cbn [Z.add] in Hclk. rewrite timers_of_backoff in Hclk.
    exists k. destruct (fetches_backoff url delay k 1) as [Hf Hs].
    repeat split; try lia; auto.
    intros T. apply Hlast in T. lia.
  - intros r w' Hrun. unfold fetchTextWithRetry in Hrun.
    destruct (retry_run res_text text_body "fetchTextWithRetry" res_text_pure
                url attempts delay (Z.to_nat attempts) 0 None w r w')
      as (k & Hk & Hlog & Hres & Hpre & Hlast & Hnet & _); [lia | lia | exact Hrun |].
    destruct (retry_time res_text text_body "fetchTextWithRetry" res_text_pure
                url attempts delay (Z.to_nat attempts) 0 None w r w')
      as (k' & Hk' & Hlog' & _ & Hclk); [lia | lia | exact Hrun |].
    assert (k' = k) by (eapply backoff_injective; [| |rewrite <- Hlog', Hlog; reflexivity]; lia).
    subst k'. cbn [Z.add] in Hclk. rewrite timers_of_backoff in Hclk.
    exists k. destruct (fetches_backoff url delay k 1) as [Hf Hs].
    repeat split; try lia; auto.
    intros T. apply Hlast in T. lia.
  - intros j. split; [apply timer_in_range | apply timer_out_of_range].
  - intros ms v. reflexivity.
  - intros x resp Hx Hok. unfold judge. rewrite Hx, Hok. split; reflexivity.
Qed.

Lemma retry_sends_at_most_attempts_with_linear_backoff_witness :
  exists k : nat,
    (1 <= k)%nat /\ Z.of_nat k <= 3
    /\ log (snd (fetchJsonWithRetry "u" 3 300 world_retry))
       = backoff "u" 300 1 k
    /\ clock (snd (fetchJsonWithRetry "u" 3 300 world_retry))
       = clock world_retry
         + Frames.total (map elapsed (firstn k (net world_retry)))
         + Frames.total
             (map (fun j => timer (300 * (1 + Z.of_nat j))) (seq 0 (k - 1))).
Proof.
  destruct (proj1 (retry_sends_at_most_attempts_with_linear_backoff
                     "u" 3 300 world_retry ltac:(lia))
              _ _ (surjective_pairing _))
    as (k & Hk & Hle & Hlog & _ & _ & _ & Hclk & _).
  exists k. repeat split; assumption.
Defined.

(** ** Frames *)

(** *** What a computation leaves untouched *)

Section Quiet.
Context {G : Type}.

Local Notation quiet := (@Chain.quiet G _).
Local Notation announces := (@Chain.announces G _).

Lemma calls_app l1 l2 : calls (l1 ++ l2) = (calls l1 ++ calls l2)%list.
Proof. unfold calls. apply flat_map_app. Qed.

Lemma quiet_ret {A} (a : A) : quiet (ret a).
Proof. intros w r w' H; inversion H; auto. Qed.

Lemma quiet_throw {A} e : quiet (@throw G A e).
Proof. intros w r w' H; inversion H; auto. Qed.

Lemma quiet_lift {A} (x : result A) : quiet (lift x).
Proof. destruct x; [apply quiet_ret | apply quiet_throw]. Qed.

Lemma quiet_now : quiet (@now G).
Proof. intros w r w' H; inversion H; auto. Qed.

Lemma quiet_getenv {A} (f : env -> A) : quiet (getenv f).
Proof. intros w r w' H; inversion H; auto. Qed.

Lemma quiet_sleep ms : quiet (@sleep G ms).
Proof.
  intros w r w' H; inversion H; cbn. rewrite calls_app, app_nil_r. auto.
Qed.

Lemma quiet_console msg : quiet (@console G msg).
Proof.
  intros w r w' H; inversion H; cbn. rewrite calls_app, app_nil_r. auto.
Qed.

Lemma quiet_fetch url : quiet (@fetch G url).
Proof.
  intros w r w' H. unfold fetch in H.
  destruct (net w) as [|x rest].
  - inversion H; cbn. rewrite calls_app, app_nil_r. auto.
  - destruct (answer x); inversion H; cbn; rewrite calls_app, app_nil_r; auto.
Qed.

Lemma quiet_res_json r : quiet (@res_json G r).
Proof. unfold res_json. destruct (json r); [apply quiet_ret | apply quiet_throw]. Qed.

Lemma quiet_res_text r : quiet (@res_text G r).
Proof. apply quiet_ret. Qed.

Lemma quiet_bind {A B} (m : M G A) (k : A -> M G B) :
  quiet m -> (forall a, quiet (k a)) -> quiet (bind m k).
Proof.
  intros Hm Hk w r w' H. unfold bind in H.
  destruct (m w) as [[a|e] w1] eqn:E.
  - destruct (Hm _ _ _ E) as (g1 & e1 & c1).
    destruct (Hk a _ _ _ H) as (g2 & e2 & c2).
    repeat split; congruence.
  - inversion H; subst. exact (Hm _ _ _ E).
Qed.

Lemma quiet_try_catch {A} (m : M G A) (h : error -> M G A) :
  quiet m -> (forall e, quiet (h e)) -> quiet (try_catch m h).
Proof.
  intros Hm Hh w r w' H. unfold try_catch in H.
  destruct (m w) as [[a|e] w1] eqn:E.
  - inversion H; subst. exact (Hm _ _ _ E).
  - destruct (Hm _ _ _ E) as (g1 & e1 & c1).
    destruct (Hh e _ _ _ H) as (g2 & e2 & c2).
    repeat split; congruence.
Qed.

Lemma announces_enter {A} fn (m : M G A) :
  quiet m -> announces fn (bind (emit (EvCall fn)) (fun _ => m)).
Proof.
  intros Hm w r w' H. unfold bind, emit in H.
  destruct (Hm _ _ _ H) as (g & e & c). cbn in *.
  rewrite calls_app in c. auto.
Qed.

Lemma first_success_calls {A} names (fns : list (M G A)) :
  Forall2 announces names fns ->
  forall w i a errs w',
    first_success fns w i a errs w' ->
    globals w' = globals w /\ environ w' = environ w
    /\ calls (log w') = (calls (log w) ++ firstn (S i) names)%list
    /\ (i < List.length fns)%nat.
Proof.
  intros F w i a errs w' H. revert names F.
  induction H as [fn rest w a w' Hfn | fn rest w e w1 i a errs w' Hfn Hrest IH];
    intros names F; inversion F as [|nm fn' names' rest' Hnm F']; subst.
  - destruct (Hnm _ _ _ Hfn) as (g & e & c). cbn. repeat split; auto. lia.
  - destruct (Hnm _ _ _ Hfn) as (g & e1 & c).
    destruct (IH _ F') as (g' & e' & c' & Hi).
    repeat split; try congruence.
    + rewrite c', c, <- app_assoc. reflexivity.
    + cbn. lia.
Qed.

Lemma all_fail_calls {A} names (fns : list (M G A)) :
  Forall2 announces names fns ->
  forall w errs w',
    all_fail fns w errs w' ->
    globals w' = globals w /\ environ w' = environ w
    /\ calls (log w') = (calls (log w) ++ names)%list
    /\ List.length errs = List.length fns.
Proof.
  intros F w errs w' H. revert names F.
  induction H as [w | fn rest w e w1 errs w' Hfn Hrest IH];
    intros names F; inversion F as [|nm fn' names' rest' Hnm F']; subst.
  - rewrite app_nil_r. auto.
  - destruct (Hnm _ _ _ Hfn) as (g & e1 & c).
    destruct (IH _ F') as (g' & e' & c' & Hl).
    repeat split; try congruence.
    + rewrite c', c, <- app_assoc. reflexivity.
    + cbn. congruence.
Qed.

(** A chain runs to its first success or fails as a whole. *)
Lemma chain_cases {A} (fns : list (M G A)) w :
  (exists i a errs w', first_success fns w i a errs w')
  \/ (exists errs w', all_fail fns w errs w').
Proof.
  revert w. induction fns as [|fn rest IH]; intros w.
  - right. exists [], w. constructor.
  - destruct (fn w) as [[a|e] w1] eqn:E.
    + left. exists 0%nat, a, [], w1. constructor. exact E.
    + destruct (IH w1) as [(i & a & errs & w' & H) | (errs & w' & H)].
      * left. exists (S i), a, (e :: errs), w'. econstructor; eauto.
      * right. exists (e :: errs), w'. econstructor; eauto.
Qed.
End Quiet.

Create HintDb quiet.
#[local] Hint Resolve quiet_ret quiet_throw quiet_lift quiet_now quiet_getenv
  quiet_sleep quiet_console quiet_fetch quiet_res_json quiet_res_text : quiet.

Ltac quiet_step :=
  match goal with
  | |- quiet (bind _ _) => apply quiet_bind; [|intro]
  | |- quiet (try_catch _ _) => apply quiet_try_catch; [|intro]
  | |- quiet (match ?x with _ => _ end) => destruct x
  | |- quiet _ => solve [auto with quiet]
  end.

Ltac quiet_tac := repeat quiet_step.

Lemma quiet_retry {A} (read : response -> Vix A) fname url attempts delay :
  (forall r, quiet (read r)) ->
  forall fuel i lastErr, quiet (retry read fname url attempts delay fuel i lastErr).
Proof.
  intros Hread. induction fuel as [|fuel IH]; intros i lastErr; cbn [retry].
  - quiet_tac.
  - unfold request. quiet_tac; auto.
Qed.

Lemma quiet_fetchJsonWithRetry url attempts delay :
  quiet (fetchJsonWithRetry url attempts delay).
Proof. apply quiet_retry. intro; apply quiet_res_json. Qed.

Lemma quiet_fetchTextWithRetry url attempts delay :
  quiet (fetchTextWithRetry url attempts delay).
Proof. apply quiet_retry. intro; apply quiet_res_text. Qed.

#[local] Hint Resolve quiet_fetchJsonWithRetry quiet_fetchTextWithRetry : quiet.

Lemma announces_fromFRED : announces "fromFRED" fromFRED.
Proof. apply announces_enter. quiet_tac. Qed.

Lemma announces_fromFMP : announces "fromFMP" fromFMP.
Proof. apply announces_enter. quiet_tac. Qed.

Lemma announces_fromCBOE : announces "fromCBOE" fromCBOE.
Proof. apply announces_enter. quiet_tac. Qed.

Lemma announces_fromStooq : announces "fromStooq" fromStooq.
Proof. apply announces_enter. quiet_tac. Qed.

Lemma announces_tdGold : announces "tdGold" Gold.tdGold.
Proof. apply announces_enter. quiet_tac. Qed.

Lemma announces_fmpGold : announces "fmpGold" Gold.fmpGold.
Proof. apply announces_enter. quiet_tac. Qed.

Lemma announces_fredLatestPair seriesId :
  announces ("fredLatestPair(" ++ seriesId ++ ")") (Gold.fredLatestPair seriesId).
Proof. apply announces_enter. quiet_tac. Qed.

Lemma vix_sources_announce : Forall2 announces vix_names vix_sources.
Proof.
  unfold vix_names, vix_sources.
  apply Forall2_cons; [apply announces_fromFRED|].
  apply Forall2_cons; [apply announces_fromFMP|].
  apply Forall2_cons; [apply announces_fromCBOE|].
  apply Forall2_cons; [apply announces_fromStooq|].
  apply Forall2_nil.
Qed.

Lemma gold_sources_announce : Forall2 announces gold_names Gold.attempts.
Proof.
  unfold gold_names, Gold.attempts.
  apply Forall2_cons; [apply announces_tdGold|].
  apply Forall2_cons; [apply announces_fmpGold|].
  apply Forall2_cons; [apply (announces_fredLatestPair "GOLDPMGBD228NLBM")|].
  apply Forall2_cons; [apply (announces_fredLatestPair "GOLDAMGBD228NLBM")|].
  apply Forall2_nil.
Qed.

(** *** The handler of vixIndex.js over any four sources *)

Lemma block_ok src (a : Vix quote) tried w q w1 :
  a w = (Ok q, w1) ->
  block src a tried w
  = (Ok (inl (respond 200 (live_payload q (clock w1)))),
     with_globals w1 (remember q (clock w1))).
Proof. intros H. unfold block, try_catch, bind. rewrite H. reflexivity. Qed.

Lemma block_throw src (a : Vix quote) tried w e w1 :
  a w = (Throw e, w1) ->
  block src a tried w = (Ok (inr (tried ++ [tried_failed src e])%list), w1).
Proof. intros H. unfold block, try_catch, bind. rewrite H. reflexivity. Qed.

Lemma handler_of_first_success a1 a2 a3 a4 w i q errs w1 :
  first_success [a1; a2; a3; a4] w i q errs w1 ->
  handler_of a1 a2 a3 a4 w
  = (Ok (respond 200 (live_payload q (clock w1))),
     with_globals w1 (remember q (clock w1))).
Proof.
  intros H. unfold handler_of.
  repeat match goal with
         | H : first_success _ _ _ _ _ _ |- _ => inversion H; clear H; subst
         end;
    unfold try_catch at 1, bind at 1;
    repeat match goal with
           | H : ?a ?w = (Ok _, _) |- context [block _ ?a _ ?w] =>
               rewrite (block_ok _ _ _ _ _ _ H)
           | H : ?a ?w = (Throw _, _) |- context [block _ ?a _ ?w] =>
               rewrite (block_throw _ _ _ _ _ _ H);
               unfold try_catch at 1, bind at 1
           end; reflexivity.
Qed.

Lemma last_resort_quiet_run tried w :
  exists a, last_resort tried w = (Ok a, w).
Proof.
  unfold last_resort, bind, now, get_global.
  destruct (cached_price (globals w)); [|eexists; reflexivity].
  destruct (_ <? _); eexists; reflexivity.
Qed.

Lemma handler_of_all_fail a1 a2 a3 a4 w errs w1 :
  all_fail [a1; a2; a3; a4] w errs w1 ->
  handler_of a1 a2 a3 a4 w = last_resort (failures vix_labels errs) w1.
Proof.
  intros H. unfold handler_of.
  repeat match goal with
         | H : all_fail _ _ _ _ |- _ => inversion H; clear H; subst
         end.
  repeat (unfold try_catch at 1, bind at 1;
          match goal with
          | H : ?a ?w = (Throw _, _) |- context [block _ ?a _ ?w] =>
              rewrite (block_throw _ _ _ _ _ _ H)
          end).
  cbn [app failures vix_labels].
  unfold try_catch.
  destruct (last_resort_quiet_run
              [tried_failed "FRED" e; tried_failed "FMP" e0;
               tried_failed "CBOE" e1; tried_failed "Stooq" e2] w1) as (a & Ha).
  rewrite Ha. reflexivity.
Qed.

(** ** The chains *)

Lemma try_each_first_success fns :
  forall tried w i q errs w1,
    first_success fns w i q errs w1 ->
    Gold.try_each fns tried w
    = (Ok (Gold.respond 200 (Gold.success_payload q (clock w1))), w1).
Proof.
  intros tried w i q errs w1 H. revert tried.
  induction H as [fn rest w a w' Hfn | fn rest w e w1 i a errs w' Hfn Hrest IH];
    intros tried; cbn [Gold.try_each]; unfold bind at 1, try_catch, bind at 1;
    rewrite Hfn.
  - reflexivity.
  - cbn. apply IH.
Qed.

Lemma try_each_all_fail fns :
  forall tried w errs w1,
    all_fail fns w errs w1 ->
    Gold.try_each fns tried w
    = (Ok (Gold.respond 200
             (Gold.failure_payload (tried ++ map Gold.describe errs) (clock w1))),
       w1).
Proof.
  intros tried w errs w1 H. revert tried.
  induction H as [w | fn rest w e w1 errs w' Hfn Hrest IH];
    intros tried; cbn [Gold.try_each].
  - cbn. rewrite app_nil_r. reflexivity.
  - unfold bind at 1, try_catch, bind at 1. rewrite Hfn. unfold ret.
    cbn beta iota. rewrite IH. cbn [map]. rewrite <- app_assoc. reflexivity.
Qed.

(** The answers to a success, field by field. *)
Lemma live_answer_fields (q : VixIndex.quote) t :
  statusCode (VixIndex.respond 200 (live_payload q t)) = 200
  /\ headers (VixIndex.respond 200 (live_payload q t))
     = [ ("Content-Type", "application/json");
         ("Access-Control-Allow-Origin", "*");
         ("Cache-Control", "no-store, must-revalidate") ]
  /\ body (VixIndex.respond 200 (live_payload q t))
     = VObj [ ("price", stringify (VNum (VixIndex.price q)));
              ("changePercent",
               match VixIndex.changePercent q with
               | Some x => stringify (VNum x)
               | None => VNull
               end);
              ("source", VStr (VixIndex.source q));
              ("timestamp", VStr (toISOString t)) ].
Proof.
  split; [reflexivity|]. split; [reflexivity|].
  destruct q as [p [c|] src]; reflexivity.
Qed.

Lemma gold_answer_fields (q : Gold.quote) t :
  statusCode (Gold.respond 200 (Gold.success_payload q t)) = 200
  /\ headers (Gold.respond 200 (Gold.success_payload q t))
     = [ ("Content-Type", "application/json");
         ("Access-Control-Allow-Origin", "*") ]
  /\ body (Gold.respond 200 (Gold.success_payload q t))
     = VObj [ ("price", stringify (VNum (Gold.price q)));
              ("pct",
               match Gold.pct q with
               | Some x => stringify (VNum x)
               | None => VNull
               end);
              ("source", VStr (Gold.source q));
              ("timestamp", VStr (toISOString t)) ].
Proof.
  split; [reflexivity|]. split; [reflexivity|].
  destruct q as [p [c|] src]; reflexivity.
Qed.

(** C1: in both chains (the handler of vixIndex.js and the handler of
    gold.js), when the sources before position [i] throw and the source at
    position [i] returns a result [q], the handler returns, in the world
    that source left (for vixIndex.js, with [cached] set from [q]), the
    answer with the status 200 whose body is the object of the fields of
    [q], as [JSON.stringify] writes them, and of the time then; the
    functions entered are those of positions [0..i] and no other, so the
    sources after [i] are not invoked. *)
Theorem first_success_returns_at_once :
  (forall w i q errs w1,
      first_success vix_sources w i q errs w1 ->
      exists a,
        VixIndex.handler w = (Ok a, with_globals w1 (remember q (clock w1)))
        /\ a = VixIndex.respond 200 (live_payload q (clock w1))
        /\ statusCode a = 200
        /\ headers a
           = [ ("Content-Type", "application/json");
               ("Access-Control-Allow-Origin", "*");
               ("Cache-Control", "no-store, must-revalidate") ]
        /\ body a
           = VObj [ ("price", stringify (VNum (VixIndex.price q)));
                    ("changePercent",
                     match VixIndex.changePercent q with
                     | Some x => stringify (VNum x)
                     | None => VNull
                     end);
                    ("source", VStr (VixIndex.source q));
                    ("timestamp", VStr (toISOString (clock w1))) ]
        /\ calls (log w1) = (calls (log w) ++ firstn (S i) vix_names)%list)
  /\ (forall w i q errs w1,
      first_success Gold.attempts w i q errs w1 ->
      exists a,
        Gold.handler w = (Ok a, w1)
        /\ a = Gold.respond 200 (Gold.success_payload q (clock w1))
        /\ statusCode a = 200
        /\ headers a
           = [ ("Content-Type", "application/json");
               ("Access-Control-Allow-Origin", "*") ]
        /\ body a
           = VObj [ ("price", stringify (VNum (Gold.price q)));
                    ("pct",
                     match Gold.pct q with
                     | Some x => stringify (VNum x)
                     | None => VNull
                     end);
                    ("source", VStr (Gold.source q));
                    ("timestamp", VStr (toISOString (clock w1))) ]
        /\ calls (log w1) = (calls (log w) ++ firstn (S i) gold_names)%list).
Proof.
  split; intros w i q errs w1 H.
  - destruct (live_answer_fields q (clock w1)) as (Hs & Hh & Hb).
    eexists. split; [apply (handler_of_first_success _ _ _ _ _ _ _ _ _ H)|].
    split; [reflexivity|]. split; [exact Hs|]. split; [exact Hh|].
    split; [exact Hb|].
    apply (first_success_calls _ _ vix_sources_announce _ _ _ _ _ H).
  - destruct (gold_answer_fields q (clock w1)) as (Hs & Hh & Hb).
    eexists. split; [apply (try_each_first_success _ _ _ _ _ _ _ H)|].
    split; [reflexivity|]. split; [exact Hs|]. split; [exact Hh|].
    split; [exact Hb|].
    apply (first_success_calls _ _ gold_sources_announce _ _ _ _ _ H).
Qed.

Lemma first_success_returns_at_once_witness :
  (exists a,
      VixIndex.handler world_fmp
      = (Ok a, with_globals (snd (fromFMP (snd (fromFRED world_fmp))))
                 (remember fmp_quote_14 1700000000040))
      /\ statusCode a = 200
      /\ body a
         = VObj [ ("price", VNum (Num.of_Z 14));
                  ("changePercent", VNum (NumStr.parseFloat "1.24"));
                  ("source", VStr "FMP ^VIX");
                  ("timestamp", VStr "2023-11-14T22:13:20.040Z") ]
      /\ calls (log (snd (fromFMP (snd (fromFRED world_fmp)))))
         = ["fromFRED"; "fromFMP"])
  /\ (exists a,
      Gold.handler world_gold = (Ok a, snd (Gold.tdGold world_gold))
      /\ statusCode a = 200
      /\ body a
         = VObj [ ("price", VNum (NumStr.parseFloat "2650.50"));
                  ("pct", VNum (NumStr.parseFloat "0.42"));
                  ("source", VStr "TwelveData XAU/USD");
                  ("timestamp", VStr "2023-11-14T22:13:20.040Z") ]
      /\ calls (log (snd (Gold.tdGold world_gold))) = ["tdGold"]).
Proof.
  split.
  - assert (H : first_success vix_sources world_fmp 1 fmp_quote_14
                  [Error "FRED_KEY missing"]
                  (snd (fromFMP (snd (fromFRED world_fmp))))).
    { eapply fs_later; [vm_compute; reflexivity|].
      eapply fs_here. vm_compute. reflexivity. }
    destruct (proj1 first_success_returns_at_once _ _ _ _ _ H)
      as (a & Hrun & Ha & Hs & _ & Hb & Hc).
    exists a. split; [exact Hrun|]. split; [exact Hs|].
    split; [|exact Hc].
    rewrite Hb. vm_compute. reflexivity.
  - assert (H : first_success Gold.attempts world_gold 0 gold_quote_2650 []
                  (snd (Gold.tdGold world_gold))).
    { eapply fs_here. vm_compute. reflexivity. }
    destruct (proj2 first_success_returns_at_once _ _ _ _ _ H)
      as (a & Hrun & Ha & Hs & _ & Hb & Hc).
    exists a. split; [exact Hrun|]. split; [exact Hs|].
    split; [|exact Hc].
    rewrite Hb. vm_compute. reflexivity.
Defined.

Lemma last_resort_fresh tried w p :
  cached_price (globals w) = Some p ->
  clock w - cached_timestamp (globals w) < window ->
  last_resort tried w
  = (Ok (VixIndex.respond 200 (cached_payload (globals w) tried (clock w))), w).
Proof.
  intros Hp Hage. unfold last_resort, bind, now, get_global. rewrite Hp.
  apply Z.ltb_lt in Hage. unfold window in Hage. rewrite Hage. reflexivity.
Qed.

Lemma last_resort_stale tried w :
  cached_price (globals w) = None
  \/ window <= clock w - cached_timestamp (globals w) ->
  last_resort tried w
  = (Ok (VixIndex.respond 500
           (failure_payload "All sources failed and no fresh cache" tried (clock w))),
     w).
Proof.
  intros H. unfold last_resort, bind, now, get_global.
  destruct (cached_price (globals w)) as [p|]; [|reflexivity].
  destruct H as [H|H]; [discriminate|].
  apply Z.ltb_ge in H. unfold window in H. rewrite H. reflexivity.
Qed.

Lemma failures_not_ok labels errs :
  Forall (fun v => prop v "ok" = VBool false) (failures labels errs).
Proof.
  revert errs. induction labels as [|l ls IH]; intros [|e es]; cbn; constructor;
    [reflexivity | apply IH].
Qed.

Lemma failures_length labels errs :
  List.length labels = List.length errs ->
  List.length (failures labels errs) = List.length errs.
Proof.
  revert errs. induction labels as [|l ls IH]; intros [|e es]; cbn; intros H;
    try reflexivity; try discriminate.
  f_equal. apply IH. congruence.
Qed.

(** C2: in the handler of vixIndex.js, when every source of the chain
    fails, and [cached] holds a price that is not [null] and is younger than
    the window of two hours when it is consulted, the handler answers HTTP
    200 with the price and the change of the cache, the source of the cache
    followed by [" (cached)"], and the four entries of the diagnostics as
    [_debug.tried]. *)
Theorem cached_fallback_when_fresh :
  forall (w : world cache) (errs : list error) (w1 : world cache) (p : Num.number),
    all_fail vix_sources w errs w1 ->
    cached_price (globals w) = Some p ->
    clock w1 - cached_timestamp (globals w) < window ->
    exists answer,
      VixIndex.handler w = (Ok answer, w1)
      /\ statusCode answer = 200
      /\ prop (body answer) "price" = stringify (VNum p)
      /\ prop (body answer) "changePercent"
         = stringify (of_nullable (cached_changePercent (globals w)))
      /\ prop (body answer) "source" = VStr (cached_source (globals w) ++ " (cached)")
      /\ prop (prop (body answer) "_debug") "tried" = VArr (failures vix_labels errs)
      /\ List.length (failures vix_labels errs) = 4%nat.
Proof.
  intros w errs w1 p H Hp Hage.
  destruct (all_fail_calls _ _ vix_sources_announce _ _ _ H) as (Hg & _ & _ & Hlen).
  unfold VixIndex.handler. rewrite (handler_of_all_fail _ _ _ _ _ _ _ H).
  rewrite (last_resort_fresh _ _ p) by (rewrite Hg; assumption).
  eexists. split; [reflexivity|]. rewrite Hg.
  split; [reflexivity|].
  split; [cbn; rewrite Hp; reflexivity|].
  split; [cbn; rewrite Hp; destruct (cached_changePercent (globals w)); reflexivity|].
  split; [cbn; rewrite Hp; destruct (cached_changePercent (globals w)); reflexivity|].
  split.
  - destruct errs as [|e1 [|e2 [|e3 [|e4 [|e5 errs]]]]]; try discriminate Hlen.
    cbn. rewrite Hp. destruct (cached_changePercent (globals w)); reflexivity.
  - rewrite failures_length; [exact Hlen | rewrite Hlen; reflexivity].
Qed.

Lemma cached_fallback_when_fresh_witness :
  exists errs w1 answer,
    all_fail vix_sources world_warm errs w1
    /\ VixIndex.handler world_warm = (Ok answer, w1)
    /\ statusCode answer = 200
    /\ prop (body answer) "source" = VStr "FMP ^VIX (cached)".
Proof.
  assert (H : exists errs w1,
             all_fail vix_sources world_warm errs w1
             /\ clock w1 - cached_timestamp (globals world_warm) < window).
  { do 2 eexists. split.
    - repeat (eapply af_cons; [vm_compute; reflexivity|]). apply af_nil.
    - vm_compute. reflexivity. }
  destruct H as (errs & w1 & H & Hage).
  destruct (cached_fallback_when_fresh world_warm errs w1 (Num.of_Z 14) H eq_refl Hage)
    as (answer & Hrun & Hcode & _ & _ & Hsrc & _).
  exists errs, w1, answer. auto.
Defined.

(** C3 as stated fails for dxy.js: with no key for FRED its one source
    fails, and the body of the HTTP 500 answer has no [_debug.tried]. *)
Lemma dxy_failure_carries_no_tried :
  exists answer w',
    Dxy.handler (Dxy.enter env_none [] 0) = (Ok answer, w')
    /\ statusCode answer = 500
    /\ ~ has_error_and_tried (body answer).
Proof.
  do 2 eexists. split; [vm_compute; reflexivity|].
  split; [reflexivity|].
  intros [_ [tried H]]. vm_compute in H. discriminate H.
Qed.

Lemma vix_total_failure (w : world cache) (errs : list error) (w1 : world cache) :
  all_fail vix_sources w errs w1 ->
  cached_price (globals w) = None
  \/ window <= clock w1 - cached_timestamp (globals w) ->
  exists answer,
    VixIndex.handler w = (Ok answer, w1)
    /\ statusCode answer = 500
    /\ body answer
       = VObj [ ("error", VStr "All sources failed and no fresh cache");
                ("_debug", VObj [ ("tried", VArr (failures vix_labels errs)) ]);
                ("timestamp", VStr (toISOString (clock w1))) ]
    /\ List.length (failures vix_labels errs) = 4%nat
    /\ Forall (fun v => prop v "ok" = VBool false) (failures vix_labels errs).
Proof.
  intros H Hstale.
  destruct (all_fail_calls _ _ vix_sources_announce _ _ _ H) as (Hg & _ & _ & Hlen).
  unfold VixIndex.handler. rewrite (handler_of_all_fail _ _ _ _ _ _ _ H).
  rewrite last_resort_stale by (rewrite Hg; assumption).
  eexists. split; [reflexivity|].
  split; [reflexivity|].
  split.
  - destruct errs as [|e1 [|e2 [|e3 [|e4 [|e5 errs]]]]]; try discriminate Hlen.
    reflexivity.
  - split; [|apply failures_not_ok].
    rewrite failures_length; [exact Hlen | rewrite Hlen; reflexivity].
Qed.

(** C3, amended: when every source of the VIX chain fails and the cache is
    empty or not fresh, the handler answers HTTP 500 with the body
    [{ error, _debug: { tried }, timestamp }], [tried] holding one entry per
    source (four, each with [ok: false]); when the one source of dxy.js
    fails, its handler answers HTTP 500 with the body [{ error, timestamp }],
    the message of the error and no list of diagnostics. *)
Theorem total_failure_answers :
  (forall (w : world cache) (errs : list error) (w1 : world cache),
      all_fail vix_sources w errs w1 ->
      cached_price (globals w) = None
      \/ window <= clock w1 - cached_timestamp (globals w) ->
      exists answer,
        VixIndex.handler w = (Ok answer, w1)
        /\ statusCode answer = 500
        /\ body answer
           = VObj [ ("error", VStr "All sources failed and no fresh cache");
                    ("_debug", VObj [ ("tried", VArr (failures vix_labels errs)) ]);
                    ("timestamp", VStr (toISOString (clock w1))) ]
        /\ List.length (failures vix_labels errs) = 4%nat
        /\ Forall (fun v => prop v "ok" = VBool false) (failures vix_labels errs))
  /\ (forall (w : world unit) (e : error) (w1 : world unit),
      Dxy.attempt w = (Throw e, w1) ->
      exists answer w',
        Dxy.handler w = (Ok answer, w')
        /\ statusCode answer = 500
        /\ body answer
           = VObj [ ("error", VStr (message e));
                    ("timestamp", VStr (toISOString (clock w1))) ]).
Proof.
  split.
  - apply vix_total_failure.
  - intros w e w1 H. unfold Dxy.handler, try_catch. rewrite H.
    do 2 eexists. split; [reflexivity|]. split; reflexivity.
Qed.

Lemma total_failure_answers_witness :
  exists errs w1 answer,
    all_fail vix_sources world_cold errs w1
    /\ VixIndex.handler world_cold = (Ok answer, w1)
    /\ statusCode answer = 500.
Proof.
  assert (H : exists errs w1, all_fail vix_sources world_cold errs w1).
  { do 2 eexists. repeat (eapply af_cons; [vm_compute; reflexivity|]). apply af_nil. }
  destruct H as (errs & w1 & H).
  destruct (proj1 total_failure_answers world_cold errs w1 H (or_introl eq_refl))
    as (answer & Hrun & Hcode & _).
  exists errs, w1, answer. auto.
Defined.

(** C6 as stated fails: with no key and no network every source of gold.js
    fails, and the body of the HTTP 200 answer is not the neutral payload
    [{ price: 0, pct: null }]. *)
Lemma gold_failure_is_not_neutral :
  exists answer w',
    Gold.handler (Gold.enter env_none [] 0) = (Ok answer, w')
    /\ statusCode answer = 200
    /\ ~ neutral_payload (body answer).
Proof.
  do 2 eexists. split; [vm_compute; reflexivity|].
  split; [reflexivity|].
  intros [H _]. vm_compute in H. discriminate H.
Qed.

(** C6, amended: when all four sources of gold.js fail, the handler answers
    HTTP 200 (not 500) with the body
    [{ error: "All gold sources failed", _debug: { tried }, timestamp }],
    [tried] holding the four messages in the order of the chain. *)
Theorem gold_total_failure_answers :
  forall (w : world unit) (errs : list error) (w1 : world unit),
    all_fail Gold.attempts w errs w1 ->
    exists answer,
      Gold.handler w = (Ok answer, w1)
      /\ statusCode answer = 200
      /\ body answer
         = VObj [ ("error", VStr "All gold sources failed");
                  ("_debug",
                   VObj [ ("tried", VArr (map VStr (map Gold.describe errs))) ]);
                  ("timestamp", VStr (toISOString (clock w1))) ]
      /\ List.length errs = 4%nat.
Proof.
  intros w errs w1 H.
  destruct (all_fail_calls _ _ gold_sources_announce _ _ _ H) as (_ & _ & _ & Hlen).
  unfold Gold.handler. rewrite (try_each_all_fail _ _ _ _ _ H).
  eexists. split; [reflexivity|]. split; [reflexivity|]. split; [|exact Hlen].
  destruct errs as [|e1 [|e2 [|e3 [|e4 [|e5 errs]]]]]; try discriminate Hlen.
  reflexivity.
Qed.

Lemma gold_total_failure_answers_witness :
  exists errs w1 answer,
    all_fail Gold.attempts (Gold.enter env_none [] 0) errs w1
    /\ Gold.handler (Gold.enter env_none [] 0) = (Ok answer, w1)
    /\ statusCode answer = 200
    /\ prop (body answer) "error" = VStr "All gold sources failed".
Proof.
  assert (H : exists errs w1, all_fail Gold.attempts (Gold.enter env_none [] 0) errs w1).
  { do 2 eexists. repeat (eapply af_cons; [vm_compute; reflexivity|]). apply af_nil. }
  destruct H as (errs & w1 & H).
  destruct (gold_total_failure_answers _ errs w1 H) as (answer & Hrun & Hcode & Hbody & _).
  exists errs, w1, answer. repeat split; auto.
  rewrite Hbody. reflexivity.
Defined.

Lemma bind_ok_inv {G A B} (m : M G A) (k : A -> M G B) w b w' :
  bind m k w = (Ok b, w') ->
  exists a w1, m w = (Ok a, w1) /\ k a w1 = (Ok b, w').
Proof.
  unfold bind. destruct (m w) as [[a|e] w1]; intros H; [eauto | discriminate].
Qed.

Lemma lift_ok_inv {G A} (x : result A) (w : world G) a w' :
  lift x w = (Ok a, w') -> x = Ok a.
Proof. destruct x; cbn; intros H; inversion H; reflexivity. Qed.

Ltac peel H :=
  repeat match type of H with
         | bind _ _ _ = (Ok _, _) =>
             let a := fresh "a" in let w := fresh "w" in let H1 := fresh "H" in
             apply bind_ok_inv in H; destruct H as (a & w & H1 & H)
         | (match ?x with _ => _ end) _ = (Ok _, _) => destruct x; try discriminate H
         | (if ?x then _ else _) _ = (Ok _, _) => destruct x; try discriminate H
         | lift _ _ = (Ok _, _) => apply lift_ok_inv in H
         end.

Lemma fred_quote_source json q :
  fred_quote json = Ok q -> VixIndex.source q = "FRED VIXCLS (daily close)".
Proof.
  unfold fred_quote. destruct (fred_obs json) as [[|o l]|e]; intros H;
    inversion H; reflexivity.
Qed.

Lemma fmp_quote_source arr q :
  VixIndex.fmp_quote arr = Ok q -> VixIndex.source q = "FMP ^VIX".
Proof.
  unfold VixIndex.fmp_quote. destruct arr as [| | | | |[|x l]|]; try discriminate.
  destruct (negb _); intros H; inversion H; reflexivity.
Qed.

Lemma cboe_quote_source csv q :
  cboe_quote csv = Ok q -> VixIndex.source q = "CBOE CSV".
Proof.
  unfold cboe_quote.
  repeat match goal with
         | |- (if ?b then Throw _ else _) = _ -> _ => destruct b; [discriminate|]
         end.
  intros H; inversion H; reflexivity.
Qed.

Lemma stooq_quote_source csv q :
  stooq_quote csv = Ok q -> VixIndex.source q = "Stooq CSV".
Proof.
  unfold stooq_quote.
  repeat match goal with
         | |- (if ?b then Throw _ else _) = _ -> _ => destruct b; [discriminate|]
         end.
  intros H; inversion H; reflexivity.
Qed.

Lemma fromFRED_source w q w' :
  fromFRED w = (Ok q, w') -> VixIndex.source q = "FRED VIXCLS (daily close)".
Proof. unfold fromFRED. intros H. peel H. eapply fred_quote_source; eauto. Qed.

Lemma fromFMP_source w q w' :
  fromFMP w = (Ok q, w') -> VixIndex.source q = "FMP ^VIX".
Proof. unfold fromFMP. intros H. peel H. eapply fmp_quote_source; eauto. Qed.

Lemma fromCBOE_source w q w' :
  fromCBOE w = (Ok q, w') -> VixIndex.source q = "CBOE CSV".
Proof. unfold fromCBOE. intros H. peel H. eapply cboe_quote_source; eauto. Qed.

Lemma fromStooq_source w q w' :
  fromStooq w = (Ok q, w') -> VixIndex.source q = "Stooq CSV".
Proof. unfold fromStooq. intros H. peel H. eapply stooq_quote_source; eauto. Qed.

Lemma first_success_source w i q errs w1 :
  first_success vix_sources w i q errs w1 -> In (VixIndex.source q) vix_source_labels.
Proof.
  intros H. unfold vix_sources in H.
  repeat match goal with
         | H : first_success _ _ _ _ _ _ |- _ => inversion H; clear H; subst
         end.
  - left. symmetry. eapply fromFRED_source; eauto.
  - right; left. symmetry. eapply fromFMP_source; eauto.
  - right; right; left. symmetry. eapply fromCBOE_source; eauto.
  - right; right; right; left. symmetry. eapply fromStooq_source; eauto.
Qed.

Lemma live_answer_not_cached q t :
  In (VixIndex.source q) vix_source_labels ->
  ~ is_cached_answer (VixIndex.respond 200 (live_payload q t)).
Proof.
  intros Hin (s & Hs & Hend).
  assert (E : s = VixIndex.source q).
  { cbn in Hs. destruct (VixIndex.changePercent q); cbn in Hs;
      inversion Hs; reflexivity. }
  subst s. cbn in Hin.
  destruct Hin as [H|[H|[H|[H|[]]]]]; rewrite <- H in Hend; vm_compute in Hend;
    discriminate Hend.
Qed.

Lemma failure_answer_not_cached msg tried t :
  ~ is_cached_answer (VixIndex.respond 500 (failure_payload msg tried t)).
Proof. intros (s & Hs & _). cbn in Hs. discriminate Hs. Qed.

(** What one invocation does, from the cache it finds. *)
Lemma invoke_cases s c :
  (exists i q errs w1,
      first_success vix_sources (enter s c) i q errs w1
      /\ invoke s c = (Ok (VixIndex.respond 200 (live_payload q (clock w1))),
                       with_globals w1 (remember q (clock w1))))
  \/ (exists errs w1 a,
      all_fail vix_sources (enter s c) errs w1
      /\ invoke s c = (Ok a, w1) /\ globals w1 = c
      /\ (cached_price c = None ->
          a = VixIndex.respond 500
                (failure_payload "All sources failed and no fresh cache"
                   (failures vix_labels errs) (clock w1)))).
Proof.
  destruct (chain_cases vix_sources (enter s c))
    as [(i & q & errs & w1 & H) | (errs & w1 & H)].
  - left. exists i, q, errs, w1. split; [exact H|].
    apply (handler_of_first_success _ _ _ _ _ _ _ _ _ H).
  - right.
    destruct (all_fail_calls _ _ vix_sources_announce _ _ _ H) as (Hg & _).
    cbn in Hg.
    destruct (last_resort_quiet_run (failures vix_labels errs) w1) as (a & Ha).
    exists errs, w1, a. split; [exact H|].
    unfold invoke, VixIndex.handler.
    rewrite (handler_of_all_fail _ _ _ _ _ _ _ H).
    split; [exact Ha|]. split; [exact Hg|].
    intros Hnone. rewrite last_resort_stale in Ha by (left; congruence).
    inversion Ha. reflexivity.
Qed.

Lemma serve_cached_needs_success :
  forall loaded ss c k a,
    cached_price c = None ->
    nth_error (fst (serve loaded ss c)) k = Some (Ok a) ->
    is_cached_answer a ->
    exists j s,
      (j < k)%nat /\ nth_error ss j = Some s
      /\ succeeded (at_load loaded s) (snd (serve loaded (firstn j ss) c)).
Proof.
  intros loaded.
  induction ss as [|s rest IH]; intros c k a Hnone Hk Hcached.
  - destruct k; discriminate Hk.
  - cbn [serve] in Hk.
    destruct (invoke_cases (at_load loaded s) c)
      as [(i & q & errs & w1 & Hfs & Hrun) | (errs & w1 & a0 & Haf & Hrun & Hg & Hans)].
    + rewrite Hrun in Hk.
      destruct (serve loaded rest
                  (globals (with_globals w1 (remember q (clock w1)))))
        as [rs c'] eqn:E.
      destruct k as [|k].
      * cbn in Hk. inversion Hk; subst a.
        exfalso. eapply live_answer_not_cached; [|exact Hcached].
        eapply first_success_source; eauto.
      * exists 0%nat, s. split; [lia|]. split; [reflexivity|].
        cbn. exists i, q, errs, w1. exact Hfs.
    + rewrite Hrun in Hk.
      destruct (serve loaded rest (globals w1)) as [rs c'] eqn:E.
      destruct k as [|k].
      * cbn in Hk. inversion Hk; subst a.
        rewrite (Hans Hnone) in Hcached.
        exfalso. eapply failure_answer_not_cached; eauto.
      * cbn in Hk. rewrite Hg in E.
        destruct (IH c k a Hnone) as (j & s' & Hj & Hs' & Hsucc);
          [rewrite E; exact Hk | exact Hcached |].
        exists (S j), s'. split; [lia|]. split; [exact Hs'|].
        cbn [firstn serve]. rewrite Hrun, Hg.
        destruct (serve loaded (firstn j rest) c) as [rs' c''] eqn:E'.
        cbn. cbn in Hsucc. exact Hsucc.
Qed.

(** C10: in vixIndex.js, [cached] starts with a [null] price and the
    timestamp 0; an invocation leaves it as it was or sets it whole from the
    result of the source that succeeded and the time then; in a process that
    starts cold, whatever environment the module was loaded with, an answer
    whose source ends in [" (cached)"] comes after an invocation of that
    process in which a source succeeded; and on a cold start a total
    failure is answered HTTP 500, not from the cache. *)
Theorem cached_answer_needs_earlier_success :
  (cached_price cached0 = None /\ cached_timestamp cached0 = 0)
  /\ (forall s c r w',
         invoke s c = (r, w') ->
         globals w' = c
         \/ exists i q errs w1,
             first_success vix_sources (enter s c) i q errs w1
             /\ globals w' = remember q (clock w1))
  /\ (forall loaded ss k a,
         nth_error (fst (serve loaded ss cached0)) k = Some (Ok a) ->
         is_cached_answer a ->
         exists j s,
           (j < k)%nat /\ nth_error ss j = Some s
           /\ succeeded (at_load loaded s) (cache_before loaded ss j))
  /\ (forall s errs w1,
         all_fail vix_sources (enter s cached0) errs w1 ->
         exists a,
           invoke s cached0 = (Ok a, w1)
           /\ statusCode a = 500 /\ ~ is_cached_answer a).
Proof.
  split; [split; reflexivity|]. split; [|split].
  - intros s c r w' Hrun.
    destruct (invoke_cases s c)
      as [(i & q & errs & w1 & Hfs & Hrun') | (errs & w1 & a0 & Haf & Hrun' & Hg & _)];
      rewrite Hrun' in Hrun; inversion Hrun; subst.
    + right. exists i, q, errs, w1. split; [exact Hfs | reflexivity].
    + left. reflexivity.
  - intros loaded ss k a Hk Hcached.
    apply (serve_cached_needs_success loaded ss cached0 k a eq_refl Hk Hcached).
  - intros s errs w1 H.
    destruct (vix_total_failure _ _ _ H (or_introl eq_refl))
      as (a & Hrun & Hcode & Hbody & _).
    exists a. split; [exact Hrun|]. split; [exact Hcode|].
    intros (src & Hs & _). rewrite Hbody in Hs. discriminate Hs.
Qed.

Lemma cached_answer_needs_earlier_success_witness :
  exists j s,
    (j < 2)%nat /\ nth_error process_run j = Some s
    /\ succeeded (at_load env_fmp s) (cache_before env_fmp process_run j).
Proof.
  eapply (proj1 (proj2 (proj2 cached_answer_needs_earlier_success))
            env_fmp process_run 2%nat).
  - vm_compute. reflexivity.
  - eexists. split; vm_compute; reflexivity.
Defined.

(** ** Numbers of the sources *)

Lemma eqb_zero_inv x : Num.eqb x zero = true -> exists s, x = S754_zero s.
Proof.
  destruct x as [s|s| |s m e]; cbn; intros H; try discriminate H.
  - eauto.
  - destruct s; discriminate H.
  - destruct s; discriminate H.
Qed.

Lemma at_index_last {A} (pre : list A) (b a : A) :
  at_index (pre ++ [b; a]) (len (pre ++ [b; a]) - 1) = Some a
  /\ at_index (pre ++ [b; a]) (len (pre ++ [b; a]) - 2) = Some b.
Proof.
  unfold at_index, len. rewrite length_app. cbn [List.length].
  split.
  - replace (_ <? 0) with false by (symmetry; apply Z.ltb_ge; lia).
    replace (Z.to_nat _) with (List.length pre + 1)%nat by lia.
    rewrite nth_error_app2 by lia.
    replace (_ - _)%nat with 1%nat by lia. reflexivity.
  - replace (_ <? 0) with false by (symmetry; apply Z.ltb_ge; lia).
    replace (Z.to_nat _) with (List.length pre + 0)%nat by lia.
    rewrite nth_error_app2 by lia.
    replace (_ - _)%nat with 0%nat by lia. reflexivity.
Qed.

(** The change of dxy.js over a previous value that is zero is not finite. *)
Lemma dxy_change_over_zero latest s :
  isFinite latest = true ->
  isFinite (round2 (Dxy.change latest (S754_zero s))) = false.
Proof.
  destruct latest as [s0|s0| |s0 m e]; intros H; try discriminate H;
    destruct s, s0; vm_compute; reflexivity.
Qed.

Lemma dxy_change_field latest prior t :
  prop (body (Dxy.respond 200 (Dxy.payload latest prior t))) "changePercent"
  = stringify (VNum (round2 (Dxy.change latest prior))).
Proof. reflexivity. Qed.

Lemma cboe_quote_inv csv q :
  cboe_quote csv = Ok q ->
  isFinite (last_close csv) = true
  /\ VixIndex.price q = round2 (last_close csv)
  /\ VixIndex.changePercent q
     = if (3 <=? len (rows (Str.trim csv)))
          && (5 <=? len (last_row (rows (Str.trim csv)) 2))
          && isFinite (previous_close csv)
          && negb (Num.eqb (previous_close csv) zero)
       then Some (round2 (percent (last_close csv) (previous_close csv)))
       else None.
Proof.
  unfold cboe_quote, previous_close, last_close.
  destruct (len (rows (Str.trim csv)) <? 2); [discriminate|].
  destruct (len (last_row (rows (Str.trim csv)) 1) <? 5); [discriminate|].
  destruct (isFinite (close_of (last_row (rows (Str.trim csv)) 1))) eqn:F;
    [|discriminate].
  cbn [negb]. intros H. inversion H; subst q; clear H. cbn.
  split; [reflexivity|]. split; [reflexivity|].
  destruct (3 <=? _); [|reflexivity].
  destruct (5 <=? _); [|reflexivity].
  cbn [andb].
  destruct (isFinite (close_of (last_row (rows (Str.trim csv)) 2))); [|reflexivity].
  cbn [andb]. destruct (negb _); reflexivity.
Qed.

Lemma stooq_quote_inv csv q :
  stooq_quote csv = Ok q ->
  isFinite (last_close csv) = true
  /\ VixIndex.price q = round2 (last_close csv)
  /\ VixIndex.changePercent q
     = if (3 <=? len (rows (Str.trim csv)))
          && isFinite (previous_close csv)
          && negb (Num.eqb (previous_close csv) zero)
       then Some (round2 (percent (last_close csv) (previous_close csv)))
       else None.
Proof.
  unfold stooq_quote, previous_close, last_close.
  destruct (negb _ || _); [discriminate|].
  destruct (len (rows (Str.trim csv)) <? 2); [discriminate|].
  destruct (len (last_row (rows (Str.trim csv)) 1) <? 5); [discriminate|].
  destruct (isFinite (close_of (last_row (rows (Str.trim csv)) 1))) eqn:F;
    [|discriminate].
  cbn [negb]. intros H. inversion H; subst q; clear H. cbn.
  split; [reflexivity|]. split; [reflexivity|].
  destruct (3 <=? _); [|reflexivity].
  cbn [andb].
  destruct (isFinite (close_of (last_row (rows (Str.trim csv)) 2))); [|reflexivity].
  cbn [andb]. destruct (negb _); reflexivity.
Qed.

Lemma fred_quote_pair json latest p rest :
  fred_obs json = Ok (latest :: p :: rest) ->
  fred_quote json
  = Ok {| VixIndex.price := round2 (val latest);
          VixIndex.changePercent := fred_change latest (Some p);
          VixIndex.source := "FRED VIXCLS (daily close)" |}.
Proof. intros H. unfold fred_quote. rewrite H. reflexivity. Qed.

Lemma gold_pair_quote_pair sid json pre b a :
  Gold.clean_of json = Ok (pre ++ [b; a])%list ->
  Gold.pair_quote sid json
  = Ok {| Gold.price := Gold.value_of a;
          Gold.pct := Gold.pair_pct (Gold.value_of a) (Some b);
          Gold.source := "FRED " ++ sid |}.
Proof.
  intros H. unfold Gold.pair_quote. rewrite H.
  destruct (at_index_last pre b a) as [Ha Hb]. rewrite Ha, Hb. reflexivity.
Qed.

Lemma all_pair_of_pair sid json pre b a :
  FetchAllData.clean_of json = Ok (pre ++ [b; a])%list ->
  FetchAllData.pair_of sid json
  = Ok {| FetchAllData.pair_price := FetchAllData.value_of a;
          FetchAllData.pair_pct :=
            FetchAllData.pct_of (FetchAllData.value_of a) (Some b) |}.
Proof.
  intros H. unfold FetchAllData.pair_of. rewrite H. cbv zeta.
  destruct (at_index_last pre b a) as [Ha Hb]. rewrite Ha, Hb. reflexivity.
Qed.

Lemma dxy_answer_pair json t o0 o1 rest a :
  Dxy.observations json = Ok (o0 :: o1 :: rest) ->
  Dxy.answer_of json t = Ok a ->
  isFinite (parseFloat (prop o0 "value")) = true
  /\ isFinite (parseFloat (prop o1 "value")) = true
  /\ a = Dxy.respond 200
           (Dxy.payload (parseFloat (prop o0 "value"))
                        (parseFloat (prop o1 "value")) t).
Proof.
  intros H. unfold Dxy.answer_of. rewrite H.
  destruct (isFinite (parseFloat (prop o0 "value")));
    destruct (isFinite (parseFloat (prop o1 "value")));
    cbn; intros E; inversion E; auto.
Qed.

(** The sources that check the previous value: [fromFRED], [fromCBOE] and
    [fromStooq] of vixIndex.js and the two [fredLatestPair] return a [null]
    change when the previous value is zero, of either sign. *)
Lemma guarded_sources_give_null_change :
  (forall json latest p rest,
      fred_obs json = Ok (latest :: p :: rest) ->
      Num.eqb (val p) zero = true ->
      exists q, fred_quote json = Ok q /\ VixIndex.changePercent q = None)
  /\ (forall csv q,
      cboe_quote csv = Ok q ->
      Num.eqb (previous_close csv) zero = true ->
      VixIndex.changePercent q = None)
  /\ (forall csv q,
      stooq_quote csv = Ok q ->
      Num.eqb (previous_close csv) zero = true ->
      VixIndex.changePercent q = None)
  /\ (forall sid json pre b a,
      Gold.clean_of json = Ok (pre ++ [b; a])%list ->
      Num.eqb (Gold.value_of b) zero = true ->
      exists q, Gold.pair_quote sid json = Ok q /\ Gold.pct q = None)
  /\ (forall sid json pre b a,
      FetchAllData.clean_of json = Ok (pre ++ [b; a])%list ->
      Num.eqb (FetchAllData.value_of b) zero = true ->
      exists q, FetchAllData.pair_of sid json = Ok q
                /\ FetchAllData.pair_pct q = None).
Proof.
  split; [|split; [|split; [|split]]].
  - intros json latest p rest H Hz.
    eexists. split; [apply (fred_quote_pair _ _ _ _ H)|].
    cbn. rewrite Hz. reflexivity.
  - intros csv q H Hz. destruct (cboe_quote_inv _ _ H) as (_ & _ & Hc).
    rewrite Hc, Hz. rewrite !andb_false_r. reflexivity.
  - intros csv q H Hz. destruct (stooq_quote_inv _ _ H) as (_ & _ & Hc).
    rewrite Hc, Hz. rewrite !andb_false_r. reflexivity.
  - intros sid json pre b a H Hz.
    eexists. split; [apply (gold_pair_quote_pair _ _ _ _ _ H)|].
    cbn. rewrite Hz. rewrite andb_false_r. reflexivity.
  - intros sid json pre b a H Hz.
    eexists. split; [apply (all_pair_of_pair _ _ _ _ _ H)|].
    destruct (eqb_zero_inv _ Hz) as (s & Hs). cbn. rewrite Hs. reflexivity.
Qed.

(** dxy.js has no such check: whenever the previous value is zero, the
    change it computes and rounds is not finite. *)
Lemma dxy_answer_over_zero json t o0 o1 rest a :
  Dxy.observations json = Ok (o0 :: o1 :: rest) ->
  Num.eqb (parseFloat (prop o1 "value")) zero = true ->
  Dxy.answer_of json t = Ok a ->
  a = Dxy.respond 200
        (Dxy.payload (parseFloat (prop o0 "value"))
                     (parseFloat (prop o1 "value")) t)
  /\ isFinite (round2 (Dxy.change (parseFloat (prop o0 "value"))
                                  (parseFloat (prop o1 "value")))) = false.
Proof.
  intros H Hz Ha.
  destruct (dxy_answer_pair _ _ _ _ _ _ H Ha) as (F0 & _ & E).
  split; [exact E|].
  destruct (eqb_zero_inv _ Hz) as (s & Hs). rewrite Hs.
  apply (dxy_change_over_zero _ s F0).
Qed.


(** ** Two decimals *)

Section TwoDecimals.

Import NumStr.

Lemma digits_app a : forall rest acc cnt,
  all_digits a = true ->
  digits (a ++ rest) acc cnt = digits rest (horner a acc) (cnt + String.length a)%nat.
Proof.
  induction a as [|c a IH]; intros rest acc cnt H; cbn [append digits horner String.length].
  - rewrite Nat.add_0_r. reflexivity.
  - cbn [all_digits] in H. destruct (digit_val c) as [d|]; [|discriminate H].
    rewrite IH by exact H. f_equal. lia.
Qed.

Lemma all_digits_app a b :
  all_digits (a ++ b) = all_digits a && all_digits b.
Proof.
  induction a as [|c a IH]; [reflexivity|].
  cbn [append all_digits]. destruct (digit_val c); [exact IH | reflexivity].
Qed.

Lemma horner_app a b acc :
  all_digits a = true -> horner (a ++ b) acc = horner b (horner a acc).
Proof.
  revert acc. induction a as [|c a IH]; intros acc H; [reflexivity|].
  cbn [append horner all_digits] in *.
  destruct (digit_val c); [apply IH; exact H | discriminate H].
Qed.

Lemma all_digits_uint u : all_digits (NilEmpty.string_of_uint u) = true.
Proof. induction u; cbn; auto. Qed.

Lemma horner_uint_acc u : forall acc,
  horner (NilEmpty.string_of_uint u) (Npos acc) = Npos (Pos.of_uint_acc u acc).
Proof.
  induction u; intros acc; cbn [NilEmpty.string_of_uint horner Pos.of_uint_acc];
    try reflexivity;
    match goal with
    | |- context [digit_val ?c] =>
        let d := eval vm_compute in (digit_val c) in
        change (digit_val c) with d
    end; cbv iota; rewrite <- IHu; f_equal; lia.
Qed.

Lemma horner_uint u : horner (NilEmpty.string_of_uint u) 0 = N.of_uint u.
Proof.
  unfold N.of_uint.
  induction u; cbn [NilEmpty.string_of_uint horner Pos.of_uint];
    try reflexivity;
    match goal with
    | |- context [digit_val ?c] =>
        let d := eval vm_compute in (digit_val c) in
        change (digit_val c) with d
    end; cbv iota; [exact IHu | ..];
    match goal with
    | |- horner _ ?n = _ =>
        let v := eval vm_compute in n in change n with v
    end; apply horner_uint_acc.
Qed.

Lemma of_N_digits n : all_digits (Str.of_N n) = true /\ horner (Str.of_N n) 0 = n.
Proof.
  assert (Hn : N.to_uint n <> Decimal.Nil).
  { destruct n as [|p]; [discriminate|]. apply DecimalPos.Unsigned.to_uint_nonnil. }
  assert (Hs : Str.of_N n = NilEmpty.string_of_uint (N.to_uint n)).
  { unfold Str.of_N, NilZero.string_of_uint.
    destruct (N.to_uint n); [contradiction | reflexivity ..]. }
  rewrite Hs. split; [apply all_digits_uint|].
  rewrite horner_uint. apply DecimalN.Unsigned.of_to.
Qed.

Lemma all_digits_zeros k : all_digits (Str.zeros k) = true.
Proof. induction k; [reflexivity | exact IHk]. Qed.

Lemma horner_zeros k : forall s, horner (Str.zeros k ++ s) 0 = horner s 0.
Proof. induction k; intros s; [reflexivity | exact (IHk s)]. Qed.

Lemma length_zeros k : String.length (Str.zeros k) = k.
Proof. induction k; cbn; congruence. Qed.

Lemma length_append a b :
  String.length (a ++ b) = (String.length a + String.length b)%nat.
Proof. induction a; cbn; congruence. Qed.

Lemma take_drop k s : Str.take k s ++ Str.drop k s = s.
Proof.
  revert s. induction k as [|k IH]; intros [|c s]; cbn; try reflexivity.
  rewrite IH. reflexivity.
Qed.

Lemma length_drop k s :
  String.length (Str.drop k s) = (String.length s - k)%nat.
Proof.
  revert s. induction k as [|k IH]; intros [|c s]; cbn; try reflexivity.
  apply IH.
Qed.

Lemma length_take k s :
  (k <= String.length s)%nat -> String.length (Str.take k s) = k.
Proof.
  revert s. induction k as [|k IH]; intros [|c s]; cbn; intros H; try reflexivity;
    try lia.
  f_equal. apply IH. lia.
Qed.

Lemma padded_digits n f :
  0 <= n ->
  all_digits (padded n f) = true
  /\ horner (padded n f) 0 = Z.to_N n
  /\ (f < String.length (padded n f))%nat.
Proof.
  intros Hn. unfold padded.
  assert (E : Str.of_Z n = Str.of_N (Z.to_N n)) by (destruct n; [reflexivity.. | lia]).
  rewrite E. destruct (of_N_digits (Z.to_N n)) as [Hd Hv].
  destruct (String.length (Str.of_N (Z.to_N n)) <=? f)%nat eqn:L.
  - apply Nat.leb_le in L.
    rewrite all_digits_app, all_digits_zeros, Hd, horner_zeros, Hv.
    rewrite length_append, length_zeros. repeat split. lia.
  - apply Nat.leb_gt in L. auto.
Qed.

Lemma fixed_digits_layout n f :
  fixed_digits n (S f)
  = Str.take (String.length (padded n (S f)) - S f) (padded n (S f))
    ++ "." ++ Str.drop (String.length (padded n (S f)) - S f) (padded n (S f)).
Proof. reflexivity. Qed.

Lemma append_assoc (a b c : string) : (a ++ b) ++ c = a ++ b ++ c.
Proof. induction a as [|x a IH]; cbn; [reflexivity | rewrite IH; reflexivity]. Qed.

Lemma append_nil_r (a : string) : a ++ "" = a.
Proof. induction a as [|x a IH]; cbn; [reflexivity | rewrite IH; reflexivity]. Qed.

Lemma rev_onto_app s : forall acc, Str.rev_onto s acc = Str.rev_onto s "" ++ acc.
Proof.
  induction s as [|c s IH]; intros acc; [reflexivity|].
  cbn [Str.rev_onto]. rewrite (IH (String c acc)), (IH (String c "")).
  rewrite append_assoc. reflexivity.
Qed.

Lemma rev_append a b : Str.rev (a ++ b) = Str.rev b ++ Str.rev a.
Proof.
  unfold Str.rev. induction a as [|c a IH]; cbn [append Str.rev_onto].
  - rewrite append_nil_r. reflexivity.
  - rewrite (rev_onto_app (a ++ b)), IH, (rev_onto_app a (String c "")).
    rewrite append_assoc. reflexivity.
Qed.

Lemma rev_rev s : Str.rev (Str.rev s) = s.
Proof.
  induction s as [|c s IH]; [reflexivity|].
  change (String c s) with (String c "" ++ s) at 1.
  rewrite rev_append, rev_append, IH. reflexivity.
Qed.

Lemma no_space_app a b : no_space (a ++ b) = no_space a && no_space b.
Proof.
  induction a as [|c a IH]; [reflexivity|].
  cbn [append no_space]. rewrite IH, andb_assoc. reflexivity.
Qed.

Lemma no_space_rev s : no_space (Str.rev s) = no_space s.
Proof.
  induction s as [|c s IH]; [reflexivity|].
  change (String c s) with (String c "" ++ s) at 1.
  rewrite rev_append, no_space_app, IH. cbn [Str.rev Str.rev_onto no_space].
  rewrite andb_true_r, andb_comm. reflexivity.
Qed.

Lemma trimStart_no_space s : no_space s = true -> Str.trimStart s = s.
Proof.
  destruct s as [|c s]; [reflexivity|]. cbn [no_space Str.trimStart].
  destruct (Str.is_space c); [discriminate | reflexivity].
Qed.

Lemma trim_no_space s : no_space s = true -> Str.trim s = s.
Proof.
  intros H. unfold Str.trim, Str.trimEnd.
  rewrite (trimStart_no_space s H).
  rewrite trimStart_no_space by (rewrite no_space_rev; exact H).
  apply rev_rev.
Qed.

(** A digit is none of the characters that the grammar of numbers gives a
    meaning to. *)
Lemma digit_plain c d :
  digit_val c = Some d ->
  Str.is_space c = false
  /\ Ascii.eqb c "+" = false /\ Ascii.eqb c "-" = false
  /\ Ascii.eqb c "." = false /\ Ascii.eqb c "I" = false
  /\ (Ascii.eqb c "x" || Ascii.eqb c "X") = false
  /\ (Ascii.eqb c "o" || Ascii.eqb c "O") = false
  /\ (Ascii.eqb c "b" || Ascii.eqb c "B") = false.
Proof.
  destruct c as [[] [] [] [] [] [] [] []]; intros H; try discriminate H;
    repeat split; reflexivity.
Qed.

Lemma all_digits_no_space s : all_digits s = true -> no_space s = true.
Proof.
  induction s as [|c s IH]; [reflexivity|]. cbn [all_digits no_space].
  destruct (digit_val c) eqn:E; [|discriminate].
  destruct (digit_plain _ _ E) as (Hs & _). rewrite Hs. exact IH.
Qed.

Lemma digits_stop rest acc cnt :
  match rest with
  | EmptyString => True
  | String c _ => digit_val c = None
  end ->
  digits rest acc cnt = (acc, cnt, rest).
Proof.
  destruct rest as [|c r]; [reflexivity|]. cbn [digits]. intros ->. reflexivity.
Qed.

(** A number written with a point and no exponent reads as its digits
    scaled by the number of decimals. *)
Lemma unsigned_decimal_point a b :
  all_digits a = true -> a <> "" -> all_digits b = true ->
  unsigned_decimal (a ++ "." ++ b)
  = Some (horner b (horner a 0), - Z.of_nat (String.length b), "").
Proof.
  intros Ha Hne Hb. unfold unsigned_decimal.
  rewrite (digits_app a _ _ _ Ha).
  rewrite digits_stop by reflexivity.
  cbn [append]. change (Ascii.eqb "." ".") with true. cbv iota.
  rewrite <- (append_nil_r b) at 1.
  rewrite (digits_app b _ _ _ Hb), digits_stop by exact I.
  destruct a as [|c a]; [contradiction|].
  cbn [String.length Nat.add]. cbn [exponent_part].
  destruct (String.length b); reflexivity.
Qed.

Lemma prefix_Infinity_digit c d s :
  digit_val c = Some d -> prefix "Infinity" (String c s) = false.
Proof.
  intros H. cbn [prefix]. destruct (ascii_dec "I" c) as [E|E]; [|reflexivity].
  subst c. discriminate H.
Qed.

Lemma non_decimal_plain c1 s :
  match s with
  | EmptyString => True
  | String c2 _ =>
      (Ascii.eqb c2 "x" || Ascii.eqb c2 "X") = false
      /\ (Ascii.eqb c2 "o" || Ascii.eqb c2 "O") = false
      /\ (Ascii.eqb c2 "b" || Ascii.eqb c2 "B") = false
  end ->
  non_decimal (String c1 s) = None.
Proof.
  destruct s as [|c2 [|c3 s]]; try reflexivity.
  intros (Hx & Ho & Hb). cbn [non_decimal].
  rewrite Hx, Ho, Hb. destruct (negb _); reflexivity.
Qed.

Lemma parse_fixed (sg : bool) (a b : string) :
  all_digits a = true -> a <> "" -> all_digits b = true ->
  StringToNumber ((if sg then "-" else "") ++ a ++ "." ++ b)
  = of_decimal sg (horner b (horner a 0)) (- Z.of_nat (String.length b)).
Proof.
  intros Ha Hne Hb.
  assert (Hns : no_space ((if sg : bool then "-" else "") ++ a ++ "." ++ b) = true).
  { rewrite !no_space_app, (all_digits_no_space _ Ha), (all_digits_no_space _ Hb).
    destruct sg; reflexivity. }
  unfold StringToNumber. rewrite (trim_no_space _ Hns).
  destruct a as [|c a]; [contradiction|].
  pose proof Ha as Ha'. cbn [all_digits] in Ha'.
  destruct (digit_val c) as [d|] eqn:Ec; [|discriminate Ha'].
  destruct (digit_plain _ _ Ec) as (_ & Hplus & Hminus & Hdot & _ & Hx & Ho & Hbb).
  assert (Hnd : non_decimal ((if sg : bool then "-" else "") ++ String c a ++ "." ++ b) = None).
  { destruct sg; cbn [append].
    - apply non_decimal_plain. rewrite Hx, Ho, Hbb. auto.
    - apply non_decimal_plain. destruct a as [|c2 a]; cbn [append].
      + repeat split; reflexivity.
      + cbn [all_digits] in Ha'. destruct (digit_val c2) as [d2|] eqn:E2;
          [|discriminate Ha'].
        destruct (digit_plain _ _ E2) as (_ & _ & _ & _ & _ & Hx2 & Ho2 & Hb2).
        auto. }
  rewrite Hnd.
  assert (Hlit : decimal_literal ((if sg : bool then "-" else "") ++ String c a ++ "." ++ b)
                 = Some (of_decimal sg (horner b (horner (String c a) 0))
                                    (- Z.of_nat (String.length b)), "")).
  { unfold decimal_literal.
    assert (Hsg : signed ((if sg : bool then "-" else "") ++ String c a ++ "." ++ b)
                  = (sg, String c a ++ "." ++ b)).
    { destruct sg; cbn [append signed].
      - reflexivity.
      - rewrite Hplus, Hminus. reflexivity. }
    rewrite Hsg.
    replace (prefix "Infinity" (String c a ++ "." ++ b)) with false
      by (symmetry; apply (prefix_Infinity_digit _ _ _ Ec)).
    rewrite (unsigned_decimal_point _ _ Ha (fun E => Hne E) Hb). reflexivity. }
  rewrite Hlit.
  destruct sg; reflexivity.
Qed.

Lemma magnitude_pos m e :
  0 < fst (magnitude m e) /\ 0 < snd (magnitude m e).
Proof.
  unfold magnitude. destruct e as [|p|p]; cbn [fst snd].
  - lia.
  - split; [|lia]. apply Z.mul_pos_pos; [lia|]. apply Z.pow_pos_nonneg; lia.
  - split; [lia|]. apply Z.pow_pos_nonneg; lia.
Qed.

Lemma hundredths_nearest m e :
  let num := fst (magnitude m e) in
  let den := snd (magnitude m e) in
  0 <= hundredths m e
  /\ 2 * den * hundredths m e <= 2 * num * 100 + den
     < 2 * den * (hundredths m e + 1).
Proof.
  cbv zeta. destruct (magnitude_pos m e) as [Hn Hd].
  unfold hundredths. destruct (magnitude m e) as [num den]. cbn [fst snd] in *.
  change (Z.pow 10 2) with 100.
  split.
  - apply Z.div_pos; lia.
  - pose proof (Z.mul_div_le (2 * num * 100 + den) (2 * den) ltac:(lia)).
    pose proof (Z.mul_succ_div_gt (2 * num * 100 + den) (2 * den) ltac:(lia)).
    lia.
Qed.

(** [Number(x.toFixed(2))] of a finite [x] below [10^21] in magnitude is the
    number nearest to [n / 100], where [n] is the integer nearest to a
    hundred times the magnitude of [x]. *)
Lemma round2_finite (s : bool) (m : positive) (e : Z) :
  Num.leb ten21 (S754_finite false m e) = false ->
  round2 (S754_finite s m e) = of_decimal s (Z.to_N (hundredths m e)) (-2).
Proof.
  intros Hlt. unfold round2, toFixed. rewrite Hlt.
  destruct (hundredths_nearest m e) as [Hn _].
  unfold hundredths in *. destruct (magnitude m e) as [num den].
  change (Z.of_nat 2) with 2.
  set (n := (2 * num * 10 ^ 2 + den) / (2 * den)) in *.
  rewrite (fixed_digits_layout n 1).
  destruct (padded_digits n 2 Hn) as (Hd & Hv & Hl).
  set (p := padded n 2) in *.
  set (k := (String.length p - 2)%nat).
  assert (Hsplit : Str.take k p ++ Str.drop k p = p) by apply take_drop.
  assert (Hab : all_digits (Str.take k p) = true /\ all_digits (Str.drop k p) = true).
  { rewrite <- Hsplit, all_digits_app in Hd. apply andb_true_iff in Hd. exact Hd. }
  destruct Hab as [Ha Hb].
  assert (Hlb : String.length (Str.drop k p) = 2%nat)
    by (rewrite length_drop; subst k; lia).
  assert (Hne : Str.take k p <> "").
  { intros E. pose proof (length_take k p ltac:(subst k; lia)) as Hlen.
    rewrite E in Hlen. cbn in Hlen. subst k. lia. }
  rewrite (parse_fixed s _ _ Ha Hne Hb), Hlb.
  rewrite <- (horner_app _ _ _ Ha), Hsplit, Hv. reflexivity.
Qed.

End TwoDecimals.

(** C9: every source that computes a change from two valid observations
    returns [Number((((latest - previous) / previous) * 100).toFixed(2))];
    on a finite quotient below [10^21] in magnitude that is the number
    nearest to [n / 100], [n] being the integer nearest to a hundred times
    the quotient, so a value of two decimals; and the observations 25.00 and
    20.00 give exactly 25. *)
Theorem change_percent_formula :
  (forall json latest p rest,
      fred_obs json = Ok (latest :: p :: rest) ->
      Num.eqb (val p) zero = false ->
      exists q,
        fred_quote json = Ok q
        /\ VixIndex.changePercent q
           = Some (round2 (mul (div (sub (val latest) (val p)) (val p))
                               (Num.of_Z 100))))
  /\ (forall csv q,
      cboe_quote csv = Ok q ->
      3 <= len (rows (Str.trim csv)) ->
      5 <= len (last_row (rows (Str.trim csv)) 2) ->
      isFinite (previous_close csv) = true ->
      Num.eqb (previous_close csv) zero = false ->
      VixIndex.changePercent q
      = Some (round2 (mul (div (sub (last_close csv) (previous_close csv))
                               (previous_close csv)) (Num.of_Z 100))))
  /\ (forall csv q,
      stooq_quote csv = Ok q ->
      3 <= len (rows (Str.trim csv)) ->
      isFinite (previous_close csv) = true ->
      Num.eqb (previous_close csv) zero = false ->
      VixIndex.changePercent q
      = Some (round2 (mul (div (sub (last_close csv) (previous_close csv))
                               (previous_close csv)) (Num.of_Z 100))))
  /\ (forall sid json pre b a,
      Gold.clean_of json = Ok (pre ++ [b; a])%list ->
      isFinite (Gold.value_of b) = true ->
      Num.eqb (Gold.value_of b) zero = false ->
      exists q,
        Gold.pair_quote sid json = Ok q
        /\ Gold.pct q
           = Some (round2 (mul (div (sub (Gold.value_of a) (Gold.value_of b))
                                    (Gold.value_of b)) (Num.of_Z 100))))
  /\ (forall sid json pre b a,
      FetchAllData.clean_of json = Ok (pre ++ [b; a])%list ->
      isNaN (FetchAllData.value_of b) = false ->
      Num.eqb (FetchAllData.value_of b) zero = false ->
      exists q,
        FetchAllData.pair_of sid json = Ok q
        /\ FetchAllData.pair_pct q
           = Some (round2 (mul (div (sub (FetchAllData.value_of a)
                                         (FetchAllData.value_of b))
                                    (FetchAllData.value_of b)) (Num.of_Z 100))))
  /\ (forall json t o0 o1 rest a,
      Dxy.observations json = Ok (o0 :: o1 :: rest) ->
      Dxy.answer_of json t = Ok a ->
      prop (body a) "changePercent"
      = stringify
          (VNum (round2 (mul (div (sub (parseFloat (prop o0 "value"))
                                       (parseFloat (prop o1 "value")))
                                  (parseFloat (prop o1 "value")))
                             (Num.of_Z 100)))))
  /\ (forall (s : bool) (m : positive) (e : Z),
      Num.leb NumStr.ten21 (S754_finite false m e) = false ->
      round2 (S754_finite s m e) = of_decimal s (Z.to_N (hundredths m e)) (-2)
      /\ 0 <= hundredths m e
      /\ 2 * snd (magnitude m e) * hundredths m e
         <= 2 * fst (magnitude m e) * 100 + snd (magnitude m e)
         < 2 * snd (magnitude m e) * (hundredths m e + 1))
  /\ round2 (mul (div (sub (NumStr.StringToNumber "25.00")
                           (NumStr.StringToNumber "20.00"))
                      (NumStr.StringToNumber "20.00")) (Num.of_Z 100))
     = Num.of_Z 25
  /\ fred_quote fred_25_20
     = Ok {| VixIndex.price := Num.of_Z 25;
             VixIndex.changePercent := Some (Num.of_Z 25);
             VixIndex.source := "FRED VIXCLS (daily close)" |}
  /\ Gold.pair_quote "GOLDPMGBD228NLBM" fred_20_25
     = Ok {| Gold.price := Num.of_Z 25;
             Gold.pct := Some (Num.of_Z 25);
             Gold.source := "FRED GOLDPMGBD228NLBM" |}.
Proof.
  split; [|split; [|split; [|split; [|split; [|split; [|split; [|split; [|split]]]]]]]].
  - intros json latest p rest H Hz.
    eexists. split; [apply (fred_quote_pair _ _ _ _ H)|].
    cbn. rewrite Hz. reflexivity.
  - intros csv q H H3 H5 Hf Hz. destruct (cboe_quote_inv _ _ H) as (_ & _ & Hc).
    rewrite Hc, Hf, Hz.
    replace (3 <=? _) with true by (symmetry; apply Z.leb_le; exact H3).
    replace (5 <=? _) with true by (symmetry; apply Z.leb_le; exact H5).
    reflexivity.
  - intros csv q H H3 Hf Hz. destruct (stooq_quote_inv _ _ H) as (_ & _ & Hc).
    rewrite Hc, Hf, Hz.
    replace (3 <=? _) with true by (symmetry; apply Z.leb_le; exact H3).
    reflexivity.
  - intros sid json pre b a H Hf Hz.
    eexists. split; [apply (gold_pair_quote_pair _ _ _ _ _ H)|].
    cbn. rewrite Hf, Hz. reflexivity.
  - intros sid json pre b a H Hn Hz.
    eexists. split; [apply (all_pair_of_pair _ _ _ _ _ H)|].
    cbn. rewrite Hn.
    replace (is_zero (FetchAllData.value_of b)) with false; [reflexivity|].
    destruct (FetchAllData.value_of b); try reflexivity. discriminate Hz.
  - intros json t o0 o1 rest a H Ha.
    destruct (dxy_answer_pair _ _ _ _ _ _ H Ha) as (_ & _ & E). subst a.
    apply dxy_change_field.
  - intros s m e Hlt. split; [apply round2_finite; exact Hlt|].
    destruct (hundredths_nearest m e) as [Hn Hb]. split; [exact Hn | exact Hb].
  - vm_compute. reflexivity.
  - vm_compute. reflexivity.
  - vm_compute. reflexivity.
Qed.

Lemma change_percent_formula_witness :
  exists q,
    fred_quote fred_25_20 = Ok q
    /\ VixIndex.changePercent q
       = Some (round2 (mul (div (sub (NumStr.StringToNumber "25.00")
                                     (NumStr.StringToNumber "20.00"))
                                (NumStr.StringToNumber "20.00")) (Num.of_Z 100))).
Proof.
  refine (proj1 change_percent_formula fred_25_20
            {| date := VStr "2024-01-04"; val := NumStr.StringToNumber "25.00" |}
            {| date := VStr "2024-01-03"; val := NumStr.StringToNumber "20.00" |}
            [] _ _).
  - vm_compute. reflexivity.
  - vm_compute. reflexivity.
Defined.

(** C7 as stated fails.  On a history whose row before the last has no
    close, [fromCBOE] and [fromStooq] read that raw row and return a [null]
    change, where filtering first gives the change of 20 percent between the
    two closes that remain.  And the dates are not read: given a series that
    is oldest first, [fromFRED] takes its first value, 20.00 of the oldest
    day, for the price. *)
Lemma csv_sources_read_adjacent_raw_rows :
  cboe_quote csv_gap
  = Ok {| VixIndex.price := Num.of_Z 12; VixIndex.changePercent := None;
          VixIndex.source := "CBOE CSV" |}
  /\ stooq_quote csv_gap
     = Ok {| VixIndex.price := Num.of_Z 12; VixIndex.changePercent := None;
             VixIndex.source := "Stooq CSV" |}
  /\ filter_first_csv csv_gap = Some (Num.of_Z 12, Some (Num.of_Z 20))
  /\ (forall q, cboe_quote csv_gap = Ok q ->
                filter_first_csv csv_gap
                <> Some (VixIndex.price q, VixIndex.changePercent q))
  /\ fred_quote fred_20_25
     = Ok {| VixIndex.price := Num.of_Z 20;
             VixIndex.changePercent := Some (Num.of_Z (-20));
             VixIndex.source := "FRED VIXCLS (daily close)" |}.
Proof.
  split; [vm_compute; reflexivity|].
  split; [vm_compute; reflexivity|].
  split; [vm_compute; reflexivity|].
  split; [|vm_compute; reflexivity].
  intros q H. vm_compute in H. inversion H; subst q. vm_compute. discriminate.
Qed.

Lemma filter_try_not_sentinel arr :
  Forall (fun o => nullish o = false) arr ->
  filter_try VixIndex.not_sentinel arr
  = Some (filter (fun o => negb (is_string (prop o "value") ".")) arr).
Proof.
  induction 1 as [|o arr Ho _ IH]; [reflexivity|].
  cbn [filter_try filter]. unfold VixIndex.not_sentinel at 1, get.
  rewrite Ho, IH. reflexivity.
Qed.

Lemma fred_obs_filters_first arr :
  Forall (fun o => nullish o = false) arr ->
  fred_obs (VObj [ ("observations", VArr arr) ])
  = Ok (filter (fun o => isFinite (val o))
          (map (fun o => {| date := prop o "date";
                            val := ToNumber (prop o "value") |})
               (filter (fun o => negb (is_string (prop o "value") ".")) arr))).
Proof.
  intros H. unfold fred_obs. cbn [get_opt nullish prop lookup String.eqb Ascii.eqb
    Bool.eqb or_else truthy as_array].
  rewrite (filter_try_not_sentinel _ H). reflexivity.
Qed.

Lemma gold_clean_filters_first arr :
  Gold.clean_of (VObj [ ("observations", VArr arr) ])
  = Ok (map (fun o => {| Gold.date := prop o "date";
                         Gold.value_of := ToNumber (prop o "value") |})
            (filter Gold.usable arr)).
Proof. reflexivity. Qed.

Lemma cboe_bad_last_close csv :
  2 <= len (rows (Str.trim csv)) ->
  5 <= len (last_row (rows (Str.trim csv)) 1) ->
  isFinite (last_close csv) = false ->
  cboe_quote csv = Throw (Error "CBOE: bad close").
Proof.
  intros H2 H5 Hf. unfold cboe_quote. fold (last_close csv).
  replace (len (rows (Str.trim csv)) <? 2) with false
    by (symmetry; apply Z.ltb_ge; exact H2).
  replace (len (last_row (rows (Str.trim csv)) 1) <? 5) with false
    by (symmetry; apply Z.ltb_ge; exact H5).
  rewrite Hf. reflexivity.
Qed.

Lemma stooq_bad_last_close csv :
  Str.nonempty (Str.trim csv) = true ->
  String.eqb (Str.trim csv) "NO DATA" = false ->
  2 <= len (rows (Str.trim csv)) ->
  5 <= len (last_row (rows (Str.trim csv)) 1) ->
  isFinite (last_close csv) = false ->
  stooq_quote csv = Throw (Error "Stooq: bad close").
Proof.
  intros Hn Hd H2 H5 Hf. unfold stooq_quote. fold (last_close csv).
  rewrite Hn, Hd. cbn [negb orb].
  replace (len (rows (Str.trim csv)) <? 2) with false
    by (symmetry; apply Z.ltb_ge; exact H2).
  replace (len (last_row (rows (Str.trim csv)) 1) <? 5) with false
    by (symmetry; apply Z.ltb_ge; exact H5).
  rewrite Hf. reflexivity.
Qed.

Lemma map_filter_comm {A B} (g : A -> B) (p : B -> bool) (l : list A) :
  map g (filter (fun x => p (g x)) l) = filter p (map g l).
Proof.
  induction l as [|x l IH]; [reflexivity|].
  cbn [filter map]. destruct (p (g x)); cbn [map]; rewrite IH; reflexivity.
Qed.

Lemma fred_quote_of_obs (json : value) (obs : list VixIndex.observation) :
  fred_obs json = Ok obs -> fred_quote json = first_two_quote (map val obs).
Proof.
  intros H. unfold fred_quote. rewrite H.
  destruct obs as [|a [|b rest]]; reflexivity.
Qed.

Lemma fred_quote_of_values arr :
  Forall (fun o => nullish o = false) arr ->
  fred_quote (VObj [ ("observations", VArr arr) ])
  = first_two_quote (fred_values arr).
Proof.
  intros H. rewrite (fred_quote_of_obs _ _ (fred_obs_filters_first _ H)).
  f_equal. unfold fred_values, values_of.
  rewrite (map_filter_comm val isFinite), map_map. cbn [val].
  rewrite <- (map_filter_comm (fun o => prop o "value")
                (fun v => negb (is_string v "."))).
  rewrite map_map. reflexivity.
Qed.

Lemma gold_usable_value o : Gold.usable o = gold_keep (prop o "value").
Proof.
  unfold Gold.usable, gold_keep.
  destruct o; try reflexivity.
  all: cbn [prop is_string nullish negb andb]; rewrite ?andb_false_r; reflexivity.
Qed.

Lemma gold_quote_of_clean sid json clean :
  Gold.clean_of json = Ok clean ->
  Gold.pair_quote sid json = last_two_quote sid (map Gold.value_of clean).
Proof.
  intros H. unfold Gold.pair_quote, last_two_quote. rewrite H.
  destruct clean as [|x clean'] using rev_ind; [reflexivity|].
  clear IHclean'.
  destruct clean' as [|y pre] using rev_ind.
  - reflexivity.
  - clear IHpre. rewrite <- app_assoc. cbn [app].
    destruct (at_index_last pre y x) as [Ha Hb]. rewrite Ha, Hb.
    rewrite map_app, rev_app_distr. reflexivity.
Qed.

Lemma gold_quote_of_values sid arr :
  Gold.pair_quote sid (VObj [ ("observations", VArr arr) ])
  = last_two_quote sid (gold_values arr).
Proof.
  rewrite (gold_quote_of_clean _ _ _ (gold_clean_filters_first arr)).
  f_equal. unfold gold_values, values_of. rewrite map_map. cbn [Gold.value_of].
  rewrite <- (map_filter_comm (fun o => prop o "value") gold_keep), map_map.
  f_equal. apply filter_ext. intros o. apply gold_usable_value.
Qed.

(** C7, amended: the sources that read a FRED series filter first and then
    select by position, never by date.  [fromFRED] of vixIndex.js drops the
    sentinel and what is not a finite number, and takes the first two values
    that remain, in the order of the provider (it asks for a descending
    series); [fredLatestPair] of gold.js drops the sentinel, the missing and
    the non-numeric values, and takes the last two that remain; both results
    are a function of the [value] fields alone.  The CSV sources ([fromCBOE],
    [fromStooq]) do not filter: the price is the close of the last raw row,
    which fails the source when it is not a finite number, and the change is
    computed from the raw row before it, a close there that is not finite or
    is zero giving [null]. *)
Theorem series_selection :
  (forall arr,
      Forall (fun o => nullish o = false) arr ->
      fred_quote (VObj [ ("observations", VArr arr) ])
      = first_two_quote (fred_values arr))
  /\ (forall sid arr,
      Gold.pair_quote sid (VObj [ ("observations", VArr arr) ])
      = last_two_quote sid (gold_values arr))
  /\ (forall csv q,
      cboe_quote csv = Ok q ->
      VixIndex.price q = round2 (last_close csv)
      /\ VixIndex.changePercent q
         = if (3 <=? len (rows (Str.trim csv)))
              && (5 <=? len (last_row (rows (Str.trim csv)) 2))
              && isFinite (previous_close csv)
              && negb (Num.eqb (previous_close csv) zero)
           then Some (round2 (percent (last_close csv) (previous_close csv)))
           else None)
  /\ (forall csv q,
      stooq_quote csv = Ok q ->
      VixIndex.price q = round2 (last_close csv)
      /\ VixIndex.changePercent q
         = if (3 <=? len (rows (Str.trim csv)))
              && isFinite (previous_close csv)
              && negb (Num.eqb (previous_close csv) zero)
           then Some (round2 (percent (last_close csv) (previous_close csv)))
           else None)
  /\ (forall csv,
      2 <= len (rows (Str.trim csv)) ->
      5 <= len (last_row (rows (Str.trim csv)) 1) ->
      isFinite (last_close csv) = false ->
      cboe_quote csv = Throw (Error "CBOE: bad close"))
  /\ (forall csv,
      Str.nonempty (Str.trim csv) = true ->
      String.eqb (Str.trim csv) "NO DATA" = false ->
      2 <= len (rows (Str.trim csv)) ->
      5 <= len (last_row (rows (Str.trim csv)) 1) ->
      isFinite (last_close csv) = false ->
      stooq_quote csv = Throw (Error "Stooq: bad close")).
Proof.
  split; [exact fred_quote_of_values|].
  split; [exact gold_quote_of_values|].
  split; [intros csv q H; destruct (cboe_quote_inv _ _ H) as (_ & Hp & Hc); auto|].
  split; [intros csv q H; destruct (stooq_quote_inv _ _ H) as (_ & Hp & Hc); auto|].
  split; [exact cboe_bad_last_close | exact stooq_bad_last_close].
Qed.

Lemma series_selection_witness :
  cboe_quote csv_no_last_close = Throw (Error "CBOE: bad close")
  /\ fred_quote fred_25_20 = first_two_quote (fred_values (observations_25_20)).
Proof.
  split.
  - apply (proj1 (proj2 (proj2 (proj2 (proj2 series_selection))))).
    + vm_compute. discriminate.
    + vm_compute. discriminate.
    + vm_compute. reflexivity.
  - apply (proj1 series_selection observations_25_20).
    repeat constructor.
Defined.

(** C4: the code breaks it.  On a body of TwelveData whose [close] is not
    numeric, [fetchTwelve] of fetchAllData.js returns a result whose price is
    [NaN] (its sibling [tdGold] of gold.js checks [Number.isFinite(price)] and
    throws); and on a [close] that is [null], [tdGold] itself returns the
    price 0, which the handler of gold.js answers with HTTP 200. *)
Theorem sources_return_non_numeric_prices :
  fst (FetchAllData.fetchTwelve "SPY"
         (FetchAllData.enter env_twelve [answer_json twelve_no_price] 0))
  = Ok {| FetchAllData.price := NaN; FetchAllData.pct := NaN |}
  /\ fst (Gold.tdGold (Gold.enter env_twelve [answer_json twelve_no_price] 0))
     = Throw (Error "TwelveData: bad price")
  /\ fst (Gold.tdGold (Gold.enter env_twelve [answer_json twelve_null_price] 0))
     = Ok {| Gold.price := zero; Gold.pct := None;
             Gold.source := "TwelveData XAU/USD" |}
  /\ (exists a w',
         Gold.handler (Gold.enter env_twelve [answer_json twelve_null_price] 0)
         = (Ok a, w')
         /\ statusCode a = 200
         /\ prop (body a) "price" = VNum zero
         /\ prop (body a) "source" = VStr "TwelveData XAU/USD").
Proof.
  split; [vm_compute; reflexivity|].
  split; [vm_compute; reflexivity|].
  split; [vm_compute; reflexivity|].
  do 2 eexists. split; [vm_compute; reflexivity|].
  repeat split.
Qed.

(** * The handlers as a whole *)

Import Frames.

(** ** The requests and the time of a computation *)

Section Still.
Context {G : Type}.

Local Notation still := (@Frames.still G _).
Local Notation within := (@Frames.within G _).

Lemma fetches_app l1 l2 : fetches (l1 ++ l2) = (fetches l1 ++ fetches l2)%list.
Proof. unfold fetches. apply flat_map_app. Qed.

Lemma sleeps_app l1 l2 : sleeps (l1 ++ l2) = (sleeps l1 ++ sleeps l2)%list.
Proof. unfold sleeps. apply flat_map_app. Qed.

Lemma total_app l1 l2 : total (l1 ++ l2) = total l1 + total l2.
Proof.
  unfold total. induction l1 as [|x l1 IH]; cbn; [reflexivity | rewrite IH; lia].
Qed.

Lemma firstn_plus {A} (a b : nat) (l : list A) :
  firstn (a + b) l = (firstn a l ++ firstn b (skipn a l))%list.
Proof.
  revert l. induction a as [|a IH]; intros l; [reflexivity|].
  destruct l as [|x l]; cbn; [now rewrite firstn_nil | now rewrite IH].
Qed.

Lemma skipn_plus {A} (a b : nat) (l : list A) :
  skipn (a + b) l = skipn b (skipn a l).
Proof.
  revert l. induction a as [|a IH]; intros l; [reflexivity|].
  destruct l as [|x l]; cbn; [now rewrite skipn_nil | apply IH].
Qed.

Lemma still_ret {A} (a : A) : still (ret a).
Proof. intros w r w' H; inversion H; auto. Qed.

Lemma still_throw {A} e : still (@throw G A e).
Proof. intros w r w' H; inversion H; auto. Qed.

Lemma still_lift {A} (x : result A) : still (lift x).
Proof. destruct x; [apply still_ret | apply still_throw]. Qed.

Lemma still_now : still (@now G).
Proof. intros w r w' H; inversion H; auto. Qed.

Lemma still_getenv {A} (f : env -> A) : still (getenv f).
Proof. intros w r w' H; inversion H; auto. Qed.

Lemma still_get_global : still (@get_global G).
Proof. intros w r w' H; inversion H; auto. Qed.

Lemma still_set_global g : still (@set_global G g).
Proof. intros w r w' H; inversion H; auto. Qed.

Lemma still_enter fn : still (@emit G (EvCall fn)).
Proof.
  intros w r w' H; inversion H; cbn.
  rewrite fetches_app, sleeps_app, !app_nil_r. auto.
Qed.

Lemma still_console msg : still (@console G msg).
Proof.
  intros w r w' H; inversion H; cbn.
  rewrite fetches_app, sleeps_app, !app_nil_r. auto.
Qed.

Lemma still_res_json r : still (@res_json G r).
Proof. unfold res_json. destruct (json r); [apply still_ret | apply still_throw]. Qed.

Lemma still_res_text r : still (@res_text G r).
Proof. apply still_ret. Qed.

Lemma still_bind {A B} (m : M G A) (k : A -> M G B) :
  still m -> (forall a, still (k a)) -> still (bind m k).
Proof.
  intros Hm Hk w r w' H. unfold bind in H.
  destruct (m w) as [[a|e] w1] eqn:E.
  - destruct (Hm _ _ _ E) as (n1 & c1 & f1 & s1).
    destruct (Hk a _ _ _ H) as (n2 & c2 & f2 & s2).
    repeat split; congruence.
  - inversion H; subst. exact (Hm _ _ _ E).
Qed.

Lemma still_try_catch {A} (m : M G A) (h : error -> M G A) :
  still m -> (forall e, still (h e)) -> still (try_catch m h).
Proof.
  intros Hm Hh w r w' H. unfold try_catch in H.
  destruct (m w) as [[a|e] w1] eqn:E.
  - inversion H; subst. exact (Hm _ _ _ E).
  - destruct (Hm _ _ _ E) as (n1 & c1 & f1 & s1).
    destruct (Hh e _ _ _ H) as (n2 & c2 & f2 & s2).
    repeat split; congruence.
Qed.

Lemma within_still {A} n pause (m : M G A) :
  0 <= pause -> still m -> within n pause m.
Proof.
  intros Hp Hm w r w' H. destruct (Hm _ _ _ H) as (Hn & Hc & Hf & Hs).
  exists [], []. cbn. rewrite !app_nil_r.
  repeat split; auto; lia.
Qed.

Lemma within_weaken {A} n pause n' pause' (m : M G A) :
  (n <= n')%nat -> pause <= pause' -> within n pause m -> within n' pause' m.
Proof.
  intros Hn Hp Hm w r w' H.
  destruct (Hm _ _ _ H) as (urls & naps & H1 & H2 & H3 & H4 & H5 & H6 & H7).
  exists urls, naps. repeat split; auto; lia.
Qed.

Lemma within_fetch url : within 1 0 (@fetch G url).
Proof.
  intros w r w' H. exists [url], []. unfold fetch in H.
  destruct (net w) as [|x rest] eqn:E.
  - inversion H; cbn. rewrite fetches_app, sleeps_app, !app_nil_r.
    repeat split; auto; lia.
  - assert (W : w' = {| environ := environ w; net := rest;
                        clock := clock w + elapsed x;
                        log := (log w ++ [EvFetch url])%list;
                        globals := globals w |})
      by (destruct (answer x); inversion H; reflexivity).
    subst w'. cbn. rewrite fetches_app, sleeps_app, !app_nil_r.
    repeat split; auto; lia.
Qed.

Lemma within_sleep ms : 1 <= ms <= TIMEOUT_MAX -> within 0 ms (@sleep G ms).
Proof.
  intros Hms w r w' H. exists [], [ms]. inversion H; cbn.
  rewrite fetches_app, sleeps_app, !app_nil_r, (timer_in_range ms Hms).
  assert (0 <= ms) by lia.
  repeat split; auto; try lia.
Qed.

Lemma within_bind {A B} n1 p1 n2 p2 (m : M G A) (k : A -> M G B) :
  0 <= p2 ->
  within n1 p1 m -> (forall a, within n2 p2 (k a)) ->
  within (n1 + n2) (p1 + p2) (bind m k).
Proof.
  intros Hp Hm Hk w r w' H. unfold bind in H.
  destruct (m w) as [[a|e] w1] eqn:E.
  - destruct (Hm _ _ _ E) as (u1 & s1 & A1 & A2 & A3 & A4 & A5 & A6 & A7).
    destruct (Hk a _ _ _ H) as (u2 & s2 & B1 & B2 & B3 & B4 & B5 & B6 & B7).
    exists (u1 ++ u2)%list, (s1 ++ s2)%list.
    rewrite length_app, firstn_plus, skipn_plus, map_app, !total_app.
    rewrite B2, A2, B3, A3, B4, A4, B7, A7, <- !app_assoc.
    repeat split; auto; try lia; [apply Forall_app; auto | rewrite <- A3; lia].
  - inversion H; subst.
    destruct (Hm _ _ _ E) as (u1 & s1 & A1 & A2 & A3 & A4 & A5 & A6 & A7).
    exists u1, s1. repeat split; auto; lia.
Qed.

Lemma within_try_catch {A} n1 p1 n2 p2 (m : M G A) (h : error -> M G A) :
  0 <= p1 -> 0 <= p2 ->
  within n1 p1 m -> (forall e, within n2 p2 (h e)) ->
  within (n1 + n2) (p1 + p2) (try_catch m h).
Proof.
  intros Hp1 Hp2 Hm Hh w r w' H. unfold try_catch in H.
  destruct (m w) as [[a|e] w1] eqn:E.
  - inversion H; subst.
    destruct (Hm _ _ _ E) as (u1 & s1 & A1 & A2 & A3 & A4 & A5 & A6 & A7).
    exists u1, s1. repeat split; auto; lia.
  - destruct (Hm _ _ _ E) as (u1 & s1 & A1 & A2 & A3 & A4 & A5 & A6 & A7).
    destruct (Hh e _ _ _ H) as (u2 & s2 & B1 & B2 & B3 & B4 & B5 & B6 & B7).
    exists (u1 ++ u2)%list, (s1 ++ s2)%list.
    rewrite length_app, firstn_plus, skipn_plus, map_app, !total_app.
    rewrite B2, A2, B3, A3, B4, A4, B7, A7, <- !app_assoc.
    repeat split; auto; try lia; [apply Forall_app; auto | rewrite <- A3; lia].
Qed.

Lemma within_still_bind {A B} n p (m : M G A) (k : A -> M G B) :
  0 <= p -> still m -> (forall a, within n p (k a)) -> within n p (bind m k).
Proof.
  intros Hp Hm Hk.
  apply (within_bind 0 0 n p m k Hp); [apply within_still; [lia | exact Hm] | exact Hk].
Qed.

Lemma within_bind_still {A B} n p (m : M G A) (k : A -> M G B) :
  within n p m -> (forall a, still (k a)) -> within n p (bind m k).
Proof.
  intros Hm Hk.
  apply (within_weaken (n + 0) (p + 0)); [lia | lia |].
  apply within_bind; [lia | exact Hm |].
  intros a. apply within_still; [lia | apply Hk].
Qed.

Lemma within_try_catch_still {A} n p (m : M G A) (h : error -> M G A) :
  0 <= p -> within n p m -> (forall e, still (h e)) -> within n p (try_catch m h).
Proof.
  intros Hp Hm Hh.
  apply (within_weaken (n + 0) (p + 0)); [lia | lia |].
  apply within_try_catch; [lia | lia | exact Hm |].
  intros e. apply within_still; [lia | apply Hh].
Qed.
End Still.

Create HintDb still.
#[local] Hint Resolve still_ret still_throw still_lift still_now still_getenv
  still_get_global still_set_global still_enter still_console still_res_json
  still_res_text : still.

Ltac still_step :=
  match goal with
  | |- still (bind _ _) => apply still_bind; [|intro]
  | |- still (try_catch _ _) => apply still_try_catch; [|intro]
  | |- still (match ?x with _ => _ end) => destruct x
  | |- still _ => solve [auto with still]
  end.

Ltac still_tac := repeat still_step.

(** One step of a proof of [within]: the part that sends the requests is
    the one that is not [still]. *)
Ltac within_step :=
  match goal with
  | |- within _ _ (bind _ _) =>
      first [ apply within_still_bind; [lia | solve [still_tac] | intro]
            | apply within_bind_still; [ | intro; solve [still_tac]] ]
  | |- within _ _ (try_catch _ _) =>
      apply within_try_catch_still; [lia | | intro; solve [still_tac]]
  | |- within _ _ (match ?x with _ => _ end) => destruct x
  | |- within _ _ _ => solve [apply within_still; [lia | still_tac]]
  end.

Ltac within_tac := repeat within_step.

(** ** The time of the retry loop *)

(** The sleeps of [k] requests, the first of them being attempt number
    [i]. *)
Lemma total_linear delay : forall n i,
  total (map (fun j => delay * (i + Z.of_nat j)) (seq 0 n))
  = delay * (Z.of_nat n * i + Z.of_nat n * (Z.of_nat n - 1) / 2).
Proof.
  induction n as [|n IH]; intros i;
    [unfold total; cbn [seq map fold_right]; change (Z.of_nat 0) with 0;
     rewrite !Z.mul_0_l, Z.div_0_l by lia; lia|].
  cbn [seq map]. unfold total in *. cbn [fold_right].
  rewrite <- seq_shift, map_map.
  rewrite (map_ext _ (fun j => delay * (i + 1 + Z.of_nat j)))
    by (intros j; f_equal; lia).
  rewrite IH.
  replace (Z.of_nat (S n) * (Z.of_nat (S n) - 1))
    with (Z.of_nat n * (Z.of_nat n - 1) + Z.of_nat n * 2) by lia.
  rewrite Z.div_add by lia. lia.
Qed.

Lemma linear_nonneg delay i n :
  0 <= delay -> 0 <= i ->
  Forall (fun ms => 0 <= ms) (map (fun j => delay * (i + Z.of_nat j)) (seq 0 n)).
Proof.
  intros Hd Hi. apply Forall_forall. intros x Hx.
  apply in_map_iff in Hx. destruct Hx as (j & <- & _). nia.
Qed.

Lemma triangle_mono (a b : Z) : 0 <= a <= b -> a * (a - 1) / 2 <= b * (b - 1) / 2.
Proof.
  intros H. apply Z.div_le_mono; [lia|].
  assert (0 <= (b - a) * (b + a - 1))
    by (destruct (Z.eq_dec a b); [subst; lia | apply Z.mul_nonneg_nonneg; lia]).
  lia.
Qed.

Lemma backoff_pause url delay k :
  1 <= delay -> delay * (Z.of_nat k - 1) <= TIMEOUT_MAX -> (1 <= k)%nat ->
  Forall (fun ms => 0 <= ms) (sleeps (backoff url delay 1 k))
  /\ map timer (sleeps (backoff url delay 1 k)) = sleeps (backoff url delay 1 k)
  /\ total (sleeps (backoff url delay 1 k))
     = delay * (Z.of_nat k * (Z.of_nat k - 1) / 2).
Proof.
  intros Hd Hmax Hk. destruct (fetches_backoff url delay k 1) as [_ Hs].
  split; [|split].
  - rewrite Hs. apply linear_nonneg; lia.
  - apply timer_backoff; assumption.
  - rewrite Hs, total_linear. f_equal.
    replace (Z.of_nat (k - 1)) with (Z.of_nat k - 1) by lia.
    replace (Z.of_nat k * (Z.of_nat k - 1))
      with ((Z.of_nat k - 1) * (Z.of_nat k - 1 - 1) + (Z.of_nat k - 1) * 2)
      by ring.
    rewrite Z.div_add by lia. ring.
Qed.

Lemma fetchJsonWithRetry_time url attempts delay (w : world cache) r w' :
  1 <= attempts -> 1 <= delay -> delay * (attempts - 1) <= TIMEOUT_MAX ->
  fetchJsonWithRetry url attempts delay w = (r, w') ->
  exists k : nat,
    (1 <= k)%nat /\ Z.of_nat k <= attempts
    /\ log w' = (log w ++ backoff url delay 1 k)%list
    /\ net w' = skipn k (net w)
    /\ clock w' = clock w + total (map elapsed (firstn k (net w)))
                  + delay * (Z.of_nat k * (Z.of_nat k - 1) / 2).
Proof.
  intros Ha Hd Hmax Hrun. unfold fetchJsonWithRetry in Hrun.
  destruct (retry_time res_json json_body "fetchJsonWithRetry" res_json_pure
              url attempts delay (Z.to_nat attempts) 0 None w r w')
    as (k & Hk & Hlog & Hnet & Hclk); [lia | lia | exact Hrun |].
  exists k.
  assert (Hmax' : delay * (Z.of_nat k - 1) <= TIMEOUT_MAX) by nia.
  assert (Hk' : (1 <= k)%nat) by lia.
  destruct (backoff_pause url delay k Hd Hmax' Hk') as (_ & E1 & E2).
  cbn [Z.add] in Hclk. rewrite E1, E2 in Hclk.
  repeat split; auto; lia.
Qed.

Lemma fetchTextWithRetry_time url attempts delay (w : world cache) r w' :
  1 <= attempts -> 1 <= delay -> delay * (attempts - 1) <= TIMEOUT_MAX ->
  fetchTextWithRetry url attempts delay w = (r, w') ->
  exists k : nat,
    (1 <= k)%nat /\ Z.of_nat k <= attempts
    /\ log w' = (log w ++ backoff url delay 1 k)%list
    /\ net w' = skipn k (net w)
    /\ clock w' = clock w + total (map elapsed (firstn k (net w)))
                  + delay * (Z.of_nat k * (Z.of_nat k - 1) / 2).
Proof.
  intros Ha Hd Hmax Hrun. unfold fetchTextWithRetry in Hrun.
  destruct (retry_time res_text text_body "fetchTextWithRetry" res_text_pure
              url attempts delay (Z.to_nat attempts) 0 None w r w')
    as (k & Hk & Hlog & Hnet & Hclk); [lia | lia | exact Hrun |].
  exists k.
  assert (Hmax' : delay * (Z.of_nat k - 1) <= TIMEOUT_MAX) by nia.
  assert (Hk' : (1 <= k)%nat) by lia.
  destruct (backoff_pause url delay k Hd Hmax' Hk') as (_ & E1 & E2).
  cbn [Z.add] in Hclk. rewrite E1, E2 in Hclk.
  repeat split; auto; lia.
Qed.

(** X1: [fetchJsonWithRetry] and [fetchTextWithRetry], asked for at least
    one attempt with a delay of one millisecond or more whose last wait,
    [delay * (attempts - 1)], is at most [TIMEOUT_MAX] (the delays that
    [setTimeout] takes as they are), send [k] requests with
    [1 <= k <= attempts]; they take the next [k] answers of the network, and
    the time they take is the time of these [k] requests plus
    [delay * k * (k - 1) / 2] milliseconds of sleep. *)
Theorem retry_takes_requests_and_backoff :
  forall (url : string) (attempts delay : Z) (w : world cache),
    1 <= attempts -> 1 <= delay -> delay * (attempts - 1) <= TIMEOUT_MAX ->
    (forall r w',
        fetchJsonWithRetry url attempts delay w = (r, w') ->
        exists k : nat,
          (1 <= k)%nat /\ Z.of_nat k <= attempts
          /\ net w' = skipn k (net w)
          /\ clock w' = clock w + total (map elapsed (firstn k (net w)))
                        + delay * (Z.of_nat k * (Z.of_nat k - 1) / 2))
    /\ (forall r w',
        fetchTextWithRetry url attempts delay w = (r, w') ->
        exists k : nat,
          (1 <= k)%nat /\ Z.of_nat k <= attempts
          /\ net w' = skipn k (net w)
          /\ clock w' = clock w + total (map elapsed (firstn k (net w)))
                        + delay * (Z.of_nat k * (Z.of_nat k - 1) / 2)).
Proof.
  intros url attempts delay w Ha Hd Hmax. split; intros r w' Hrun.
  - destruct (fetchJsonWithRetry_time _ _ _ _ _ _ Ha Hd Hmax Hrun)
      as (k & H1 & H2 & _ & H3 & H4).
    exists k. auto.
  - destruct (fetchTextWithRetry_time _ _ _ _ _ _ Ha Hd Hmax Hrun)
      as (k & H1 & H2 & _ & H3 & H4).
    exists k. auto.
Qed.

Lemma retry_takes_requests_and_backoff_witness :
  exists k : nat,
    (1 <= k)%nat /\ Z.of_nat k <= 3
    /\ net (snd (fetchJsonWithRetry "u" 3 300 world_retry))
       = skipn k (net world_retry)
    /\ clock (snd (fetchJsonWithRetry "u" 3 300 world_retry))
       = clock world_retry + total (map elapsed (firstn k (net world_retry)))
         + 300 * (Z.of_nat k * (Z.of_nat k - 1) / 2).
Proof.
  exact (proj1 (retry_takes_requests_and_backoff
                  "u" 3 300 world_retry ltac:(lia) ltac:(lia)
                  ltac:(unfold TIMEOUT_MAX; lia))
           _ _ (surjective_pairing _)).
Defined.

(** X2: asked for no attempt at all ([attempts <= 0]), the two functions
    send nothing, do not sleep, and throw the error
    ["<name>: unknown error"]. *)
Theorem retry_without_attempts_throws_unknown_error :
  forall (url : string) (attempts delay : Z) (w : world cache),
    attempts <= 0 ->
    fetchJsonWithRetry url attempts delay w
    = (Throw (Error "fetchJsonWithRetry: unknown error"), w)
    /\ fetchTextWithRetry url attempts delay w
       = (Throw (Error "fetchTextWithRetry: unknown error"), w).
Proof.
  intros url attempts delay w H.
  unfold fetchJsonWithRetry, fetchTextWithRetry.
  replace (Z.to_nat attempts) with 0%nat by lia.
  split; reflexivity.
Qed.

Lemma retry_without_attempts_throws_unknown_error_witness :
  fetchJsonWithRetry "u" 0 300 world_retry
  = (Throw (Error "fetchJsonWithRetry: unknown error"), world_retry)
  /\ fetchTextWithRetry "u" 0 300 world_retry
     = (Throw (Error "fetchTextWithRetry: unknown error"), world_retry).
Proof.
  exact (retry_without_attempts_throws_unknown_error "u" 0 300 world_retry
           ltac:(lia)).
Defined.

(** ** The requests and the time of the sources and of the handlers *)

Lemma within_fetchJsonWithRetry url attempts delay :
  1 <= attempts -> 1 <= delay -> delay * (attempts - 1) <= TIMEOUT_MAX ->
  within (Z.to_nat attempts) (delay * (attempts * (attempts - 1) / 2))
         (fetchJsonWithRetry url attempts delay).
Proof.
  intros Ha Hd Hmax w r w' Hrun.
  destruct (fetchJsonWithRetry_time _ _ _ _ _ _ Ha Hd Hmax Hrun)
    as (k & H1 & H2 & Hlog & Hnet & Hclk).
  destruct (fetches_backoff url delay k 1) as [Hf _].
  assert (Hmax' : delay * (Z.of_nat k - 1) <= TIMEOUT_MAX) by nia.
  destruct (backoff_pause url delay k Hd Hmax' H1) as (F & E1 & E2).
  exists (repeat url k), (sleeps (backoff url delay 1 k)).
  rewrite repeat_length, Hlog, fetches_app, sleeps_app, Hf, E2.
  repeat split; auto; try lia.
  apply Z.mul_le_mono_nonneg_l; [lia|]. apply triangle_mono. lia.
Qed.

Lemma within_fetchTextWithRetry url attempts delay :
  1 <= attempts -> 1 <= delay -> delay * (attempts - 1) <= TIMEOUT_MAX ->
  within (Z.to_nat attempts) (delay * (attempts * (attempts - 1) / 2))
         (fetchTextWithRetry url attempts delay).
Proof.
  intros Ha Hd Hmax w r w' Hrun.
  destruct (fetchTextWithRetry_time _ _ _ _ _ _ Ha Hd Hmax Hrun)
    as (k & H1 & H2 & Hlog & Hnet & Hclk).
  destruct (fetches_backoff url delay k 1) as [Hf _].
  assert (Hmax' : delay * (Z.of_nat k - 1) <= TIMEOUT_MAX) by nia.
  destruct (backoff_pause url delay k Hd Hmax' H1) as (F & E1 & E2).
  exists (repeat url k), (sleeps (backoff url delay 1 k)).
  rewrite repeat_length, Hlog, fetches_app, sleeps_app, Hf, E2.
  repeat split; auto; try lia.
  apply Z.mul_le_mono_nonneg_l; [lia|]. apply triangle_mono. lia.
Qed.

Lemma within_fromFRED : within 3 900 fromFRED.
Proof.
  unfold fromFRED. within_tac.
  exact (within_fetchJsonWithRetry _ 3 300 ltac:(lia) ltac:(lia)
           ltac:(unfold TIMEOUT_MAX; lia)).
Qed.

Lemma within_fromFMP : within 2 400 fromFMP.
Proof.
  unfold fromFMP. within_tac.
  exact (within_fetchJsonWithRetry _ 2 400 ltac:(lia) ltac:(lia)
           ltac:(unfold TIMEOUT_MAX; lia)).
Qed.

Lemma within_fromCBOE : within 2 400 fromCBOE.
Proof.
  unfold fromCBOE. within_tac.
  exact (within_fetchTextWithRetry _ 2 400 ltac:(lia) ltac:(lia)
           ltac:(unfold TIMEOUT_MAX; lia)).
Qed.

Lemma within_fromStooq : within 2 400 fromStooq.
Proof.
  unfold fromStooq. within_tac.
  exact (within_fetchTextWithRetry _ 2 400 ltac:(lia) ltac:(lia)
           ltac:(unfold TIMEOUT_MAX; lia)).
Qed.

Lemma still_crash tried e : still (crash tried e).
Proof. unfold crash. still_tac. Qed.

Lemma still_last_resort tried : still (last_resort tried).
Proof. unfold last_resort. still_tac. Qed.

#[local] Hint Resolve still_crash still_last_resort : still.

Lemma within_block n p src (a : Vix quote) tried :
  0 <= p -> within n p a -> within n p (block src a tried).
Proof. intros Hp Ha. unfold block. within_tac. exact Ha. Qed.

Lemma within_handler_of n1 p1 n2 p2 n3 p3 n4 p4 (a1 a2 a3 a4 : Vix quote) :
  0 <= p1 -> 0 <= p2 -> 0 <= p3 -> 0 <= p4 ->
  within n1 p1 a1 -> within n2 p2 a2 -> within n3 p3 a3 -> within n4 p4 a4 ->
  within (n1 + (n2 + (n3 + n4))) (p1 + (p2 + (p3 + p4)))
         (handler_of a1 a2 a3 a4).
Proof.
  intros P1 P2 P3 P4 H1 H2 H3 H4. unfold handler_of.
  apply within_try_catch_still; [lia | | intro; apply still_crash].
  apply within_bind; [lia | apply within_block; assumption |].
  intros [answer|tried]; [apply within_still; [lia | apply still_ret]|].
  apply within_try_catch_still; [lia | | intro; apply still_crash].
  apply within_bind; [lia | apply within_block; assumption |].
  intros [answer|tried2]; [apply within_still; [lia | apply still_ret]|].
  apply within_try_catch_still; [lia | | intro; apply still_crash].
  apply within_bind; [lia | apply within_block; assumption |].
  intros [answer|tried3]; [apply within_still; [lia | apply still_ret]|].
  apply within_try_catch_still; [lia | | intro; apply still_crash].
  apply (within_weaken (n4 + 0) (p4 + 0)); [lia | lia |].
  apply within_bind; [lia | apply within_block; assumption |].
  intros [answer|tried4]; [apply within_still; [lia | apply still_ret]|].
  apply within_still; [lia|]. still_tac.
Qed.

(** X3: one invocation of the handler of vixIndex.js sends at most nine
    requests (three to FRED, two to each of the others), each answered by
    the next answer of the network; it sleeps at most 2100 milliseconds in
    all, and the time it takes is the time of its requests plus its
    sleeps. *)
Theorem vix_handler_budget : within 9 2100 VixIndex.handler.
Proof.
  exact (within_handler_of 3 900 2 400 2 400 2 400 _ _ _ _
           ltac:(lia) ltac:(lia) ltac:(lia) ltac:(lia)
           within_fromFRED within_fromFMP within_fromCBOE within_fromStooq).
Qed.

Lemma all_fail_four {G A} (a1 a2 a3 a4 : M G A) w errs w' :
  all_fail [a1; a2; a3; a4] w errs w' ->
  exists e1 e2 e3 e4, errs = [e1; e2; e3; e4].
Proof.
  intros H.
  repeat match goal with
         | H : all_fail _ _ _ _ |- _ => inversion H; clear H; subst
         end.
  do 4 eexists. reflexivity.
Qed.

(** X4: the handler of vixIndex.js never throws, and it has three answers,
    all with the three headers.  When a source returns a quote [q] after
    those before it threw: 200 with the fields of [q] and the time, and
    [cached] set from [q].  When the four sources throw [e1] to [e4]:
    [cached] is left as it was, and the answer is 200 with the price, the
    change and the source of [cached] (followed by [" (cached)"]) when
    [cached] holds a price younger than two hours, and 500 with the error
    ["All sources failed and no fresh cache"] otherwise, both with the four
    entries of [tried], one for each source with its error.  The outer
    [catch] ("Unhandled error") is never taken. *)
Theorem vix_handler_always_answers :
  forall w : world cache,
    exists a w',
      VixIndex.handler w = (Ok a, w')
      /\ headers a
         = [ ("Content-Type", "application/json");
             ("Access-Control-Allow-Origin", "*");
             ("Cache-Control", "no-store, must-revalidate") ]
      /\ ((exists i q errs w1,
              first_success vix_sources w i q errs w1
              /\ w' = with_globals w1 (remember q (clock w1))
              /\ In (VixIndex.source q) vix_source_labels
              /\ statusCode a = 200
              /\ body a
                 = VObj [ ("price", stringify (VNum (VixIndex.price q)));
                          ("changePercent",
                           match VixIndex.changePercent q with
                           | Some x => stringify (VNum x)
                           | None => VNull
                           end);
                          ("source", VStr (VixIndex.source q));
                          ("timestamp", VStr (toISOString (clock w1))) ]
              /\ globals w'
                 = {| cached_price := Some (VixIndex.price q);
                      cached_changePercent := VixIndex.changePercent q;
                      cached_source := VixIndex.source q;
                      cached_timestamp := clock w1 |})
          \/ (exists e1 e2 e3 e4,
                 let entry := fun (src : string) (e : error) =>
                   VObj [ ("src", VStr src); ("ok", VBool false);
                          ("err", VStr (message e)) ] in
                 let tried :=
                   VArr [ entry "FRED" e1; entry "FMP" e2;
                          entry "CBOE" e3; entry "Stooq" e4 ] in
                 all_fail vix_sources w [e1; e2; e3; e4] w'
                 /\ globals w' = globals w
                 /\ ((exists p,
                         cached_price (globals w) = Some p
                         /\ clock w' - cached_timestamp (globals w) < window
                         /\ statusCode a = 200
                         /\ body a
                            = VObj [ ("price", stringify (VNum p));
                                     ("changePercent",
                                      match cached_changePercent (globals w) with
                                      | Some x => stringify (VNum x)
                                      | None => VNull
                                      end);
                                     ("source",
                                      VStr (cached_source (globals w) ++ " (cached)"));
                                     ("timestamp", VStr (toISOString (clock w')));
                                     ("_debug", VObj [ ("tried", tried) ]) ])
                     \/ ((cached_price (globals w) = None
                          \/ window <= clock w' - cached_timestamp (globals w))
                         /\ statusCode a = 500
                         /\ body a
                            = VObj [ ("error",
                                      VStr "All sources failed and no fresh cache");
                                     ("_debug", VObj [ ("tried", tried) ]);
                                     ("timestamp", VStr (toISOString (clock w'))) ])))).
Proof.
  intros w.
  destruct (chain_cases vix_sources w)
    as [(i & q & errs & w1 & H) | (errs & w1 & H)].
  - destruct (live_answer_fields q (clock w1)) as (Hs & Hh & Hb).
    exists (VixIndex.respond 200 (live_payload q (clock w1))),
           (with_globals w1 (remember q (clock w1))).
    split; [apply (handler_of_first_success _ _ _ _ _ _ _ _ _ H)|].
    split; [exact Hh|]. left. exists i, q, errs, w1.
    split; [exact H|]. split; [reflexivity|].
    split; [apply (first_success_source _ _ _ _ _ H)|].
    split; [exact Hs|]. split; [exact Hb|]. reflexivity.
  - destruct (all_fail_calls _ _ vix_sources_announce _ _ _ H) as (Hg & _).
    destruct (all_fail_four _ _ _ _ _ _ _ H) as (e1 & e2 & e3 & e4 & ->).
    unfold VixIndex.handler. rewrite (handler_of_all_fail _ _ _ _ _ _ _ H).
    cbn [failures vix_labels].
    destruct (cached_price (globals w1)) as [p|] eqn:P.
    + destruct (Z_lt_le_dec (clock w1 - cached_timestamp (globals w1)) window)
        as [Hage|Hage].
      * rewrite (last_resort_fresh _ _ _ P Hage).
        eexists; eexists; split; [reflexivity|]. split; [reflexivity|].
        right. exists e1, e2, e3, e4. cbv zeta.
        split; [exact H|]. split; [exact Hg|].
        left. exists p. rewrite <- Hg.
        split; [exact P|]. split; [exact Hage|]. split; [reflexivity|].
        cbn [body VixIndex.respond]. unfold cached_payload. rewrite P.
        destruct (cached_changePercent (globals w1)); reflexivity.
      * rewrite last_resort_stale by (right; exact Hage).
        eexists; eexists; split; [reflexivity|]. split; [reflexivity|].
        right. exists e1, e2, e3, e4. cbv zeta.
        split; [exact H|]. split; [exact Hg|].
        right. rewrite <- Hg. split; [right; exact Hage|].
        split; reflexivity.
    + rewrite last_resort_stale by (left; exact P).
      eexists; eexists; split; [reflexivity|]. split; [reflexivity|].
      right. exists e1, e2, e3, e4. cbv zeta.
      split; [exact H|]. split; [exact Hg|].
      right. rewrite <- Hg. split; [left; exact P|].
      split; reflexivity.
Qed.

Lemma present_nonempty o k : present o = Some k -> Str.nonempty k = true.
Proof.
  destruct o as [[|c t]|]; cbn; intros H; inversion H; reflexivity.
Qed.



(** *** gold.js *)

Lemma within_tdGold : within 1 0 Gold.tdGold.
Proof. unfold Gold.tdGold. within_tac. apply within_fetch. Qed.

Lemma within_fmpGold : within 1 0 Gold.fmpGold.
Proof. unfold Gold.fmpGold. within_tac. apply within_fetch. Qed.

Lemma within_gold_fredLatestPair sid : within 1 0 (Gold.fredLatestPair sid).
Proof. unfold Gold.fredLatestPair. within_tac. apply within_fetch. Qed.

Lemma within_try_each fns :
  Forall (within 1 0) fns ->
  forall tried, within (List.length fns) 0 (Gold.try_each fns tried).
Proof.
  induction 1 as [|fn rest Hfn Hrest IH]; intros tried; cbn [Gold.try_each List.length].
  - apply within_still; [lia|]. still_tac.
  - apply (within_bind 1 0 (List.length rest) 0); [lia | |].
    + within_tac. exact Hfn.
    + intros [answer|tried']; [apply within_still; [lia | apply still_ret] | apply IH].
Qed.

Lemma all_fail_length {G A} (fns : list (M G A)) w errs w' :
  all_fail fns w errs w' -> List.length errs = List.length fns.
Proof. induction 1; cbn; congruence. Qed.

(** X5: the handler of gold.js never throws and always answers 200, with
    the two headers.  When a source returns a quote [q] after those before
    it threw, the body is the object of the fields of [q] and of the time;
    when the four sources throw [e1] to [e4], it is the error object, whose
    [tried] holds the message of each, in the order of the chain.  The
    handler sends at most four requests, one for each source, and never
    sleeps. *)
Theorem gold_handler_always_answers_200 :
  (forall w : world unit,
      exists a w',
        Gold.handler w = (Ok a, w')
        /\ statusCode a = 200
        /\ headers a
           = [ ("Content-Type", "application/json");
               ("Access-Control-Allow-Origin", "*") ]
        /\ ((exists i q errs,
                first_success Gold.attempts w i q errs w'
                /\ body a
                   = VObj [ ("price", stringify (VNum (Gold.price q)));
                            ("pct",
                             match Gold.pct q with
                             | Some x => stringify (VNum x)
                             | None => VNull
                             end);
                            ("source", VStr (Gold.source q));
                            ("timestamp", VStr (toISOString (clock w'))) ])
            \/ (exists e1 e2 e3 e4,
                   all_fail Gold.attempts w [e1; e2; e3; e4] w'
                   /\ body a
                      = VObj [ ("error", VStr "All gold sources failed");
                               ("_debug",
                                VObj [ ("tried",
                                        VArr [ VStr (Gold.describe e1);
                                               VStr (Gold.describe e2);
                                               VStr (Gold.describe e3);
                                               VStr (Gold.describe e4) ]) ]);
                               ("timestamp", VStr (toISOString (clock w'))) ])))
  /\ within 4 0 Gold.handler.
Proof.
  split.
  - intros w.
    destruct (chain_cases Gold.attempts w)
      as [(i & q & errs & w1 & H) | (errs & w1 & H)].
    + destruct (gold_answer_fields q (clock w1)) as (Hs & Hh & Hb).
      eexists; eexists.
      split; [apply (try_each_first_success _ _ _ _ _ _ _ H)|].
      split; [exact Hs|]. split; [exact Hh|]. left.
      exists i, q, errs. split; [exact H | exact Hb].
    + destruct (all_fail_four _ _ _ _ _ _ _ H) as (e1 & e2 & e3 & e4 & ->).
      eexists; eexists.
      split; [apply (try_each_all_fail _ _ _ _ _ H)|].
      split; [reflexivity|]. split; [reflexivity|]. right.
      exists e1, e2, e3, e4. split; [exact H | reflexivity].
  - apply (within_try_each Gold.attempts).
    repeat (apply Forall_cons;
            [first [apply within_tdGold | apply within_fmpGold
                   | apply within_gold_fredLatestPair]|]).
    apply Forall_nil.
Qed.

(** X6: with none of the three keys in the environment (not set, or
    empty), the handler of gold.js sends no request: each of its four
    sources throws before it calls [fetch], and the answer lists the four
    missing keys. *)
Theorem gold_without_keys_sends_nothing :
  forall w : world unit,
    present (TWELVE_KEY (environ w)) = None ->
    present (FMP_KEY (environ w)) = None ->
    present (FRED_KEY (environ w)) = None ->
    exists w',
      Gold.handler w
      = (Ok (Gold.respond 200
               (Gold.failure_payload
                  [ "TWELVE_KEY missing"; "FMP_KEY missing";
                    "FRED_KEY missing"; "FRED_KEY missing" ] (clock w))), w')
      /\ net w' = net w /\ clock w' = clock w
      /\ fetches (log w') = fetches (log w).
Proof.
  intros w H1 H2 H3. eexists. split.
  - unfold Gold.handler, Gold.attempts, Gold.try_each, Gold.tdGold, Gold.fmpGold,
      Gold.fredLatestPair, bind, try_catch, emit, getenv, ret, throw, now.
    cbn [environ]. rewrite H1. cbn. rewrite H2. cbn. rewrite H3. cbn.
    rewrite H3. cbn. reflexivity.
  - cbn. rewrite !fetches_app, !app_nil_r. auto.
Qed.

Lemma gold_without_keys_sends_nothing_witness :
  exists w',
    Gold.handler (Gold.enter env_none [answer_json twelve_gold] 1700000000000)
    = (Ok (Gold.respond 200
             (Gold.failure_payload
                [ "TWELVE_KEY missing"; "FMP_KEY missing";
                  "FRED_KEY missing"; "FRED_KEY missing" ] 1700000000000)), w')
    /\ net w' = [answer_json twelve_gold] /\ clock w' = 1700000000000
    /\ fetches (log w') = [].
Proof.
  exact (gold_without_keys_sends_nothing
           (Gold.enter env_none [answer_json twelve_gold] 1700000000000)
           eq_refl eq_refl eq_refl).
Defined.

(** *** dxy.js *)

Lemma dxy_answer_of_ok json t a :
  Dxy.answer_of json t = Ok a ->
  exists latest prior,
    isFinite latest = true /\ isFinite prior = true
    /\ a = Dxy.respond 200 (Dxy.payload latest prior t).
Proof.
  unfold Dxy.answer_of.
  destruct (Dxy.observations json) as [[|o0 [|o1 rest]]|e]; try discriminate.
  destruct (isFinite (parseFloat (prop o0 "value"))) eqn:F0;
    destruct (isFinite (parseFloat (prop o1 "value"))) eqn:F1;
    cbn; try discriminate.
  intros H; inversion H. eauto.
Qed.

Lemma dxy_attempt_ok w a w' :
  Dxy.attempt w = (Ok a, w') ->
  exists latest prior,
    isFinite latest = true /\ isFinite prior = true
    /\ a = Dxy.respond 200 (Dxy.payload latest prior (clock w')).
Proof.
  unfold Dxy.attempt. intros H.
  apply bind_ok_inv in H. destruct H as (key & w1 & _ & H).
  destruct (present key) as [k|]; [|discriminate H].
  apply bind_ok_inv in H. destruct H as (res & w2 & _ & H).
  destruct (negb (ok res)); [discriminate H|].
  apply bind_ok_inv in H. destruct H as (json & w3 & _ & H).
  apply bind_ok_inv in H. destruct H as (t & w4 & Hnow & H).
  inversion Hnow; subst t w4; clear Hnow.
  destruct (Dxy.answer_of json (clock w3)) as [b|e] eqn:E; cbn in H;
    inversion H; subst b w'.
  apply (dxy_answer_of_ok _ _ _ E).
Qed.

Lemma within_dxy_handler : within 1 0 Dxy.handler.
Proof.
  unfold Dxy.handler, Dxy.attempt. within_tac. apply within_fetch.
Qed.

(** X7: the handler of dxy.js never throws.  It answers 200 with a price
    and a change computed from two finite numbers, or 500 with the message
    of the error, after writing the error to the console; both carry the two
    headers.  It sends at most one request and never sleeps. *)
Theorem dxy_handler_always_answers :
  (forall w : world unit,
      exists a w',
        Dxy.handler w = (Ok a, w')
        /\ headers a = Dxy.json_headers
        /\ ((exists latest prior,
                isFinite latest = true /\ isFinite prior = true
                /\ a = Dxy.respond 200 (Dxy.payload latest prior (clock w')))
            \/ (exists err,
                   a = Dxy.respond 500 (Dxy.failure_payload err (clock w'))
                   /\ exists pre,
                       log w' = (pre ++ [EvConsole ("dxy.js error: "
                                                     ++ error_string err)])%list)))
  /\ within 1 0 Dxy.handler.
Proof.
  split; [|apply within_dxy_handler].
  intros w. unfold Dxy.handler, try_catch.
  destruct (Dxy.attempt w) as [[a|e] w1] eqn:E.
  - exists a, w1. split; [reflexivity|].
    destruct (dxy_attempt_ok _ _ _ E) as (latest & prior & F1 & F2 & Ha).
    subst a. split; [reflexivity|]. left. eauto.
  - eexists; eexists. split; [reflexivity|]. split; [reflexivity|].
    right. exists e. split; [reflexivity|]. cbn. eexists; reflexivity.
Qed.

(** X8: without [FRED_KEY] (not set, or empty) the handler of dxy.js sends
    no request: it answers 500 with the error ["FRED_KEY missing"]. *)
Theorem dxy_without_key_sends_nothing :
  forall w : world unit,
    present (FRED_KEY (environ w)) = None ->
    exists w',
      Dxy.handler w
      = (Ok (Dxy.respond 500
               (Dxy.failure_payload (Error "FRED_KEY missing") (clock w))), w')
      /\ net w' = net w /\ clock w' = clock w
      /\ fetches (log w') = fetches (log w).
Proof.
  intros w H. eexists. split.
  - unfold Dxy.handler, Dxy.attempt, bind, try_catch, getenv.
    rewrite H. cbn. reflexivity.
  - cbn. rewrite !fetches_app, !app_nil_r. auto.
Qed.

Lemma dxy_without_key_sends_nothing_witness :
  exists w',
    Dxy.handler (Dxy.enter env_fmp [answer_json dxy_zero_body] 0)
    = (Ok (Dxy.respond 500
             (Dxy.failure_payload (Error "FRED_KEY missing") 0)), w')
    /\ net w' = [answer_json dxy_zero_body] /\ clock w' = 0
    /\ fetches (log w') = [].
Proof.
  exact (dxy_without_key_sends_nothing
           (Dxy.enter env_fmp [answer_json dxy_zero_body] 0) eq_refl).
Defined.

(** *** fetchAllData.js *)

Lemma announces_fetchTwelve symbol :
  announces "fetchTwelve" (FetchAllData.fetchTwelve symbol).
Proof. apply announces_enter. quiet_tac. Qed.

Lemma announces_fetchFMP symbol :
  announces "fetchFMP" (FetchAllData.fetchFMP symbol).
Proof. apply announces_enter. quiet_tac. Qed.

Lemma within_fetchTwelve symbol : within 1 0 (FetchAllData.fetchTwelve symbol).
Proof. unfold FetchAllData.fetchTwelve. within_tac. apply within_fetch. Qed.

Lemma within_fetchFMP symbol : within 1 0 (FetchAllData.fetchFMP symbol).
Proof. unfold FetchAllData.fetchFMP. within_tac. apply within_fetch. Qed.

Lemma within_tdWithFmpFallback symbol :
  within 2 0 (FetchAllData.tdWithFmpFallback symbol).
Proof.
  unfold FetchAllData.tdWithFmpFallback.
  apply (within_try_catch 1 0 1 0); [lia | lia | |].
  - within_tac. apply within_fetchTwelve.
  - intros e. within_tac. apply within_fetchFMP.
Qed.

Lemma tdWithFmpFallback_cases symbol (w : world unit) :
  exists v w',
    FetchAllData.tdWithFmpFallback symbol w = (Ok v, w')
    /\ ((exists q,
            FetchAllData.fetchTwelve symbol w = (Ok q, w')
            /\ v = FetchAllData.quote_object q
            /\ calls (log w') = (calls (log w) ++ ["fetchTwelve"])%list)
        \/ (exists e1,
               FetchAllData.fetchTwelve symbol w = (Throw e1, w')
               /\ present (FMP_KEY (environ w)) = None
               /\ v = FetchAllData.error_object e1
               /\ calls (log w') = (calls (log w) ++ ["fetchTwelve"])%list)
        \/ (exists e1 w1 r,
               FetchAllData.fetchTwelve symbol w = (Throw e1, w1)
               /\ present (FMP_KEY (environ w)) <> None
               /\ FetchAllData.fetchFMP symbol w1 = (r, w')
               /\ v = match r with
                      | Ok q => FetchAllData.quote_object q
                      | Throw e2 => FetchAllData.error_object e2
                      end
               /\ calls (log w')
                  = (calls (log w) ++ ["fetchTwelve"; "fetchFMP"])%list)).
Proof.
  unfold FetchAllData.tdWithFmpFallback, try_catch at 1, bind at 1.
  destruct (FetchAllData.fetchTwelve symbol w) as [[q|e1] w1] eqn:E.
  - destruct (announces_fetchTwelve symbol _ _ _ E) as (_ & _ & Hc).
    eexists; eexists. split; [reflexivity|]. left. exists q. auto.
  - destruct (announces_fetchTwelve symbol _ _ _ E) as (_ & He & Hc).
    unfold try_catch, bind at 1, getenv. rewrite He.
    destruct (present (FMP_KEY (environ w))) as [k|] eqn:K.
    + unfold bind.
      destruct (FetchAllData.fetchFMP symbol w1) as [[q|e2] w2] eqn:E2;
        destruct (announces_fetchFMP symbol _ _ _ E2) as (_ & _ & Hc2);
        (eexists; eexists; split; [reflexivity|]; right; right;
         exists e1, w1; eexists; split; [reflexivity|];
         split; [discriminate|]; split; [exact E2|]; split; [reflexivity|];
         rewrite Hc2, Hc, <- app_assoc; reflexivity).
    + eexists; eexists. split; [reflexivity|]. right; left. exists e1. auto.
Qed.

(** X9: [tdWithFmpFallback] never throws.  When TwelveData answers, it
    returns that quote and FMP is not asked.  When TwelveData fails and
    [FMP_KEY] is missing, it returns the error of TwelveData, and FMP is not
    asked either.  When TwelveData fails and [FMP_KEY] is there, it returns
    the quote of FMP or the error of FMP; the error of TwelveData is then
    lost.  It sends at most two requests. *)
Theorem td_with_fmp_fallback :
  forall (symbol : string),
    (forall w : world unit,
      exists v w',
        FetchAllData.tdWithFmpFallback symbol w = (Ok v, w')
        /\ ((exists q,
                FetchAllData.fetchTwelve symbol w = (Ok q, w')
                /\ v = FetchAllData.quote_object q
                /\ calls (log w') = (calls (log w) ++ ["fetchTwelve"])%list)
            \/ (exists e1,
                   FetchAllData.fetchTwelve symbol w = (Throw e1, w')
                   /\ present (FMP_KEY (environ w)) = None
                   /\ v = FetchAllData.error_object e1
                   /\ calls (log w') = (calls (log w) ++ ["fetchTwelve"])%list)
            \/ (exists e1 w1 r,
                   FetchAllData.fetchTwelve symbol w = (Throw e1, w1)
                   /\ present (FMP_KEY (environ w)) <> None
                   /\ FetchAllData.fetchFMP symbol w1 = (r, w')
                   /\ v = match r with
                          | Ok q => FetchAllData.quote_object q
                          | Throw e2 => FetchAllData.error_object e2
                          end
                   /\ calls (log w')
                      = (calls (log w) ++ ["fetchTwelve"; "fetchFMP"])%list)))
    /\ within 2 0 (FetchAllData.tdWithFmpFallback symbol).
Proof.
  intros symbol. split; [|apply within_tdWithFmpFallback].
  intros w. apply tdWithFmpFallback_cases.
Qed.

Lemma tdWithFmpFallback_returns symbol (w : world unit) :
  exists v w',
    FetchAllData.tdWithFmpFallback symbol w = (Ok v, w')
    /\ ((exists q, v = FetchAllData.quote_object q)
        \/ (exists e, v = FetchAllData.error_object e)).
Proof.
  destruct (tdWithFmpFallback_cases symbol w)
    as (v & w' & H & [(q & _ & Hv & _) | [(e & _ & _ & Hv & _)
                                         | (e & w1 & r & _ & _ & _ & Hv & _)]]);
    exists v, w'; (split; [exact H|]); [eauto | eauto |].
  destruct r; eauto.
Qed.

Lemma quote_or_error_shape v :
  (exists q, v = FetchAllData.quote_object q)
  \/ (exists e, v = FetchAllData.error_object e) ->
  (exists price pct : number,
      v = VObj [ ("price", VNum price); ("pct", VNum pct) ])
  \/ (exists msg, v = VObj [ ("error", VStr msg) ]).
Proof.
  intros [(q & ->) | (e & ->)]; [left | right].
  - exists (FetchAllData.price q), (FetchAllData.pct q). reflexivity.
  - eexists. reflexivity.
Qed.

Lemma pair_or_error_shape v :
  (exists p, v = FetchAllData.pair_object p)
  \/ (exists msg, v = VObj [ ("error", VStr msg) ]) ->
  (exists (price : number) (pct : option number),
      v = VObj [ ("price", VNum price);
                 ("pct", match pct with
                         | Some x => VNum x
                         | None => VNull
                         end) ])
  \/ (exists msg, v = VObj [ ("error", VStr msg) ]).
Proof.
  intros [(p & ->) | (msg & ->)]; [left | right].
  - exists (FetchAllData.pair_price p), (FetchAllData.pair_pct p). reflexivity.
  - eexists. reflexivity.
Qed.

Lemma internal_returns url (w : world unit) :
  exists v w',
    FetchAllData.internal url w = (Ok v, w')
    /\ fetches (log w') = (fetches (log w) ++ [url])%list.
Proof.
  unfold FetchAllData.internal, try_catch, bind.
  destruct (fetch url w) as [[r|e] w1] eqn:E.
  - assert (F : fetches (log w1) = (fetches (log w) ++ [url])%list).
    { unfold fetch in E. destruct (net w) as [|x rest]; [discriminate|].
      destruct (answer x); inversion E; cbn.
      rewrite fetches_app. reflexivity. }
    destruct (negb (ok r)); [eexists; eexists; split; [reflexivity | exact F]|].
    unfold res_json. destruct (json r); eexists; eexists; (split; [reflexivity | exact F]).
  - eexists; eexists. split; [reflexivity|].
    unfold fetch in E. destruct (net w) as [|x rest].
    + inversion E; cbn. rewrite fetches_app. reflexivity.
    + destruct (answer x); inversion E; cbn. rewrite fetches_app. reflexivity.
Qed.

Lemma within_all_fredLatestPair sid : within 1 0 (FetchAllData.fredLatestPair sid).
Proof. unfold FetchAllData.fredLatestPair. within_tac. apply within_fetch. Qed.

Lemma within_direct sid : within 1 0 (FetchAllData.direct sid).
Proof. unfold FetchAllData.direct. within_tac. apply within_all_fredLatestPair. Qed.

Lemma within_internal url : within 1 0 (FetchAllData.internal url).
Proof. unfold FetchAllData.internal. within_tac. apply within_fetch. Qed.

Lemma direct_returns sid (w : world unit) :
  exists v w',
    FetchAllData.direct sid w = (Ok v, w')
    /\ ((exists p, v = FetchAllData.pair_object p)
        \/ (exists msg, v = VObj [ ("error", VStr msg) ]))
    /\ exists urls, fetches (log w') = (fetches (log w) ++ urls)%list.
Proof.
  destruct (FetchAllData.direct sid w) as [r w'] eqn:E.
  destruct (within_direct sid _ _ _ E) as (urls & _ & _ & Hf & _).
  revert E. unfold FetchAllData.direct, try_catch, bind.
  destruct (FetchAllData.fredLatestPair sid w) as [[p|e] w1]; intros E;
    inversion E; subst; eexists; eexists; (split; [reflexivity|]);
    (split; [|exists urls; exact Hf]); eauto.
Qed.

Lemma within_fetchAll_handler event : within 10 0 (FetchAllData.handler event).
Proof.
  unfold FetchAllData.handler.
  apply within_still_bind; [lia | apply still_now | intros bust].
  apply within_still_bind; [lia | apply still_lift | intros hs].
  apply within_still_bind; [lia | apply still_lift | intros proto].
  apply within_still_bind; [lia | apply still_lift | intros host].
  apply (within_bind 2 0 8 0); [lia | apply within_tdWithFmpFallback | intros spy].
  apply (within_bind 2 0 6 0); [lia | apply within_tdWithFmpFallback | intros tsla].
  apply (within_bind 2 0 4 0); [lia | apply within_tdWithFmpFallback | intros lit].
  apply (within_bind 1 0 3 0); [lia | apply within_internal | intros yc].
  apply (within_bind 1 0 2 0); [lia | apply within_internal | intros bf].
  apply (within_bind 1 0 1 0); [lia | apply within_direct | intros gold].
  apply within_bind_still; [apply within_direct | intros dxy; apply still_ret].
Qed.

Lemma member_of_nullish v k :
  nullish v = true ->
  FetchAllData.member v k
  = Throw (TypeError ("Cannot read properties of " ++ ToString v
                        ++ " (reading '" ++ k ++ "')")).
Proof. intros H. unfold FetchAllData.member, get. rewrite H. reflexivity. Qed.

Lemma member_of_value v k :
  nullish v = false -> FetchAllData.member v k = Ok (prop v k).
Proof. intros H. unfold FetchAllData.member, get. rewrite H. reflexivity. Qed.



(** ** The copies of a function agree *)

Lemma few_rows t :
  (negb (Str.nonempty t) || String.eqb t "NO DATA")%bool = true ->
  (len (rows t) <? 2) = true.
Proof.
  destruct t as [|c t']; [intros _; vm_compute; reflexivity|].
  cbn [Str.nonempty negb orb]. intros H. apply String.eqb_eq in H.
  rewrite H. vm_compute. reflexivity.
Qed.

Lemma close_of_short row : (5 <=? len row) = false -> close_of row = NaN.
Proof.
  intros H. apply Z.leb_gt in H. unfold len in H. unfold close_of, at_index.
  cbn [Z.ltb Z.compare].
  replace (nth_error row (Z.to_nat 4)) with (@None string); [reflexivity|].
  symmetry. apply nth_error_None. lia.
Qed.

(** X11: [fromCBOE] and [fromStooq] read a CSV body the same way: they
    succeed on the same bodies, and then with the same price and the same
    change. *)
Theorem csv_sources_agree :
  forall csv : string,
    match cboe_quote csv, stooq_quote csv with
    | Ok a, Ok b =>
        VixIndex.price a = VixIndex.price b
        /\ changePercent a = changePercent b
    | Throw _, Throw _ => True
    | _, _ => False
    end.
Proof.
  intros csv. unfold cboe_quote, stooq_quote. cbv zeta.
  set (t := Str.trim csv).
  destruct (negb (Str.nonempty t) || String.eqb t "NO DATA") eqn:N.
  - rewrite (few_rows _ N). exact I.
  - destruct (len (rows t) <? 2); [exact I|].
    destruct (len (last_row (rows t) 1) <? 5); [exact I|].
    destruct (negb (isFinite (close_of (last_row (rows t) 1)))); [exact I|].
    split; [reflexivity|].
    destruct (3 <=? len (rows t)); [|reflexivity].
    destruct (5 <=? len (last_row (rows t) 2)) eqn:P; [reflexivity|].
    rewrite (close_of_short _ P). reflexivity.
Qed.

Lemma at_index_map {A B} (f : A -> B) (l : list A) (i : Z) :
  at_index (map f l) i = option_map f (at_index l i).
Proof.
  unfold at_index. destruct (i <? 0); [reflexivity|]. apply nth_error_map.
Qed.

Lemma len_map {A B} (f : A -> B) (l : list A) : len (map f l) = len l.
Proof. unfold len. rewrite length_map. reflexivity. Qed.

Lemma percent_of_infinite price b :
  isNaN (round2 (mul (div (sub price (S754_infinity b)) (S754_infinity b))
                     (Num.of_Z 100))) = true.
Proof.
  destruct price as [s|s| |s m e]; destruct b; try destruct s;
    vm_compute; reflexivity.
Qed.

(** The guards of the two copies of [fredLatestPair]. *)
Lemma pair_guards price v :
  isNaN v = false ->
  let gold := if isFinite v && negb (Num.eqb v zero)
              then Some (round2 (mul (div (sub price v) v) (Num.of_Z 100)))
              else None in
  let all := if truthy (VNum v)
             then Some (round2 (mul (div (sub price v) v) (Num.of_Z 100)))
             else None in
  gold = all
  \/ (gold = None /\ isFinite v = false
      /\ exists x, all = Some x /\ isNaN x = true).
Proof.
  intros Hv. destruct v as [s|s| |s m e]; cbn [isFinite truthy is_zero isNaN orb negb andb].
  - left. reflexivity.
  - right. split; [reflexivity|]. split; [reflexivity|].
    eexists. split; [reflexivity|]. apply percent_of_infinite.
  - discriminate.
  - left. destruct s; reflexivity.
Qed.

(** X12: the two copies of [fredLatestPair] (gold.js and fetchAllData.js)
    succeed on the same payloads and return the same price.  Their changes
    are the same, but for a previous observation that is infinite: there
    gold.js returns [null] and fetchAllData.js returns [NaN], which
    [JSON.stringify] writes as [null] as well. *)
Theorem fred_pair_copies_agree :
  forall (sid : string) (json : value),
    match Gold.pair_quote sid json, FetchAllData.pair_of sid json with
    | Ok q, Ok p =>
        Gold.price q = FetchAllData.pair_price p
        /\ (Gold.pct q = FetchAllData.pair_pct p
            \/ (Gold.pct q = None
                /\ exists x, FetchAllData.pair_pct p = Some x /\ isNaN x = true))
        /\ stringify (of_nullable (Gold.pct q))
           = stringify (of_nullable (FetchAllData.pair_pct p))
    | Throw _, Throw _ => True
    | _, _ => False
    end.
Proof.
  intros sid json.
  unfold Gold.pair_quote, FetchAllData.pair_of, Gold.clean_of, FetchAllData.clean_of.
  destruct (get json "observations") as [o|]; [|exact I].
  set (obs := match o with VArr l => l | _ => [] end).
  change FetchAllData.usable with Gold.usable.
  set (kept := filter Gold.usable obs).
  assert (K : Forall (fun o => isNaN (ToNumber (prop o "value")) = false) kept).
  { apply Forall_forall. intros x Hx. apply filter_In in Hx.
    destruct Hx as [_ Hx]. unfold Gold.usable in Hx.
    apply andb_prop in Hx. destruct Hx as [_ Hx].
    apply negb_true_iff in Hx. exact Hx. }
  cbv zeta. rewrite !len_map, !at_index_map.
  destruct (at_index kept (len kept - 1)) as [latest|]; cbn [option_map]; [|exact I].
  cbn [Gold.price FetchAllData.pair_price Gold.pct FetchAllData.pair_pct
       Gold.value_of FetchAllData.value_of].
  split; [reflexivity|].
  destruct (at_index kept (len kept - 2)) as [prior|] eqn:P; cbn [option_map].
  - assert (Hp : isNaN (ToNumber (prop prior "value")) = false).
    { rewrite Forall_forall in K. apply K.
      unfold at_index in P. destruct (_ <? 0); [discriminate|].
      apply nth_error_In in P. exact P. }
    unfold Gold.pair_pct, FetchAllData.pct_of.
    cbn [Gold.value_of FetchAllData.value_of].
    destruct (pair_guards (ToNumber (prop latest "value")) _ Hp)
      as [E | (E1 & _ & x & E2 & Hx)]; cbv zeta in *.
    + rewrite E. split; [left; reflexivity | reflexivity].
    + rewrite E1, E2. split; [right; split; [reflexivity | eauto]|].
      cbn [of_nullable stringify]. destruct x; try discriminate Hx. reflexivity.
  - cbn. split; [left; reflexivity | reflexivity].
Qed.

(** ** yieldSpread.js *)

Arguments YieldSpread.url : simpl never.

Import Together.

Lemma fetchLatestObservation_run series_id (w : world unit) :
  YieldSpread.fetchLatestObservation series_id w
  = (Ok (YieldSpread.settle series_id (arrival w 0),
         YieldSpread.settles (arrival w 0)),
     {| environ := environ w; net := tl (net w); clock := clock w;
        log := (log w ++ [EvFetch (YieldSpread.url series_id
                                     (FRED_KEY (environ w)))])%list;
        globals := globals w |}).
Proof.
  unfold YieldSpread.fetchLatestObservation, bind, getenv, YieldSpread.send, arrival.
  destruct (net w) as [|x rest]; reflexivity.
Qed.

Lemma arrival_tl (w : world unit) l i :
  arrival {| environ := environ w; net := tl (net w); clock := clock w;
             log := l; globals := globals w |} i
  = arrival w (S i).
Proof. unfold arrival. cbn. destruct (net w); [destruct i|]; reflexivity. Qed.

Lemma yield_handler_run (w : world unit) :
  let sent :=
    (log w ++ [EvFetch (YieldSpread.url "DGS10" (FRED_KEY (environ w)));
               EvFetch (YieldSpread.url "DGS2" (FRED_KEY (environ w)))])%list in
  let t := Z.max (clock w) (snd (promises w)) in
  YieldSpread.handler w
  = match fst (promises w) with
    | Ok ys =>
        (Ok (YieldSpread.respond
               (YieldSpread.success_payload (fst ys) (snd ys) t)),
         {| environ := environ w; net := tl (tl (net w)); clock := t;
            log := sent; globals := globals w |})
    | Throw err =>
        (Ok (YieldSpread.respond (YieldSpread.fallback_payload t)),
         {| environ := environ w; net := tl (tl (net w)); clock := t;
            log := (sent ++ [EvConsole ("yieldSpread error, falling back to 0: "
                                          ++ error_string err)])%list;
            globals := globals w |})
    end.
Proof.
  cbv zeta. unfold YieldSpread.handler, YieldSpread.attempt, try_catch.
  unfold bind at 1. rewrite fetchLatestObservation_run.
  unfold bind at 1. rewrite fetchLatestObservation_run.
  cbn [environ net clock log globals]. rewrite arrival_tl.
  fold (promises w).
  unfold bind at 1. unfold YieldSpread.wait_until at 1.
  cbn [environ net clock log globals].
  rewrite <- app_assoc. cbn [app].
  destruct (fst (promises w)) as [ys|err]; reflexivity.
Qed.

Lemma latest_of_not_nan sid json t v :
  YieldSpread.latest_of sid json t = Ok v -> isNaN v = false.
Proof.
  unfold YieldSpread.latest_of.
  destruct (get json "observations") as [[| | | | |l|]|]; try discriminate.
  destruct (YieldSpread.find_try _ l) as [[obs|]|]; try discriminate.
  destruct (negb (truthy obs)); [discriminate|].
  destruct (isNaN (parseFloat (prop obs "value"))) eqn:N; [discriminate|].
  intros H; inversion H; subst. exact N.
Qed.

Lemma settle_not_nan sid p v :
  YieldSpread.settle sid p = Ok v -> isNaN v = false.
Proof.
  unfold YieldSpread.settle.
  destruct (YieldSpread.arrives p) as [e|res]; [discriminate|].
  destruct (negb (ok res)); [discriminate|].
  destruct (json res); [|discriminate].
  apply latest_of_not_nan.
Qed.

Lemma all2_ok {A} (p1 p2 : result A * Z) ys :
  fst (YieldSpread.all2 p1 p2) = Ok ys ->
  fst p1 = Ok (fst ys) /\ fst p2 = Ok (snd ys)
  /\ snd (YieldSpread.all2 p1 p2) = Z.max (snd p1) (snd p2).
Proof.
  destruct p1 as [[a|e1] t1], p2 as [[b|e2] t2]; cbn; try discriminate.
  - intros H; inversion H; auto.
  - destruct (t1 <=? t2); discriminate.
Qed.

Lemma tl_tl_skipn {A} (l : list A) : tl (tl l) = skipn 2 l.
Proof. destruct l as [|x [|y l]]; reflexivity. Qed.

(** X13: the handler of yieldSpread.js never throws and always answers
    200, with the two headers.  It always sends its two requests, for DGS10
    and then for DGS2, also when the first one fails and also without
    [FRED_KEY] (the address then says [api_key=undefined]).  The answer is
    the spread of two values that are not [NaN], or the spread 0 of the
    fallback. *)
Theorem yield_spread_always_answers_200 :
  forall w : world unit,
    exists a w',
      YieldSpread.handler w = (Ok a, w')
      /\ statusCode a = 200
      /\ headers a = YieldSpread.json_headers
      /\ fetches (log w')
         = (fetches (log w)
              ++ [ YieldSpread.url "DGS10" (FRED_KEY (environ w));
                   YieldSpread.url "DGS2" (FRED_KEY (environ w)) ])%list
      /\ net w' = skipn 2 (net w)
      /\ ((exists y10 y2,
              isNaN y10 = false /\ isNaN y2 = false
              /\ a = YieldSpread.respond
                       (YieldSpread.success_payload y10 y2 (clock w')))
          \/ a = YieldSpread.respond (YieldSpread.fallback_payload (clock w'))).
Proof.
  intros w. pose proof (yield_handler_run w) as R. cbv zeta in R.
  destruct (fst (promises w)) as [ys|err] eqn:E; rewrite R; clear R;
    eexists; eexists; (split; [reflexivity|]);
    (split; [reflexivity|]); (split; [reflexivity|]);
    cbn [log net clock]; rewrite ?fetches_app, tl_tl_skipn; cbn [fetches flat_map app];
    rewrite ?app_nil_r; (split; [reflexivity|]); (split; [reflexivity|]).
  - left. exists (fst ys), (snd ys).
    unfold promises in E. apply all2_ok in E.
    destruct E as (E1 & E2 & _). cbn [fst] in E1, E2.
    split; [apply (settle_not_nan _ _ _ E1)|].
    split; [apply (settle_not_nan _ _ _ E2) | reflexivity].
  - right. reflexivity.
Qed.

(** X14: the two requests of yieldSpread.js are awaited together.  With
    two answers from the network, the handler takes no longer than the
    slower of the two; when both series are read it takes exactly that long;
    when DGS2 fails before DGS10 is there, or DGS10 fails first, it answers
    the fallback at that moment, without waiting for the other. *)
Theorem yield_spread_waits_for_the_slower :
  forall (w : world unit) (x1 x2 : exchange) (rest : list exchange) r w',
    net w = x1 :: x2 :: rest ->
    0 <= elapsed x1 -> 0 <= elapsed x2 ->
    YieldSpread.handler w = (r, w') ->
    clock w <= clock w' <= clock w + Z.max (elapsed x1) (elapsed x2)
    /\ (forall y10 y2,
           YieldSpread.settle "DGS10" (arrival w 0) = Ok y10 ->
           YieldSpread.settle "DGS2" (arrival w 1) = Ok y2 ->
           clock w' = clock w + Z.max (elapsed x1) (elapsed x2)
           /\ r = Ok (YieldSpread.respond
                        (YieldSpread.success_payload y10 y2 (clock w'))))
    /\ (forall e,
           YieldSpread.settle "DGS2" (arrival w 1) = Throw e ->
           elapsed x2 < elapsed x1 ->
           clock w' = clock w + elapsed x2
           /\ r = Ok (YieldSpread.respond
                        (YieldSpread.fallback_payload (clock w'))))
    /\ (forall e,
           YieldSpread.settle "DGS10" (arrival w 0) = Throw e ->
           elapsed x1 <= elapsed x2 ->
           clock w' = clock w + elapsed x1
           /\ r = Ok (YieldSpread.respond
                        (YieldSpread.fallback_payload (clock w')))).
Proof.
  intros w x1 x2 rest r w' Hnet H1 H2 Hrun.
  pose proof (yield_handler_run w) as R. cbv zeta in R. rewrite Hrun in R.
  unfold promises in R.
  assert (S0 : YieldSpread.settles (arrival w 0) = clock w + elapsed x1)
    by (unfold arrival; rewrite Hnet; reflexivity).
  assert (S1 : YieldSpread.settles (arrival w 1) = clock w + elapsed x2)
    by (unfold arrival; rewrite Hnet; reflexivity).
  rewrite S0, S1 in R.
  destruct (YieldSpread.settle "DGS10" (arrival w 0)) as [y10|e10];
    destruct (YieldSpread.settle "DGS2" (arrival w 1)) as [y2|e2];
    cbn [YieldSpread.all2 fst snd] in R.
  - inversion R; subst r w'; clear R. cbn [clock].
    split; [lia|]. split; [|split; intros; discriminate].
    intros y10' y2' E1 E2. inversion E1; inversion E2; subst.
    split; [lia | reflexivity].
  - inversion R; subst r w'; clear R. cbn [clock].
    split; [lia|]. split; [intros; discriminate|]. split; [|intros; discriminate].
    intros e _ Hlt. split; [lia | reflexivity].
  - inversion R; subst r w'; clear R. cbn [clock].
    split; [lia|]. split; [intros; discriminate|]. split; [intros; discriminate|].
    intros e _ Hle. split; [lia | reflexivity].
  - destruct (clock w + elapsed x1 <=? clock w + elapsed x2) eqn:C;
      cbn [fst snd] in R; inversion R; subst r w'; clear R; cbn [clock];
      [apply Z.leb_le in C | apply Z.leb_gt in C];
      (split; [lia|]); (split; [intros; discriminate|]);
      split; intros e _ Hc; (split; [lia | reflexivity]).
Qed.

Lemma yield_spread_waits_for_the_slower_witness :
  clock world_spread <= clock (snd (YieldSpread.handler world_spread))
  <= clock world_spread + Z.max 30 50.
Proof.
  exact (proj1 (yield_spread_waits_for_the_slower
                  world_spread (spread_answer 30 spread_ten)
                  (spread_answer 50 spread_two) []
                  (fst (YieldSpread.handler world_spread))
                  (snd (YieldSpread.handler world_spread))
                  eq_refl ltac:(cbn; lia) ltac:(cbn; lia)
                  (surjective_pairing _))).
Defined.

Lemma find_try_acceptable todayStr rows :
  YieldSpread.find_try (YieldSpread.acceptable todayStr)
    (map (fun r => VObj [ ("date", VStr (fst r)); ("value", VStr (snd r)) ]) rows)
  = Some (option_map
            (fun r => VObj [ ("date", VStr (fst r)); ("value", VStr (snd r)) ])
            (pick todayStr rows)).
Proof.
  unfold pick. induction rows as [|[d v] rows IH]; [reflexivity|].
  cbn [map YieldSpread.find_try List.find fst snd].
  replace (YieldSpread.acceptable todayStr
             (VObj [ ("date", VStr d); ("value", VStr v) ]))
    with (Some (negb (String.eqb v ".") && String.leb d todayStr))
    by reflexivity.
  destruct (negb (String.eqb v ".") && String.leb d todayStr);
    [reflexivity | exact IH].
Qed.

(** X15: [fetchLatestObservation] reads, of a payload of observations with
    a date and a value, the first one in the order of the payload whose value
    is not ["."] and whose date is not after today (in UTC): an observation
    dated in the future is passed over.  The value is read by [parseFloat];
    when that gives [NaN] the function throws, it does not go on to the next
    observation. *)
Theorem yield_observation_choice :
  forall (series_id : string) (rows : list (string * string)) (t : Z),
    YieldSpread.latest_of series_id (series rows) t
    = match pick (YieldSpread.today t) rows with
      | None =>
          Throw (Error ("No valid recent observation for " ++ series_id))
      | Some r =>
          if isNaN (NumStr.parseFloat (snd r))
          then Throw (Error ("Parsed NaN for " ++ series_id ++ " observation"))
          else Ok (NumStr.parseFloat (snd r))
      end.
Proof.
  intros series_id rows t. unfold YieldSpread.latest_of, series.
  replace (get _ "observations") with
    (Some (VArr (map (fun r => VObj [ ("date", VStr (fst r));
                                      ("value", VStr (snd r)) ]) rows)))
    by reflexivity.
  rewrite find_try_acceptable.
  destruct (pick (YieldSpread.today t) rows) as [[d v]|]; [|reflexivity].
  cbn [option_map fst snd truthy negb].
  replace (parseFloat (prop (VObj [ ("date", VStr d); ("value", VStr v) ]) "value"))
    with (NumStr.parseFloat v) by reflexivity.
  reflexivity.
Qed.

(** *** The sources of gold.js check what they return *)

Lemma finite_or_null_finite x y :
  Gold.finite_or_null x = Some y -> isFinite y = true.
Proof.
  unfold Gold.finite_or_null. destruct (isFinite x) eqn:F; [|discriminate].
  intros H; inversion H; subst. exact F.
Qed.

Lemma td_quote_finite json q :
  Gold.td_quote json = Ok q ->
  isFinite (Gold.price q) = true
  /\ (forall x, Gold.pct q = Some x -> isFinite x = true).
Proof.
  unfold Gold.td_quote. destruct (get json "status") as [st|]; [|discriminate].
  destruct (is_string st "error"); [discriminate|].
  destruct (isFinite (ToNumber (prop json "close"))) eqn:F; [|discriminate].
  cbn [negb]. intros H; inversion H; subst; cbn.
  split; [exact F | apply finite_or_null_finite].
Qed.

Lemma gold_fmp_quote_finite json q :
  Gold.fmp_quote json = Ok q ->
  isFinite (Gold.price q) = true
  /\ (forall x, Gold.pct q = Some x -> isFinite x = true).
Proof.
  unfold Gold.fmp_quote. destruct json as [| | | | |items|]; try discriminate.
  destruct (negb (truthy (index items 0))); [discriminate|].
  destruct (isFinite (ToNumber (prop (index items 0) "price"))) eqn:F;
    [|discriminate].
  cbn [negb]. intros H; inversion H; subst; cbn.
  split; [exact F | apply finite_or_null_finite].
Qed.

Lemma td_quote_cases json st :
  get json "status" = Some st -> is_string st "error" = false ->
  Gold.td_quote json
  = if isFinite (ToNumber (prop json "close"))
    then Ok {| Gold.price := ToNumber (prop json "close");
               Gold.pct :=
                 Gold.finite_or_null (ToNumber (prop json "percent_change"));
               Gold.source := "TwelveData XAU/USD" |}
    else Throw (Error "TwelveData: bad price").
Proof.
  intros Hst He. unfold Gold.td_quote. rewrite Hst, He.
  destruct (isFinite (ToNumber (prop json "close"))); reflexivity.
Qed.

Lemma gold_fmp_quote_cases items :
  truthy (index items 0) = true ->
  Gold.fmp_quote (VArr items)
  = if isFinite (ToNumber (prop (index items 0) "price"))
    then Ok {| Gold.price := ToNumber (prop (index items 0) "price");
               Gold.pct :=
                 Gold.finite_or_null
                   (ToNumber (prop (index items 0) "changesPercentage"));
               Gold.source := "FMP GC=F" |}
    else Throw (Error "FMP: bad price").
Proof.
  intros Ht. unfold Gold.fmp_quote. rewrite Ht.
  destruct (isFinite (ToNumber (prop (index items 0) "price"))); reflexivity.
Qed.



(** ** buffett.js *)

Arguments Buffett.market_cap_url : simpl never.
Arguments Buffett.gdp_url : simpl never.
Arguments Buffett.inputs_logged : simpl never.

Lemma send_run url (w : world unit) :
  YieldSpread.send url w
  = (Ok (arrival w 0),
     {| environ := environ w; net := tl (net w); clock := clock w;
        log := (log w ++ [EvFetch url])%list; globals := globals w |}).
Proof. unfold YieldSpread.send, arrival. destruct (net w); reflexivity. Qed.

Lemma report_run mcapMap gdpMap (w : world unit) :
  (exists e, Buffett.report mcapMap gdpMap w = (Throw e, w))
  \/ (exists y mcap gdp,
         Buffett.report mcapMap gdpMap w
         = (Ok (Buffett.respond 200 (Buffett.success_payload y mcap gdp)),
            {| environ := environ w; net := net w; clock := clock w;
               log := (log w ++ [EvConsole (Buffett.inputs_logged y mcap gdp)])%list;
               globals := globals w |})).
Proof.
  unfold Buffett.report.
  destruct (Buffett.overlap mcapMap gdpMap) as [|y rest].
  - left. eexists. reflexivity.
  - right. eexists; eexists; eexists. reflexivity.
Qed.

(** X17: the handler of buffett.js never throws: it answers 200 with the
    indicator, or 500 with the message of an error; both carry the two
    headers.  Without [FRED_KEY] it sends no request and the error is
    ["FRED_KEY is missing in environment."].  With the key it always sends
    its two requests, for the market value and then for GDP, also when the
    first one fails, and no other. *)
Theorem buffett_handler_always_answers :
  forall w : world unit,
    exists a w',
      Buffett.handler w = (Ok a, w')
      /\ headers a = Buffett.json_headers
      /\ ((exists y mcap gdp,
              a = Buffett.respond 200 (Buffett.success_payload y mcap gdp))
          \/ (exists err,
                 a = Buffett.respond 500 (VObj [ ("error", VStr (message err)) ])))
      /\ match present (FRED_KEY (environ w)) with
         | None =>
             a = Buffett.respond 500
                   (VObj [ ("error", VStr "FRED_KEY is missing in environment.") ])
             /\ net w' = net w
             /\ fetches (log w') = fetches (log w)
         | Some key =>
             net w' = skipn 2 (net w)
             /\ fetches (log w')
                = (fetches (log w)
                     ++ [ Buffett.market_cap_url key; Buffett.gdp_url key ])%list
         end.
Proof.
  intros w. unfold Buffett.handler, try_catch, Buffett.attempt.
  unfold bind at 1, getenv.
  destruct (present (FRED_KEY (environ w))) as [key|] eqn:K.
  - unfold Buffett.getFREDMarketCapMap, Buffett.getFREDGDPAnnualMap.
    unfold bind at 1. unfold bind at 1. rewrite send_run.
    unfold ret at 1. unfold bind at 1. unfold bind at 1. rewrite send_run.
    unfold ret at 1. unfold bind at 1. unfold YieldSpread.wait_until at 1.
    cbn [environ net clock log globals].
    match goal with
    | |- context [lift ?r] => destruct r as [maps|err]
    end.
    + unfold bind at 1. cbn [lift ret].
      match goal with
      | |- context [Buffett.report ?a ?b ?w0] =>
          destruct (report_run a b w0) as [(e & R) | (y & mcap & gdp & R)];
          rewrite R
      end.
      * eexists; eexists. split; [reflexivity|]. split; [reflexivity|].
        split; [right; exists e; reflexivity|].
        cbn [net log]. rewrite tl_tl_skipn, !fetches_app. cbn [fetches flat_map app].
        rewrite app_nil_r, <- app_assoc. split; reflexivity.
      * eexists; eexists. split; [reflexivity|]. split; [reflexivity|].
        split; [left; exists y, mcap, gdp; reflexivity|].
        cbn [net log]. rewrite tl_tl_skipn, !fetches_app. cbn [fetches flat_map app].
        rewrite app_nil_r, <- app_assoc. split; reflexivity.
    + unfold bind at 1. cbn [lift throw].
      eexists; eexists. split; [reflexivity|]. split; [reflexivity|].
      split; [right; exists err; reflexivity|].
      cbn [net log]. rewrite tl_tl_skipn, !fetches_app. cbn [fetches flat_map app].
      rewrite app_nil_r, <- app_assoc. split; reflexivity.
  - eexists; eexists. split; [reflexivity|]. split; [reflexivity|].
    split; [right; eexists; reflexivity|].
    split; [reflexivity|]. cbn. rewrite fetches_app, app_nil_r. auto.
Qed.

(** *** The keys of a [Map] *)

Import Yearly.

Lemma eqb_cases x y :
  Num.eqb x y = true -> (is_zero x = true /\ is_zero y = true) \/ x = y.
Proof.
  unfold Num.eqb, SFeqb.
  destruct x as [s1|s1| |s1 m1 e1], y as [s2|s2| |s2 m2 e2]; cbn;
    try discriminate; try destruct s1; try destruct s2; try discriminate;
    intros H; auto.
  - destruct (e1 ?= e2) eqn:E; try discriminate.
    apply Z.compare_eq in E.
    destruct (Pos.compare_cont Eq m1 m2) eqn:P; try discriminate.
    apply Pcompare_Eq_eq in P. subst. auto.
  - destruct (e1 ?= e2) eqn:E; try discriminate.
    apply Z.compare_eq in E.
    destruct (Pos.compare_cont Eq m1 m2) eqn:P; try discriminate.
    apply Pcompare_Eq_eq in P. subst. auto.
Qed.

Lemma eqb_zero_l x c : is_zero x = true -> Num.eqb x c = is_zero c.
Proof. destruct x; try discriminate. destruct c as [|[]| |[]]; reflexivity. Qed.

Lemma eqb_zero_r x c : is_zero x = true -> Num.eqb c x = is_zero c.
Proof. destruct x; try discriminate. destruct c as [|[]| |[]]; reflexivity. Qed.

Lemma eqb_left a b c : Num.eqb a b = true -> Num.eqb a c = Num.eqb b c.
Proof.
  intros H. destruct (eqb_cases _ _ H) as [[Za Zb]|E]; [|subst; reflexivity].
  rewrite (eqb_zero_l a c Za), (eqb_zero_l b c Zb). reflexivity.
Qed.

Lemma eqb_right a b c : Num.eqb a b = true -> Num.eqb c a = Num.eqb c b.
Proof.
  intros H. destruct (eqb_cases _ _ H) as [[Za Zb]|E]; [|subst; reflexivity].
  rewrite (eqb_zero_r a c Za), (eqb_zero_r b c Zb). reflexivity.
Qed.

Lemma eqb_sym a b : Num.eqb a b = true -> Num.eqb b a = true.
Proof.
  intros H. destruct (eqb_cases _ _ H) as [[Za Zb]|E]; [|subst; exact H].
  rewrite (eqb_zero_l b a Zb). exact Za.
Qed.

Lemma eqb_self x : isNaN x = false -> Num.eqb x x = true.
Proof.
  destruct x as [s|[]| |[] m e]; try discriminate; intros _; try reflexivity;
    unfold Num.eqb, SFeqb; cbn; rewrite Z.compare_refl, Pcompare_refl; reflexivity.
Qed.

Lemma eqb_kept y c :
  Num.eqb (if is_zero y then zero else y) c = Num.eqb y c.
Proof.
  destruct (is_zero y) eqn:Z; [|reflexivity].
  rewrite (eqb_zero_l y c Z). destruct c as [|[]| |[]]; reflexivity.
Qed.

Section MapFacts.
Context {V : Type}.

Lemma get_set (k y : number) (v : V) (m : list (number * V)) :
  Buffett.get y (Buffett.set k v m)
  = if Num.eqb k y then Some v else Buffett.get y m.
Proof.
  induction m as [|[k' x'] r IH]; cbn [Buffett.set Buffett.get].
  - rewrite eqb_kept. reflexivity.
  - destruct (Num.eqb k' k) eqn:E; cbn [Buffett.get].
    + rewrite (eqb_left _ _ y E). destruct (Num.eqb k y); reflexivity.
    + rewrite IH. destruct (Num.eqb k' y) eqn:E1; [|reflexivity].
      destruct (Num.eqb k y) eqn:E2; [|reflexivity].
      apply eqb_sym in E2. rewrite (eqb_right _ _ k' E2) in E1. congruence.
Qed.

Lemma has_get (y : number) (m : list (number * V)) :
  Buffett.has y m = match Buffett.get y m with Some _ => true | None => false end.
Proof.
  induction m as [|[k x] r IH]; cbn; [reflexivity|].
  destruct (Num.eqb k y); [reflexivity | exact IH].
Qed.

Lemma get_eqb (a b : number) (m : list (number * V)) :
  Num.eqb a b = true -> Buffett.get a m = Buffett.get b m.
Proof.
  intros H. induction m as [|[k x] r IH]; cbn; [reflexivity|].
  rewrite (eqb_right _ _ k H), IH. reflexivity.
Qed.

Lemma has_set (k y : number) (v : V) (m : list (number * V)) :
  Buffett.has y (Buffett.set k v m) = Num.eqb k y || Buffett.has y m.
Proof.
  rewrite !has_get, get_set. destruct (Num.eqb k y); reflexivity.
Qed.

Lemma has_eqb (a b : number) (m : list (number * V)) :
  Num.eqb a b = true -> Buffett.has a m = Buffett.has b m.
Proof. intros H. rewrite !has_get, (get_eqb _ _ _ H). reflexivity. Qed.

Lemma distinct_set (k : number) (v : V) (m : list (number * V)) :
  distinct m -> distinct (Buffett.set k v m).
Proof.
  induction m as [|[k' x'] r IH]; cbn [Buffett.set distinct].
  - intros _. split; [reflexivity | exact I].
  - intros [H D]. destruct (Num.eqb k' k) eqn:E; cbn [distinct].
    + split; assumption.
    + split; [|apply IH; exact D].
      rewrite has_set, H, orb_false_r.
      destruct (Num.eqb k k') eqn:E2; [|reflexivity].
      apply eqb_sym in E2. congruence.
Qed.
End MapFacts.

(** *** The two loops of [getFREDMarketCapMap] *)

(** What one observation does to the values of the year [y]. *)
Lemma gather_get m o m' y :
  Buffett.gather m o = Ok m' ->
  Buffett.get y m'
  = if in_year y o
    then Some (match Buffett.get y m with Some arr => arr | None => [] end
               ++ match Buffett.value_of o with Some x => [x] | None => [] end)%list
    else Buffett.get y m.
Proof.
  unfold Buffett.gather, in_year.
  destruct (Buffett.year_of o) as [yo|e]; [|discriminate].
  destruct (isNaN yo) eqn:N; cbn [negb].
  - intros H; inversion H; subst.
    destruct yo; try discriminate. reflexivity.
  - set (m1 := if negb (Buffett.has yo m) then Buffett.set yo [] m else m).
    assert (G1 : forall z, Buffett.get z m1
                      = if Num.eqb yo z
                        then Some (match Buffett.get z m with
                                   | Some arr => arr
                                   | None => []
                                   end)
                        else Buffett.get z m).
    { intros z. unfold m1. rewrite has_get.
      destruct (Buffett.get yo m) as [arr|] eqn:G; cbn [negb].
      - destruct (Num.eqb yo z) eqn:E; [|reflexivity].
        rewrite <- (get_eqb _ _ _ E), G. reflexivity.
      - rewrite get_set. destruct (Num.eqb yo z) eqn:E; [|reflexivity].
        rewrite <- (get_eqb _ _ _ E), G. reflexivity. }
    destruct (Buffett.value_of o) as [x|]; intros H; inversion H; subst; clear H.
    + rewrite get_set. destruct (Num.eqb yo y) eqn:E.
      * rewrite (G1 yo), (eqb_self _ N), (get_eqb _ _ _ E). reflexivity.
      * rewrite G1, E. reflexivity.
    + rewrite G1. destruct (Num.eqb yo y); [rewrite app_nil_r|]; reflexivity.
Qed.

Lemma gather_distinct m o m' :
  Buffett.gather m o = Ok m' -> distinct m -> distinct m'.
Proof.
  unfold Buffett.gather.
  destruct (Buffett.year_of o) as [yo|e]; [|discriminate].
  destruct (negb (isNaN yo)); [|intros H; inversion H; subst; auto].
  intros H D.
  assert (D1 : distinct (if negb (Buffett.has yo m) then Buffett.set yo [] m else m))
    by (destruct (negb (Buffett.has yo m)); [apply distinct_set|]; exact D).
  destruct (Buffett.value_of o); inversion H; subst;
    [apply distinct_set|]; exact D1.
Qed.

Lemma loop_gather l : forall m m' y,
  Buffett.loop Buffett.gather m l = Ok m' ->
  Buffett.get y m'
  = match Buffett.get y m with
    | Some arr => Some (arr ++ values_in y l)%list
    | None => if existsb (in_year y) l then Some (values_in y l) else None
    end.
Proof.
  induction l as [|o l IH]; intros m m' y H; cbn [Buffett.loop] in H.
  - inversion H; subst. cbn. destruct (Buffett.get y m'); [rewrite app_nil_r|];
      reflexivity.
  - destruct (Buffett.gather m o) as [m1|e] eqn:G; [|discriminate].
    rewrite (IH _ _ y H), (gather_get _ _ _ y G).
    cbn [values_in flat_map existsb]. fold (values_in y l).
    destruct (in_year y o); cbn [orb].
    + destruct (Buffett.get y m) as [arr|]; rewrite <- ?app_assoc; reflexivity.
    + reflexivity.
Qed.

Lemma loop_gather_distinct l : forall m m',
  Buffett.loop Buffett.gather m l = Ok m' -> distinct m -> distinct m'.
Proof.
  induction l as [|o l IH]; intros m m' H D; cbn [Buffett.loop] in H.
  - inversion H; subst. exact D.
  - destruct (Buffett.gather m o) as [m1|e] eqn:G; [|discriminate].
    apply (IH _ _ H). apply (gather_distinct _ _ _ G D).
Qed.

Lemma values_in_none y l : existsb (in_year y) l = false -> values_in y l = [].
Proof.
  induction l as [|o l IH]; cbn [existsb values_in flat_map]; [reflexivity|].
  intros H. apply orb_false_elim in H. destruct H as [H1 H2].
  rewrite H1. apply IH. exact H2.
Qed.

Lemma averages_other y m : forall avg,
  Buffett.has y m = false ->
  Buffett.get y (Buffett.averages m avg) = Buffett.get y avg.
Proof.
  induction m as [|[k arr] r IH]; intros avg H; cbn [Buffett.averages];
    [reflexivity|].
  cbn [Buffett.has] in H. apply orb_false_elim in H. destruct H as [H1 H2].
  rewrite (IH _ H2). destruct (0 <? len arr); [|reflexivity].
  rewrite get_set, H1. reflexivity.
Qed.

Lemma averages_get y m : forall avg,
  distinct m ->
  Buffett.get y (Buffett.averages m avg)
  = match Buffett.get y m with
    | Some arr =>
        if 0 <? len arr then Some (Buffett.average_in_billions arr)
        else Buffett.get y avg
    | None => Buffett.get y avg
    end.
Proof.
  induction m as [|[k arr] r IH]; intros avg D; cbn [Buffett.averages Buffett.get];
    [reflexivity|].
  destruct D as [H D]. destruct (Num.eqb k y) eqn:E.
  - rewrite averages_other by (rewrite <- (has_eqb _ _ _ E); exact H).
    destruct (0 <? len arr); [|reflexivity].
    rewrite get_set, E. reflexivity.
  - rewrite (IH _ D). destruct (0 <? len arr); [|reflexivity].
    rewrite get_set, E. reflexivity.
Qed.

(** *** The loop of [getFREDGDPAnnualMap] *)

Lemma record_get m o m' y :
  Buffett.record m o = Ok m' ->
  Buffett.get y m'
  = if in_year y o
    then match Buffett.value_of o with
         | Some x => Some x
         | None => Buffett.get y m
         end
    else Buffett.get y m.
Proof.
  unfold Buffett.record, in_year.
  destruct (Buffett.year_of o) as [yo|e]; [|discriminate].
  destruct (Buffett.value_of o) as [x|]; intros H; inversion H; subst; clear H.
  - destruct (isNaN yo) eqn:N; cbn [negb].
    + destruct yo; try discriminate. reflexivity.
    + rewrite get_set. reflexivity.
  - destruct (Num.eqb yo y); reflexivity.
Qed.

Lemma last_of_app {A} (l : list A) x : last_of (l ++ [x]) = Some x.
Proof. unfold last_of. rewrite rev_app_distr. reflexivity. Qed.

Lemma last_of_cons {A} (a : A) l :
  last_of (a :: l) = match last_of l with Some x => Some x | None => Some a end.
Proof.
  unfold last_of. cbn [List.rev].
  destruct (List.rev l) as [|x r]; reflexivity.
Qed.

Lemma loop_record l : forall m m' y,
  Buffett.loop Buffett.record m l = Ok m' ->
  Buffett.get y m'
  = match last_of (values_in y l) with
    | Some x => Some x
    | None => Buffett.get y m
    end.
Proof.
  induction l as [|o l IH]; intros m m' y H; cbn [Buffett.loop] in H.
  - inversion H; subst. reflexivity.
  - destruct (Buffett.record m o) as [m1|e] eqn:G; [|discriminate].
    rewrite (IH _ _ y H), (record_get _ _ _ y G).
    cbn [values_in flat_map]. fold (values_in y l).
    destruct (in_year y o); [|reflexivity].
    destruct (Buffett.value_of o) as [x|]; [|reflexivity].
    cbn [app]. rewrite last_of_cons.
    destruct (last_of (values_in y l)); reflexivity.
Qed.

Lemma observations_inv json complaint l :
  Buffett.observations json complaint = Ok l -> prop json "observations" = VArr l.
Proof.
  unfold Buffett.observations. destruct (negb (truthy json)); [discriminate|].
  destruct (prop json "observations"); try discriminate.
  intros H; inversion H; reflexivity.
Qed.

Lemma market_cap_map_get json l m :
  prop json "observations" = VArr l ->
  Buffett.market_cap_map json = Ok m ->
  forall y,
    Buffett.get y m
    = match values_in y l with
      | [] => None
      | arr => Some (Buffett.average_in_billions arr)
      end.
Proof.
  intros Hl. unfold Buffett.market_cap_map.
  destruct (Buffett.observations json _) as [l'|e] eqn:O; [|discriminate].
  apply observations_inv in O. rewrite Hl in O. inversion O; subst l'.
  destruct (Buffett.loop Buffett.gather [] l) as [g|e] eqn:L; [|discriminate].
  intros H y. inversion H; subst m.
  rewrite averages_get by (apply (loop_gather_distinct _ _ _ L); exact I).
  rewrite (loop_gather _ _ _ y L). cbn [Buffett.get].
  destruct (existsb (in_year y) l) eqn:E.
  - destruct (values_in y l) as [|x r]; reflexivity.
  - rewrite (values_in_none _ _ E). reflexivity.
Qed.

Lemma gdp_map_get json l m :
  prop json "observations" = VArr l ->
  Buffett.gdp_map json = Ok m ->
  forall y, Buffett.get y m = last_of (values_in y l).
Proof.
  intros Hl. unfold Buffett.gdp_map.
  destruct (Buffett.observations json _) as [l'|e] eqn:O; [|discriminate].
  apply observations_inv in O. rewrite Hl in O. inversion O; subst l'.
  intros L y. rewrite (loop_record _ _ _ y L). cbn [Buffett.get].
  destruct (last_of (values_in y l)); reflexivity.
Qed.

(** X18: what the two functions of buffett.js make of a payload.  For
    every year, the market value that [getFREDMarketCapMap] holds is the sum
    of the values of that year that are not ["."], taken in the order of the
    payload, divided by their count and by 1000; a year with no such value
    has no entry.  The GDP that [getFREDGDPAnnualMap] holds for a year is the
    last value of that year in the payload that is not ["."]. *)
Theorem buffett_maps_by_year :
  forall (json : value) (l : list value) (m : list (number * number)),
    prop json "observations" = VArr l ->
    (Buffett.market_cap_map json = Ok m ->
     forall y,
       Buffett.get y m
       = match values_in y l with
         | [] => None
         | arr => Some (Buffett.average_in_billions arr)
         end)
    /\ (Buffett.gdp_map json = Ok m ->
        forall y, Buffett.get y m = last_of (values_in y l)).
Proof.
  intros json l m Hl. split.
  - apply market_cap_map_get. exact Hl.
  - apply gdp_map_get. exact Hl.
Qed.

Lemma buffett_maps_by_year_witness :
  Buffett.get (Num.of_Z 2022) maps_cap
  = match values_in (Num.of_Z 2022)
            [ quarter "2022-01-01" "40000000"; quarter "2022-04-01" "42000000";
              quarter "2023-01-01" "50000000"; quarter "2023-04-01" ".";
              quarter "2024-01-01" "." ] with
    | [] => None
    | arr => Some (Buffett.average_in_billions arr)
    end.
Proof.
  refine (proj1 (buffett_maps_by_year payload_cap
                   [ quarter "2022-01-01" "40000000"; quarter "2022-04-01" "42000000";
                     quarter "2023-01-01" "50000000"; quarter "2023-04-01" ".";
                     quarter "2024-01-01" "." ]
                   maps_cap eq_refl) _ (Num.of_Z 2022)).
  vm_compute. reflexivity.
Defined.

(** *** The year of the answer *)

Lemma insert_In x l z : In z (Buffett.insert x l) <-> z = x \/ In z l.
Proof.
  induction l as [|y r IH]; cbn [Buffett.insert].
  - cbn. intuition.
  - destruct (Buffett.goes_after x y); cbn [In]; [rewrite IH|]; intuition.
Qed.

Lemma sort_In l z : In z (Buffett.sort l) <-> In z l.
Proof.
  unfold Buffett.sort. induction l as [|x r IH]; cbn [fold_right]; [reflexivity|].
  rewrite insert_In, IH. cbn [In]. intuition.
Qed.

Section Keys.
Context {V : Type}.

Lemma set_keys (k : number) (v : V) (m : list (number * V)) :
  isNaN k = false ->
  Forall (fun y => isNaN y = false) (map fst m) ->
  Forall (fun y => isNaN y = false) (map fst (Buffett.set k v m)).
Proof.
  intros Hk. induction m as [|[k' x'] r IH]; cbn [Buffett.set map fst].
  - intros _. constructor; [|constructor].
    destruct (is_zero k); [reflexivity | exact Hk].
  - intros F. inversion F; subst.
    destruct (Num.eqb k' k); cbn [map fst]; constructor; auto.
Qed.

Lemma key_has (k : number) (m : list (number * V)) :
  In k (map fst m) -> isNaN k = false -> Buffett.has k m = true.
Proof.
  intros Hin Hk. induction m as [|[k' x'] r IH]; cbn in *; [contradiction|].
  destruct Hin as [E|Hin]; [subst; rewrite (eqb_self _ Hk); reflexivity|].
  rewrite (IH Hin). apply orb_true_r.
Qed.
End Keys.

Lemma averages_keys m : forall avg,
  Forall (fun y => isNaN y = false) (map fst m) ->
  Forall (fun y => isNaN y = false) (map fst avg) ->
  Forall (fun y => isNaN y = false) (map fst (Buffett.averages m avg)).
Proof.
  induction m as [|[k arr] r IH]; intros avg Fm Fa; cbn [Buffett.averages];
    [exact Fa|].
  inversion Fm; subst. apply IH; [assumption|].
  destruct (0 <? len arr); [apply set_keys|]; assumption.
Qed.

Lemma gather_keys m o m' :
  Buffett.gather m o = Ok m' ->
  Forall (fun y => isNaN y = false) (map fst m) ->
  Forall (fun y => isNaN y = false) (map fst m').
Proof.
  unfold Buffett.gather.
  destruct (Buffett.year_of o) as [yo|e]; [|discriminate].
  destruct (isNaN yo) eqn:N; cbn [negb]; [intros H; inversion H; subst; auto|].
  intros H F.
  assert (F1 : Forall (fun y => isNaN y = false)
                 (map fst (if negb (Buffett.has yo m)
                           then Buffett.set yo [] m else m)))
    by (destruct (negb (Buffett.has yo m)); [apply set_keys|]; assumption).
  destruct (Buffett.value_of o); inversion H; subst;
    [apply set_keys|]; assumption.
Qed.

Lemma loop_gather_keys l : forall m m',
  Buffett.loop Buffett.gather m l = Ok m' ->
  Forall (fun y => isNaN y = false) (map fst m) ->
  Forall (fun y => isNaN y = false) (map fst m').
Proof.
  induction l as [|o l IH]; intros m m' H F; cbn [Buffett.loop] in H.
  - inversion H; subst. exact F.
  - destruct (Buffett.gather m o) as [m1|e] eqn:G; [|discriminate].
    apply (IH _ _ H). apply (gather_keys _ _ _ G F).
Qed.

Lemma market_cap_map_keys json m :
  Buffett.market_cap_map json = Ok m ->
  Forall (fun y => isNaN y = false) (map fst m).
Proof.
  unfold Buffett.market_cap_map.
  destruct (Buffett.observations json _) as [l|e]; [|discriminate].
  destruct (Buffett.loop Buffett.gather [] l) as [g|e] eqn:L; [|discriminate].
  intros H; inversion H; subst.
  apply averages_keys; [|constructor].
  apply (loop_gather_keys _ _ _ L). constructor.
Qed.

(** X19: when the handler of buffett.js answers 200, the year of the
    answer has a market value and a GDP in the payloads: the market value of
    the answer is the average of the values of that year, in billions, its
    GDP is the last value of that year, and the ratio is a hundred times the
    one divided by the other.  A year whose market values are all ["."], or
    that has no GDP, is never the year of the answer. *)
Theorem buffett_year_has_both :
  forall (cap gdp : value) (lc lg : list value)
         (mcapMap gdpMap : list (number * number))
         (w : world unit) (a : http) (w' : world unit),
    prop cap "observations" = VArr lc ->
    prop gdp "observations" = VArr lg ->
    Buffett.market_cap_map cap = Ok mcapMap ->
    Buffett.gdp_map gdp = Ok gdpMap ->
    Buffett.report mcapMap gdpMap w = (Ok a, w') ->
    exists y x g,
      values_in y lc <> []
      /\ x = Buffett.average_in_billions (values_in y lc)
      /\ last_of (values_in y lg) = Some g
      /\ a = Buffett.respond 200 (Buffett.success_payload y (VNum x) (VNum g))
      /\ prop (body a) "ratio"
         = stringify (VNum (mul (div x g) (Num.of_Z 100))).
Proof.
  intros cap gdp lc lg mcapMap gdpMap w a w' Hc Hg Mc Mg R.
  unfold Buffett.report in R.
  destruct (Buffett.overlap mcapMap gdpMap) as [|y rest] eqn:O; [discriminate|].
  assert (Hin : In y (Buffett.overlap mcapMap gdpMap))
    by (rewrite O; left; reflexivity).
  unfold Buffett.overlap in Hin. apply (proj1 (sort_In _ _)) in Hin.
  apply (proj1 (filter_In _ _ _)) in Hin. destruct Hin as [Hkey Hgdp].
  assert (Hy : isNaN y = false).
  { pose proof (market_cap_map_keys _ _ Mc) as F.
    rewrite Forall_forall in F. apply F. exact Hkey. }
  pose proof (key_has _ _ Hkey Hy) as Hcap.
  rewrite has_get in Hcap, Hgdp.
  rewrite (market_cap_map_get _ _ _ Hc Mc y) in Hcap.
  rewrite (gdp_map_get _ _ _ Hg Mg y) in Hgdp.
  unfold bind, console, emit, ret in R. inversion R; subst a w'; clear R.
  unfold Buffett.entry.
  rewrite (market_cap_map_get _ _ _ Hc Mc y), (gdp_map_get _ _ _ Hg Mg y).
  destruct (values_in y lc) as [|v vs] eqn:Vc; [discriminate Hcap|].
  destruct (last_of (values_in y lg)) as [g|] eqn:Vg; [|discriminate Hgdp].
  exists y, (Buffett.average_in_billions (v :: vs)), g.
  rewrite Vc, Vg.
  split; [discriminate|]. split; [reflexivity|]. split; [reflexivity|].
  split; reflexivity.
Qed.

Lemma buffett_year_has_both_witness :
  exists y x g,
    values_in y
      [ quarter "2022-01-01" "40000000"; quarter "2022-04-01" "42000000";
        quarter "2023-01-01" "50000000"; quarter "2023-04-01" ".";
        quarter "2024-01-01" "." ] <> []
    /\ x = Buffett.average_in_billions
             (values_in y
                [ quarter "2022-01-01" "40000000"; quarter "2022-04-01" "42000000";
                  quarter "2023-01-01" "50000000"; quarter "2023-04-01" ".";
                  quarter "2024-01-01" "." ])
    /\ last_of
         (values_in y
            [ quarter "2022-01-01" "25000"; quarter "2022-04-01" "25500";
              quarter "2023-01-01" "27000"; quarter "2024-01-01" "28000" ])
       = Some g
    /\ answer_buffett
       = Buffett.respond 200 (Buffett.success_payload y (VNum x) (VNum g))
    /\ prop (body answer_buffett) "ratio"
       = stringify (VNum (mul (div x g) (Num.of_Z 100))).
Proof.
  exact (buffett_year_has_both payload_cap payload_gdp
           [ quarter "2022-01-01" "40000000"; quarter "2022-04-01" "42000000";
             quarter "2023-01-01" "50000000"; quarter "2023-04-01" ".";
             quarter "2024-01-01" "." ]
           [ quarter "2022-01-01" "25000"; quarter "2022-04-01" "25500";
             quarter "2023-01-01" "27000"; quarter "2024-01-01" "28000" ]
           maps_cap maps_gdp world_buffett answer_buffett
           (snd (Buffett.report maps_cap maps_gdp world_buffett))
           eq_refl eq_refl
           ltac:(vm_compute; reflexivity) ltac:(vm_compute; reflexivity)
           ltac:(vm_compute; reflexivity)).
Defined.

(** *** The latest year *)

Lemma span_In lo count n :
  (lo <= n)%N -> (n < lo + N.of_nat count)%N -> In n (span lo count).
Proof.
  intros H1 H2. unfold span. apply in_map_iff.
  exists (N.to_nat (n - lo)). split; [lia|]. apply in_seq. lia.
Qed.

Lemma years_checked : forallb year_checked (span 1900 200) = true.
Proof. vm_compute. reflexivity. Qed.

Lemma gaps_checked :
  forallb (gap_checked 42) (span 1 199) && forallb (gap_checked 41) (span 1 199)
  = true.
Proof. vm_compute. reflexivity. Qed.

Lemma year_form n :
  (1900 <= n <= 2099)%N ->
  exists m e,
    year_number n = S754_finite false m e
    /\ (e = -42 \/ e = -41)
    /\ Zpos m = Z.of_N n * 2 ^ (- e).
Proof.
  intros H. pose proof years_checked as T.
  rewrite forallb_forall in T.
  assert (I0 : In n (span 1900 200)) by (apply span_In; lia).
  specialize (T n I0).
  unfold year_checked in T.
  destruct (year_number n) as [| | |[] m e]; try discriminate.
  apply andb_prop in T. destruct T as [T1 T2].
  apply Z.eqb_eq in T1, T2. exists m, e. split; [reflexivity|].
  split; [destruct (n <? 2048)%N; auto | exact T2].
Qed.

Lemma gap_form k d :
  (k = 42 \/ k = 41) -> (1 <= d <= 199)%N ->
  Num.ltb zero (binary_normalize prec emax (Z.of_N d * 2 ^ k) (- k) false) = true.
Proof.
  intros Hk Hd. pose proof gaps_checked as T.
  apply andb_prop in T. destruct T as [T42 T41].
  rewrite forallb_forall in T42, T41.
  destruct Hk; subst k;
    [apply (T42 d) | apply (T41 d)]; apply span_In; lia.
Qed.

Lemma below_zero_rounds_below m e :
  Num.ltb zero (binary_round prec emax true m e) = false.
Proof.
  unfold binary_round.
  destruct (shl_align m e _) as [mz ez]. unfold binary_round_aux.
  destruct (shr_fexp prec emax (Z.pos mz) ez loc_Exact) as [mrs e1].
  destruct (shr_fexp prec emax _ e1 loc_Exact) as [mrs2 e2].
  destruct (shr_m mrs2); [reflexivity | | reflexivity].
  destruct (e2 <=? emax - prec); reflexivity.
Qed.

Lemma shl_align_value m e ez :
  ez <= e -> Zpos (fst (shl_align m e ez)) = Zpos m * 2 ^ (e - ez).
Proof.
  intros H. unfold shl_align.
  destruct (ez - e) as [|p|p] eqn:E; cbn [fst].
  - replace (e - ez) with 0 by lia. cbn. lia.
  - lia.
  - replace (e - ez) with (Zpos p) by lia.
    change (Pos.iter xO m p) with (shift_pos p m).
    rewrite shift_pos_correct, Z.pow_pos_fold. lia.
Qed.

(** The comparator of the sort, on the years from 1900 to 2099. *)
Lemma goes_after_years a b :
  (1900 <= a <= 2099)%N -> (1900 <= b <= 2099)%N ->
  Buffett.goes_after (year_number a) (year_number b) = (a <? b)%N.
Proof.
  intros Ha Hb.
  destruct (year_form a Ha) as (ma & ea & Ea & Hea & Va).
  destruct (year_form b Hb) as (mb & eb & Eb & Heb & Vb).
  unfold Buffett.goes_after, Num.sub. rewrite Ea, Eb.
  cbv beta iota zeta delta [SFsub cond_Zopp].
  set (ez := Z.min eb ea).
  assert (Hez : ez <= eb /\ ez <= ea /\ (- ez = 42 \/ - ez = 41)) by lia.
  destruct Hez as (H1 & H2 & Hk).
  rewrite (shl_align_value mb eb ez H1), (shl_align_value ma ea ez H2), Va, Vb.
  rewrite <- !Z.mul_assoc, <- !Z.pow_add_r by lia.
  replace (- eb + (eb - ez)) with (- ez) by lia.
  replace (- ea + (ea - ez)) with (- ez) by lia.
  rewrite <- Z.mul_sub_distr_r.
  assert (P : 0 < 2 ^ (- ez)) by (apply Z.pow_pos_nonneg; lia).
  destruct (N.compare_spec a b) as [E|L|G].
  - subst b. rewrite Z.sub_diag, Z.mul_0_l, N.ltb_irrefl. reflexivity.
  - replace (Z.of_N b - Z.of_N a) with (Z.of_N (b - a)) by lia.
    rewrite <- (Z.opp_involutive ez) at 2.
    rewrite (gap_form (- ez) (b - a)) by (try assumption; lia).
    symmetry. apply N.ltb_lt. exact L.
  - replace (a <? b)%N with false by (symmetry; apply N.ltb_ge; lia).
    destruct ((Z.of_N b - Z.of_N a) * 2 ^ (- ez)) as [|p|p] eqn:D.
    + reflexivity.
    + assert (0 < (Z.of_N b - Z.of_N a) * 2 ^ (- ez)) by lia.
      assert (Z.of_N b - Z.of_N a < 0) by lia. nia.
    + apply below_zero_rounds_below.
Qed.

(** The head of the sorted years is the latest of them. *)
Lemma sort_head_latest (ns : list N) :
  Forall (fun n => (1900 <= n <= 2099)%N) ns ->
  match Buffett.sort (map year_number ns) with
  | [] => ns = []
  | h :: _ =>
      exists n, (1900 <= n <= 2099)%N /\ h = year_number n /\ In n ns
                /\ forall n', In n' ns -> (n' <= n)%N
  end.
Proof.
  induction 1 as [|x r Hx Hr IH]; [reflexivity|].
  cbn [map]. unfold Buffett.sort in *. cbn [fold_right].
  destruct (fold_right Buffett.insert [] (map year_number r)) as [|h t].
  - subst r. cbn. exists x. split; [exact Hx|]. split; [reflexivity|].
    split; [left; reflexivity|]. intros n' [E|[]]. lia.
  - destruct IH as (n & Hn & Eh & Hin & Hmax). subst h.
    cbn [Buffett.insert]. rewrite (goes_after_years x n Hx Hn).
    destruct (x <? n)%N eqn:L.
    + apply N.ltb_lt in L. exists n. split; [exact Hn|]. split; [reflexivity|].
      split; [right; exact Hin|]. intros n' [E|H']; [lia | apply Hmax; exact H'].
    + apply N.ltb_ge in L. exists x. split; [exact Hx|]. split; [reflexivity|].
      split; [left; reflexivity|].
      intros n' [E|H']; [lia | specialize (Hmax n' H'); lia].
Qed.

Lemma year_number_inj a b :
  (1900 <= a <= 2099)%N -> (1900 <= b <= 2099)%N ->
  Num.eqb (year_number a) (year_number b) = true -> a = b.
Proof.
  intros Ha Hb E.
  destruct (year_form a Ha) as (ma & ea & Ea & _).
  destruct (eqb_cases _ _ E) as [[Z _]|Q];
    [rewrite Ea in Z; discriminate|].
  pose proof (goes_after_years a b Ha Hb) as G1.
  pose proof (goes_after_years b a Hb Ha) as G2.
  rewrite Q in G1. rewrite <- Q in G2.
  rewrite (goes_after_years b b Hb Hb), N.ltb_irrefl in G1.
  rewrite (goes_after_years a a Ha Ha), N.ltb_irrefl in G2.
  symmetry in G1, G2. apply N.ltb_ge in G1, G2. lia.
Qed.

Lemma modern_key_kept k :
  modern_key k -> (if is_zero k then zero else k) = k /\ isNaN k = false.
Proof.
  intros (n & Hn & ->).
  destruct (year_form n Hn) as (m & e & E & _). rewrite E. split; reflexivity.
Qed.

Section ModernKeys.
Context {V : Type}.

Lemma set_modern (k : number) (v : V) (m : list (number * V)) :
  modern_key k ->
  Forall modern_key (map fst m) ->
  Forall modern_key (map fst (Buffett.set k v m)).
Proof.
  intros Hk. induction m as [|[k' x'] r IH]; cbn [Buffett.set map fst].
  - intros _. constructor; [|constructor].
    rewrite (proj1 (modern_key_kept k Hk)). exact Hk.
  - intros F. inversion F; subst.
    destruct (Num.eqb k' k); cbn [map fst]; constructor; auto.
Qed.

Lemma get_key (y : number) (m : list (number * V)) x :
  Buffett.get y m = Some x ->
  exists k, In k (map fst m) /\ Num.eqb k y = true.
Proof.
  induction m as [|[k' x'] r IH]; cbn; [discriminate|].
  destruct (Num.eqb k' y) eqn:E.
  - intros _. exists k'. auto.
  - intros H. destruct (IH H) as (k & Hin & Ek). exists k. auto.
Qed.
End ModernKeys.

Lemma gather_modern m o m' :
  modern o ->
  Buffett.gather m o = Ok m' ->
  Forall modern_key (map fst m) -> Forall modern_key (map fst m').
Proof.
  intros (n & Hn & Y). unfold Buffett.gather. rewrite Y.
  assert (K : modern_key (year_number n)) by (exists n; auto).
  rewrite (proj2 (modern_key_kept _ K)). cbn [negb].
  intros H F.
  assert (F1 : Forall modern_key
                 (map fst (if negb (Buffett.has (year_number n) m)
                           then Buffett.set (year_number n) [] m else m)))
    by (destruct (negb (Buffett.has (year_number n) m)); [apply set_modern|];
        assumption).
  destruct (Buffett.value_of o); inversion H; subst;
    [apply set_modern|]; assumption.
Qed.

Lemma loop_gather_modern l : forall m m',
  Forall modern l ->
  Buffett.loop Buffett.gather m l = Ok m' ->
  Forall modern_key (map fst m) -> Forall modern_key (map fst m').
Proof.
  induction l as [|o l IH]; intros m m' Hl H F; cbn [Buffett.loop] in H.
  - inversion H; subst. exact F.
  - inversion Hl as [|o' l' Ho Hl']; subst.
    destruct (Buffett.gather m o) as [m1|e] eqn:G; [|discriminate].
    apply (IH _ _ Hl' H). apply (gather_modern _ _ _ Ho G F).
Qed.

Lemma averages_modern m : forall avg,
  Forall modern_key (map fst m) ->
  Forall modern_key (map fst avg) ->
  Forall modern_key (map fst (Buffett.averages m avg)).
Proof.
  induction m as [|[k arr] r IH]; intros avg Fm Fa; cbn [Buffett.averages];
    [exact Fa|].
  inversion Fm; subst. apply IH; [assumption|].
  destruct (0 <? len arr); [apply set_modern|]; assumption.
Qed.

Lemma market_cap_map_modern json l m :
  prop json "observations" = VArr l ->
  Forall modern l ->
  Buffett.market_cap_map json = Ok m ->
  Forall modern_key (map fst m).
Proof.
  intros Hl Fl. unfold Buffett.market_cap_map.
  destruct (Buffett.observations json _) as [l'|e] eqn:O; [|discriminate].
  apply observations_inv in O. rewrite Hl in O. inversion O; subst l'.
  destruct (Buffett.loop Buffett.gather [] l) as [g|e] eqn:L; [|discriminate].
  intros H; inversion H; subst.
  apply averages_modern; [|constructor].
  apply (loop_gather_modern _ _ _ Fl L). constructor.
Qed.

Lemma modern_keys_years (ks : list number) :
  Forall modern_key ks ->
  exists ns, ks = map year_number ns
             /\ Forall (fun n => (1900 <= n <= 2099)%N) ns.
Proof.
  induction 1 as [|k r (n & Hn & E) Hr (ns & E' & F)].
  - exists []. split; [reflexivity | constructor].
  - exists (n :: ns). subst. split; [reflexivity | constructor; assumption].
Qed.

Lemma Forall_filter {A} (P : A -> Prop) (f : A -> bool) (l : list A) :
  Forall P l -> Forall P (filter f l).
Proof.
  intros F. apply Forall_forall. intros x Hx. apply filter_In in Hx.
  rewrite Forall_forall in F. apply F. apply Hx.
Qed.

(** X20: on payloads whose market values are dated from 1900 to 2099, the
    year that the handler of buffett.js reports is the latest year that has
    both a market value that is not ["."] and a GDP value: no later year of
    the payloads has both. *)
Theorem buffett_reports_latest_year :
  forall (cap gdp : value) (lc lg : list value)
         (mcapMap gdpMap : list (number * number))
         (w : world unit) (a : http) (w' : world unit),
    prop cap "observations" = VArr lc ->
    prop gdp "observations" = VArr lg ->
    Forall modern lc ->
    Buffett.market_cap_map cap = Ok mcapMap ->
    Buffett.gdp_map gdp = Ok gdpMap ->
    Buffett.report mcapMap gdpMap w = (Ok a, w') ->
    exists n,
      (1900 <= n <= 2099)%N
      /\ prop (body a) "year" = VNum (year_number n)
      /\ values_in (year_number n) lc <> []
      /\ last_of (values_in (year_number n) lg) <> None
      /\ forall n',
           (1900 <= n' <= 2099)%N ->
           values_in (year_number n') lc <> [] ->
           last_of (values_in (year_number n') lg) <> None ->
           (n' <= n)%N.
Proof.
  intros cap gdp lc lg mcapMap gdpMap w a w' Hc Hg Fl Mc Mg R.
  pose proof (market_cap_map_modern _ _ _ Hc Fl Mc) as K.
  destruct (modern_keys_years _ (Forall_filter _ (fun y => Buffett.has y gdpMap) _ K))
    as (ns & Ens & Fns).
  unfold Buffett.report in R.
  pose proof (sort_head_latest ns Fns) as S. rewrite <- Ens in S.
  fold (Buffett.overlap mcapMap gdpMap) in S.
  destruct (Buffett.overlap mcapMap gdpMap) as [|y rest]; [discriminate|].
  destruct S as (n & Hn & Ey & Hin & Hmax). subst y.
  assert (Hsel : In (year_number n)
                   (filter (fun y => Buffett.has y gdpMap) (map fst mcapMap)))
    by (rewrite Ens; apply in_map; exact Hin).
  apply (proj1 (filter_In _ _ _)) in Hsel. destruct Hsel as [Hkey Hgdp].
  assert (Kn : modern_key (year_number n)) by (exists n; auto).
  pose proof (key_has _ _ Hkey (proj2 (modern_key_kept _ Kn))) as Hcap.
  rewrite has_get in Hcap, Hgdp.
  rewrite (market_cap_map_get _ _ _ Hc Mc) in Hcap.
  rewrite (gdp_map_get _ _ _ Hg Mg) in Hgdp.
  unfold bind, console, emit, ret in R. inversion R; subst a w'; clear R.
  exists n. split; [exact Hn|]. split.
  - destruct (year_form n Hn) as (m & e & E & _). rewrite E. reflexivity.
  - split; [destruct (values_in (year_number n) lc); [discriminate Hcap | discriminate]|].
    split; [destruct (last_of (values_in (year_number n) lg));
            [discriminate | discriminate Hgdp]|].
    intros n' Hn' Vc Vg. apply Hmax.
    assert (C : exists x, Buffett.get (year_number n') mcapMap = Some x).
    { rewrite (market_cap_map_get _ _ _ Hc Mc).
      destruct (values_in (year_number n') lc); [contradiction | eauto]. }
    destruct C as (x & C). destruct (get_key _ _ _ C) as (k & Hk & Ek).
    assert (Kk : modern_key k) by (rewrite Forall_forall in K; apply K; exact Hk).
    destruct Kk as (nk & Hnk & ->).
    pose proof (year_number_inj _ _ Hnk Hn' Ek) as Q. subst nk.
    assert (Hsel' : In (year_number n')
                      (filter (fun y => Buffett.has y gdpMap) (map fst mcapMap))).
    { apply filter_In. split; [exact Hk|].
      rewrite has_get, (gdp_map_get _ _ _ Hg Mg).
      destruct (last_of (values_in (year_number n') lg)); [reflexivity | contradiction]. }
    rewrite Ens in Hsel'. apply in_map_iff in Hsel'.
    destruct Hsel' as (n2 & E2 & Hin2).
    assert (Hn2 : (1900 <= n2 <= 2099)%N)
      by (rewrite Forall_forall in Fns; apply Fns; exact Hin2).
    assert (Q : n2 = n').
    { apply (year_number_inj _ _ Hn2 Hn'). rewrite E2.
      apply eqb_self.
      assert (Kn' : modern_key (year_number n')) by (exists n'; auto).
      apply (proj2 (modern_key_kept _ Kn')). }
    subst n2. exact Hin2.
Qed.

Lemma buffett_reports_latest_year_witness :
  exists n,
    (1900 <= n <= 2099)%N
    /\ prop (body answer_buffett) "year" = VNum (year_number n).
Proof.
  assert (F : Forall modern
                [ quarter "2022-01-01" "40000000"; quarter "2022-04-01" "42000000";
                  quarter "2023-01-01" "50000000"; quarter "2023-04-01" ".";
                  quarter "2024-01-01" "." ]).
  { repeat (apply Forall_cons;
            [first [ exists 2022%N; split; [lia | vm_compute; reflexivity]
                   | exists 2023%N; split; [lia | vm_compute; reflexivity]
                   | exists 2024%N; split; [lia | vm_compute; reflexivity] ]|]).
    apply Forall_nil. }
  destruct (buffett_reports_latest_year payload_cap payload_gdp
              [ quarter "2022-01-01" "40000000"; quarter "2022-04-01" "42000000";
                quarter "2023-01-01" "50000000"; quarter "2023-04-01" ".";
                quarter "2024-01-01" "." ]
              [ quarter "2022-01-01" "25000"; quarter "2022-04-01" "25500";
                quarter "2023-01-01" "27000"; quarter "2024-01-01" "28000" ]
              maps_cap maps_gdp world_buffett answer_buffett
              (snd (Buffett.report maps_cap maps_gdp world_buffett))
              eq_refl eq_refl F
              ltac:(vm_compute; reflexivity) ltac:(vm_compute; reflexivity)
              ltac:(vm_compute; reflexivity))
    as (n & Hn & Hy & _).
  exists n. split; assumption.
Defined.

